(** * net_opt: plant-to-customer assignment (P-median) and its KPIs

    A shallow embedding of [utils.py] (great-circle distance) and
    [execute.py] (model construction, status handling, post-processing)
    together with the properties the specification states about them.

    Numbers.  Python floats are read as real numbers ([R]) with exact
    arithmetic; the rounding of values is not modelled.  What is kept of
    the float behaviour are the two places where it changes the shape of
    a result.  A numpy division by zero does not raise, it yields [nan]
    or an infinity ([np_truediv] below).  And in the great-circle
    formula rounding can take the argument of a square root below zero,
    where [math.sqrt] raises [ValueError]: where this happens is decided
    by binary64 arithmetic, so it is a parameter ([math_domain_error]) of
    the functions whose names end in [_float], which are the functions
    of the sources with this exception kept.

    The solver.  gurobipy is an external engine.  The model handed to it
    is embedded as data ([Model]); its answer (a status code and a value
    for every variable) is an input of the continuation of
    [run_network_optimization]. *)

From Stdlib Require Import Reals Lra Lia List String Ascii ZArith Bool FinFun.
From Stdlib Require Import DecimalString.
Import ListNotations.

Open Scope R_scope.

(* ===================================================================== *)
(** ** Python and numpy primitives used by the sources *)
(* ===================================================================== *)

Module Py.

(** Comparisons of floats as booleans. *)
Definition Rltb (a b : R) : bool := if Rlt_dec a b then true else false.
Definition Reqb (a b : R) : bool := if Req_dec_T a b then true else false.

(** The value of a numpy scalar division: finite, or one of the IEEE
    specials that a zero divisor produces (with a RuntimeWarning, not an
    exception). *)
Inductive npfloat : Type :=
| Finite (r : R)
| PosInf
| NegInf
| NaN.

Definition np_truediv (a b : R) : npfloat :=
  if Req_dec_T b 0 then
    (if Req_dec_T a 0 then NaN
     else if Rlt_dec 0 a then PosInf else NegInf)
  else Finite (a / b).

(** [v * 100] on such a value. *)
Definition np_times (v : npfloat) (k : R) : npfloat :=
  match v with
  | Finite r => Finite (r * k)
  | PosInf => if Rlt_dec 0 k then PosInf else if Rlt_dec k 0 then NegInf else NaN
  | NegInf => if Rlt_dec 0 k then NegInf else if Rlt_dec k 0 then PosInf else NaN
  | NaN => NaN
  end.


(** [str.lower()].  A string holds the UTF-8 bytes of the text.  The
    code points that lower-case to ASCII letters are the capitals 'A' to
    'Z' and U+212A KELVIN SIGN (the bytes E2 84 AA), which becomes 'k'.
    Every other code point outside ASCII lower-cases to code points
    outside ASCII; its bytes are kept as they are, which changes no
    comparison of the result with a text in ASCII. *)
Definition lower_ascii (c : ascii) : ascii :=
  let n := nat_of_ascii c in
  if ((65 <=? n)%nat && (n <=? 90)%nat)%bool then ascii_of_nat (n + 32) else c.

Definition is_byte (n : nat) (c : ascii) : bool := (nat_of_ascii c =? n)%nat.

Fixpoint lower (s : string) : string :=
  match s with
  | EmptyString => EmptyString
  | String c s' =>
      match s' with
      | String c2 (String c3 s3) =>
          if (is_byte 226 c && is_byte 132 c2 && is_byte 170 c3)%bool
          then String "k" (lower s3)
          else String (lower_ascii c) (lower s')
      | _ => String (lower_ascii c) (lower s')
      end
  end.

(** [u in {...}] for a set literal of strings. *)
Definition str_in (u : string) (l : list string) : bool :=
  existsb (String.eqb u) l.

(** [str(n)] of an integer. *)
Definition str (n : Z) : string := NilZero.string_of_int (Z.to_int n).

(** [math.radians]. *)
Definition radians (x : R) : R := x * PI / 180.

(** [math.atan2 y x]: the angle of the point [(x, y)], in [(-PI, PI]]. *)
Definition atan2 (y x : R) : R :=
  if Rlt_dec 0 x then atan (y / x)
  else if Rlt_dec x 0 then
         (if Rle_dec 0 y then atan (y / x) + PI else atan (y / x) - PI)
  else if Rlt_dec 0 y then PI / 2
  else if Rlt_dec y 0 then - (PI / 2)
  else 0.

(** [Series.unique()] / [drop_duplicates()]: the first occurrence of each
    value is kept, in order of appearance. *)
Section Unique.
Context {A : Type} (eqb : A -> A -> bool).

Fixpoint unique_from (seen : list A) (l : list A) : list A :=
    match l with
    | [] => []
    | a :: l' =>
        if existsb (eqb a) seen then unique_from seen l'
        else a :: unique_from (a :: seen) l'
    end.

Definition unique (l : list A) : list A := unique_from [] l.
End Unique.

(** [sum] of a column. *)
Definition Rsum (l : list R) : R := fold_right Rplus 0 l.

End Py.

(* ===================================================================== *)
(** ** utils.py *)
(* ===================================================================== *)

Module Utils.
Import Py.
Open Scope string_scope.

(** The radius chosen from [units], and what the [else] branch prints. *)
Definition earth_radius (units : string) : list string * R :=
  let u := lower units in
  let r := 3958.756 in
  if str_in u ["miles"; "mile"; "m"] then ([], 3958.756)
  else if str_in u ["kilometers"; "kilometer"; "km"] then ([], 6371.00)
  else (["'km' or 'miles' are options. " ++ units
           ++ " is passed. 'miles' is used by default."], r).

(** [calculate_distance_haversine] in exact arithmetic: the printed
    lines and the returned distance.  [math.sqrt] raises on a negative
    argument; in exact arithmetic both of its arguments here lie in
    [[0, 1]] (lemma [haversine_a_range]), so the square roots are the
    total [sqrt].  The exception that rounding can cause is kept in
    [calculate_distance_haversine_float] below. *)
Definition calculate_distance_haversine
    (lat1 lon1 lat2 lon2 road_factor : R) (units : string) : list string * R :=
  let '(printed, r) := earth_radius units in
  let lat1 := radians lat1 in
  let lon1 := radians lon1 in
  let lat2 := radians lat2 in
  let lon2 := radians lon2 in
  let dlon := lon2 - lon1 in
  let dlat := lat2 - lat1 in
  let a := sin (dlat / 2) ^ 2 + cos lat1 * cos lat2 * sin (dlon / 2) ^ 2 in
  let c := 2 * atan2 (sqrt a) (sqrt (1 - a)) in
  (printed, r * c * road_factor).

(** The same call as the interpreter runs it.  In binary64 the value of
    [a] can round to a number above 1 (it does for some pairs of points
    opposite each other on the globe) and [math.sqrt(1 - a)] then raises
    [ValueError: math domain error]; the radius has been chosen and the
    warning printed by then.  [math_domain_error lat1 lon1 lat2 lon2]
    tells whether this happens at the four coordinates; [None] is the
    [ValueError], the only exception of the function. *)
Definition calculate_distance_haversine_float
    (math_domain_error : R -> R -> R -> R -> bool)
    (lat1 lon1 lat2 lon2 road_factor : R) (units : string)
  : list string * option R :=
  let '(printed, d) :=
    calculate_distance_haversine lat1 lon1 lat2 lon2 road_factor units in
  (printed, if math_domain_error lat1 lon1 lat2 lon2 then None else Some d).

(** The two defaults of the signature. *)
Definition default_road_factor : R := 1.
Definition default_units : string := "miles".

(** The value bound to [a] in [calculate_distance_haversine], as a
    function of the four angles in radians. *)
Definition haversine_a (lat1 lon1 lat2 lon2 : R) : R :=
  sin ((lat2 - lat1) / 2) ^ 2 + cos lat1 * cos lat2 * sin ((lon2 - lon1) / 2) ^ 2.

(** The spellings the claim about [units] lists. *)
Definition miles_spellings : list string := ["miles"; "mile"; "m"].
Definition kilometers_spellings : list string := ["kilometers"; "kilometer"; "km"].


End Utils.

(* ===================================================================== *)
(** ** The part of gurobipy the program uses *)
(* ===================================================================== *)

Module Gurobi.
Import Py.

(** The variables [x[i]] (plant [i] is used) and [y[i,j]] (plant [i]
    serves customer [j]); all of them are created with
    [vtype=GRB.BINARY]. *)
Inductive Var : Type :=
| x_var (i : Z)
| y_var (i j : Z).

(** The value [v.x] of every variable after [optimize()]. *)
Definition solution : Type := Var -> R.

(** A linear expression: [sum coef * var + constant]. *)
Record LinExpr : Type := mkLinExpr {
  terms : list (R * Var);
  constant : R
}.

Definition of_var (v : Var) : LinExpr := mkLinExpr [(1, v)] 0.
Definition of_const (k : R) : LinExpr := mkLinExpr [] k.

(** [gp.quicksum] of single-term products [coef * var]. *)
Definition quicksum (ts : list (R * Var)) : LinExpr := mkLinExpr ts 0.

(** [LinExpr.getValue()]. *)
Definition getValue (e : LinExpr) (sol : solution) : R :=
  Rsum (map (fun t => fst t * sol (snd t)) (terms e)) + constant e.

Inductive Sense : Type := LESS_EQUAL | EQUAL | GREATER_EQUAL.

(** [lhs <= rhs], [lhs == rhs], [lhs >= rhs]. *)
Record TempConstr : Type := mkTempConstr {
  lhs : LinExpr;
  sense : Sense;
  rhs : LinExpr
}.

(** A constraint as added by [addConstr(s)]: the family name, the index
    inside the family, and the relation. *)
Record Constr : Type := mkConstr {
  ConstrName : string;
  index : list Z;
  body : TempConstr
}.

Definition holds (sol : solution) (c : TempConstr) : Prop :=
  match sense c with
  | LESS_EQUAL => getValue (lhs c) sol <= getValue (rhs c) sol
  | EQUAL => getValue (lhs c) sol = getValue (rhs c) sol
  | GREATER_EQUAL => getValue (lhs c) sol >= getValue (rhs c) sol
  end.

(** [GRB.MINIMIZE] *)
Definition MINIMIZE : Z := 1%Z.

Record Model : Type := mkModel {
  ModelName : string;
  Vars : list Var;
  Constrs : list Constr;
  Objective : LinExpr;
  ModelSense : Z
}.

(** Status codes of [Model.status]. *)
Definition OPTIMAL : Z := 2%Z.
Definition INFEASIBLE : Z := 3%Z.
Definition INF_OR_UNBD : Z := 4%Z.
Definition UNBOUNDED : Z := 5%Z.

(** What [optimize()] leaves behind: the status, and the variable values
    (meaningful when the status is [OPTIMAL]). *)
Record SolverResult : Type := mkSolverResult {
  status : Z;
  X : solution
}.

(** [mdl.objVal]: the objective at the current solution. *)
Definition objVal (mdl : Model) (r : SolverResult) : R :=
  getValue (Objective mdl) (X r).

Definition binary (sol : solution) (v : Var) : Prop := sol v = 0 \/ sol v = 1.

Definition feasible (mdl : Model) (sol : solution) : Prop :=
  (forall v, In v (Vars mdl) -> binary sol v) /\
  (forall c, In c (Constrs mdl) -> holds sol (body c)).

Definition optimal (mdl : Model) (sol : solution) : Prop :=
  feasible mdl sol /\
  (forall sol', feasible mdl sol' ->
     getValue (Objective mdl) sol <= getValue (Objective mdl) sol').

(** The contract of the engine the program relies on: a reported
    [OPTIMAL] comes with an optimal solution of the submitted model. *)
Definition sound_answer (mdl : Model) (r : SolverResult) : Prop :=
  status r = OPTIMAL -> optimal mdl (X r).

End Gurobi.

(* ===================================================================== *)
(** ** execute.py *)
(* ===================================================================== *)

Module Execute.
Import Py Gurobi.
Open Scope string_scope.

(** Rows of the two sheets after [prep_data] has renamed [ID] and [Name]. *)
Record Plant : Type := mkPlant {
  Plant_ID : Z;
  Plant_Name : string;
  Plant_Latitude : R;
  Plant_Longitude : R;
  Must_Use : bool;
  Can_Use : bool;
  City : string
}.

Record Customer : Type := mkCustomer {
  Customer_ID : Z;
  Customer_Name : string;
  Customer_Latitude : R;
  Customer_Longitude : R;
  Demand : R
}.

(** A row of the cross merge, indexed by [(Plant ID, Customer ID)], with
    the [Distance] column of [get_distance]. *)
Record DistRow : Type := mkDistRow {
  dist_plant : Plant;
  dist_customer : Customer;
  Distance : R
}.

(** The same row once [run_network_optimization] has added [Cost]. *)
Record DistCostRow : Type := mkDistCostRow {
  dist_row : DistRow;
  Cost : R
}.

Definition dist_index (r : DistCostRow) : Z * Z :=
  (Plant_ID (dist_plant (dist_row r)), Customer_ID (dist_customer (dist_row r))).

(** The exceptions that end a run. *)
Inductive exn : Type :=
| KeyError
| IndexError
| ValueError
| NotImplementedError
| GurobiError.

Inductive res (A : Type) : Type :=
| Ok (a : A)
| Raise (e : exn).
Arguments Ok {A} a.
Arguments Raise {A} e.

Definition bind {A B : Type} (m : res A) (f : A -> res B) : res B :=
  match m with
  | Ok a => f a
  | Raise e => Raise e
  end.

Notation "x <- m ;; k" := (bind m (fun x => k))
  (at level 61, m at next level, right associativity).

Fixpoint mapM {A B : Type} (f : A -> res B) (l : list A) : res (list B) :=
  match l with
  | [] => Ok []
  | a :: l' => b <- f a ;; bs <- mapM f l' ;; Ok (b :: bs)
  end.

(** The lambda of [get_distance]: the distance between the coordinates of
    a merged row, with the default road factor and units. *)
Definition row_distance (p : Plant) (c : Customer) : R :=
  snd (Utils.calculate_distance_haversine
         (Plant_Latitude p) (Plant_Longitude p)
         (Customer_Latitude c) (Customer_Longitude c)
         Utils.default_road_factor Utils.default_units).

(** [get_distance]: the cross merge pairs every origin row with every
    destination row (origin-major), then [Distance] is computed row by
    row. *)
Definition get_distance (orig_df : list Plant) (dest_df : list Customer)
  : list DistRow :=
  flat_map (fun p => map (fun c => mkDistRow p c (row_distance p c)) dest_df)
           orig_df.

(** [df.loc[key]] on the index of a frame: the row that has the key, a
    [KeyError] when no row has it, and the frame of the rows that have it
    when there are several. *)
Inductive located (A : Type) : Type :=
| Row (a : A)
| Frame (rows : list A).
Arguments Row {A} a.
Arguments Frame {A} rows.

Definition loc {A : Type} (has_key : A -> bool) (df : list A) : res (located A) :=
  match filter has_key df with
  | [] => Raise KeyError
  | [a] => Ok (Row a)
  | rows => Ok (Frame rows)
  end.

(** [dist.loc[i, j]] and [dmd.loc[j]]. *)
Definition dist_loc (dist : list DistCostRow) (i j : Z)
  : res (located DistCostRow) :=
  loc (fun r => (fst (dist_index r) =? i)%Z && (snd (dist_index r) =? j)%Z) dist.

Definition dmd_loc (dmd : list Customer) (j : Z) : res (located Customer) :=
  loc (fun c => (Customer_ID c =? j)%Z) dmd.

(** All pairs of rows, plant-major. *)
Definition row_pairs (plant_df : list Plant) (cust_df : list Customer)
  : list (Plant * Customer) :=
  flat_map (fun p => map (fun c => (p, c)) cust_df) plant_df.

(** A row of the lane table returned by [generate_outputs]. *)
Record Lane : Type := mkLane {
  Lane_label : string;
  Origin : string;
  Destination : string;
  Lane_Demand : R;
  Lane_Plant_ID : Z;
  Origin_Lat : R;
  Origin_Lon : R;
  Lane_Customer_ID : Z;
  Dest_Lat : R;
  Dest_Lon : R
}.

Definition Lane_eqb (a b : Lane) : bool :=
  String.eqb (Lane_label a) (Lane_label b)
  && String.eqb (Origin a) (Origin b)
  && String.eqb (Destination a) (Destination b)
  && Reqb (Lane_Demand a) (Lane_Demand b)
  && (Lane_Plant_ID a =? Lane_Plant_ID b)%Z
  && Reqb (Origin_Lat a) (Origin_Lat b)
  && Reqb (Origin_Lon a) (Origin_Lon b)
  && (Lane_Customer_ID a =? Lane_Customer_ID b)%Z
  && Reqb (Dest_Lat a) (Dest_Lat b)
  && Reqb (Dest_Lon a) (Dest_Lon b).

(** A row of [adf], the assignments joined with demand and distance. *)
Record AdfRow : Type := mkAdfRow {
  adf_Plant_ID : Z;
  adf_Customer_ID : Z;
  adf_Demand : R;
  adf_Distance : R;
  Within400 : bool;
  Within800 : bool;
  Within1200 : bool
}.

(** What the program prints.  Lines that format a float keep the value
    instead of its rendering. *)
Inductive line : Type :=
| Text (s : string)
| ObjectiveValue (objVal : R)
    (* The solution is optimal and the objective value is: {objVal:,.0f} *)
| WeightedAverageDistance (v : npfloat)
    (* Weighted Average Distance: {v:,.1f} *)
| TotalDemand (v : R)
    (* Total demand: {v:,.0f} *)
| PctDemandWithin (miles : Z) (pct100 : npfloat).
    (* Percentages of demand within {miles} miles of a plant: {pct100:,.2f}% *)

Inductive event : Type :=
| Print (l : line)
| PlotNetwork (lanes : list Lane) (auto_open_map : bool) (title : string)
    (open_map_in_cell : bool).

(** How a run ends: [sys.exit(code)], an uncaught exception, or a normal
    return. *)
Inductive outcome : Type :=
| SysExit (code : Z)
| Uncaught (e : exn)
| Returned.

(** The program up to and after its single call of [mdl.optimize()]. *)
Inductive program : Type :=
| Fails (e : exn)
| Optimize (mdl : Model) (k : SolverResult -> list event * outcome).

Definition rule : line := Text "========================================".

Section Run.

(** Where binary64 rounding makes [math.sqrt] raise inside
    [calculate_distance_haversine]; only the functions whose names end in
    [_float] depend on it. *)
Variable math_domain_error : R -> R -> R -> R -> bool.

(** The module-level parameters set in the [__main__] block. *)
Variable max_plants : Z.
Variable cost_per_mile : R.
Variable min_cost : R.
Variable open_map_in_cell : bool.

(** The lambda of [get_distance] and [get_distance] itself as the
    interpreter runs them: [df.apply] computes the rows in order and the
    first [ValueError] ends the call. *)
Definition row_distance_float (p : Plant) (c : Customer) : res R :=
  match snd (Utils.calculate_distance_haversine_float math_domain_error
               (Plant_Latitude p) (Plant_Longitude p)
               (Customer_Latitude c) (Customer_Longitude c)
               Utils.default_road_factor Utils.default_units) with
  | Some d => Ok d
  | None => Raise ValueError
  end.

Definition get_distance_float (orig_df : list Plant) (dest_df : list Customer)
  : res (list DistRow) :=
  mapM (fun pc => d <- row_distance_float (fst pc) (snd pc) ;;
                  Ok (mkDistRow (fst pc) (snd pc) d))
       (row_pairs orig_df dest_df).

(** [dist['Cost'] = dist['Distance'].apply(lambda x: max(cost_per_mile * x, min_cost))] *)
Definition cost_of_distance (x : R) : R := Rmax (cost_per_mile * x) min_cost.

Definition add_cost (dist : list DistRow) : list DistCostRow :=
  map (fun r => mkDistCostRow r (cost_of_distance (Distance r))) dist.

(** *** Set up data *)

Definition setup_dist (plant_df : list Plant) (cust_df : list Customer)
  : list DistCostRow :=
  add_cost (get_distance plant_df cust_df).

Definition setup_dist_float (plant_df : list Plant) (cust_df : list Customer)
  : res (list DistCostRow) :=
  dist <- get_distance_float plant_df cust_df ;;
  Ok (add_cost dist).

Definition plnt (plant_df : list Plant) : list Z :=
  unique Z.eqb (map Plant_ID plant_df).

Definition cust (cust_df : list Customer) : list Z :=
  unique Z.eqb (map Customer_ID cust_df).

(** [set((i, j) for i in plnt for j in cust)]; the members are listed
    plant-major, the order in which a Python set is walked is not fixed
    and nothing below depends on it. *)
Definition ij_set (plnt cust : list Z) : list (Z * Z) :=
  flat_map (fun i => map (fun j => (i, j)) cust) plnt.

Definition must_use_plants (plant_df : list Plant) : list Z :=
  map Plant_ID (filter Must_Use plant_df).

Definition unavailable_plants (plant_df : list Plant) : list Z :=
  map Plant_ID (filter (fun p => negb (Can_Use p)) plant_df).

(** *** Optimization model *)

(** Keys of the tupledicts [x] and [y] in creation order; the variable
    stored under key [i] is [x_var i], under [(i, j)] it is [y_var i j]. *)
Definition x_keys (plnt : list Z) : list Z := plnt.

Definition y_keys (plnt cust : list Z) : list (Z * Z) :=
  flat_map (fun i => map (fun j => (i, j)) cust) plnt.

(** [y.sum('*', j)] and [x.sum()] *)
Definition y_sum_star (y : list (Z * Z)) (j : Z) : LinExpr :=
  quicksum (map (fun k => (1, y_var (fst k) (snd k)))
                (filter (fun k => (snd k =? j)%Z) y)).

Definition x_sum (x : list Z) : LinExpr :=
  quicksum (map (fun i => (1, x_var i)) x).

(** 1. Every customer must be assigned to one plant. *)
Definition cust_coverage (y : list (Z * Z)) (cust : list Z) : list Constr :=
  map (fun j => mkConstr "cust_coverage" [j]
                  (mkTempConstr (y_sum_star y j) EQUAL (of_const 1)))
      cust.

(** 2. We can use maximum P plants. *)
Definition max_num_plants (x : list Z) : Constr :=
  mkConstr "max_num_plants" []
    (mkTempConstr (x_sum x) LESS_EQUAL (of_const (IZR max_plants))).

(** 3. Cannot serve a customer from a plant that is not used. *)
Definition rel_x_y (ij : list (Z * Z)) : list Constr :=
  map (fun k => mkConstr "rel_x_y" [fst k; snd k]
                  (mkTempConstr (of_var (y_var (fst k) (snd k))) LESS_EQUAL
                                (of_var (x_var (fst k)))))
      ij.

(** 4. Plants that we must use. *)
Definition must_use (F : list Z) : list Constr :=
  map (fun i => mkConstr "must_use" [i]
                  (mkTempConstr (of_var (x_var i)) EQUAL (of_const 1)))
      F.

(** 5. Plants that we cannot use. *)
Definition cant_use (U : list Z) : list Constr :=
  map (fun i => mkConstr "cant_use" [i]
                  (mkTempConstr (of_var (x_var i)) EQUAL (of_const 0)))
      U.

(** KPI: [dist.loc[i, j]['Distance'] * dmd.loc[j]['Demand'] * y[i, j]]
    summed over [ij_set].  With one row under each key the factors are
    two floats and a variable.  With several rows under a key the
    selected column is a Series: the product of the two Series raises
    [NotImplementedError] (their indexes, which repeat a key, are not
    aligned), and a Series in a product with a variable makes the sum
    raise [GurobiError]. *)
Definition weighted_term (dist : list DistCostRow) (dmd : list Customer)
    (k : Z * Z) : res (R * Var) :=
  d <- dist_loc dist (fst k) (snd k) ;;
  c <- dmd_loc dmd (snd k) ;;
  match d, c with
  | Row d, Row c => Ok (Distance (dist_row d) * Demand c, y_var (fst k) (snd k))
  | Frame _, Frame _ => Raise NotImplementedError
  | Frame _, Row _ => Raise GurobiError
  | Row _, Frame _ => Raise GurobiError
  end.

Definition total_weighted_dist (dist : list DistCostRow) (dmd : list Customer)
    (ij : list (Z * Z)) : res LinExpr :=
  ts <- mapM (weighted_term dist dmd) ij ;;
  Ok (quicksum ts).

(** The model as it stands when [mdl.optimize()] is called.  The objective
    is "Case 1", the total weighted distance; the source keeps "Case 2"
    (total transportation cost) as a comment only. *)
Definition build_model (plant_df : list Plant) (cust_df : list Customer)
  : res Model :=
  let dist := setup_dist plant_df cust_df in
  let dmd := cust_df in
  let plnt := plnt plant_df in
  let cust := cust cust_df in
  let ij_set := ij_set plnt cust in
  let must_use_plants := must_use_plants plant_df in
  let unavailable_plants := unavailable_plants plant_df in
  let x := x_keys plnt in
  let y := y_keys plnt cust in
  twd <- total_weighted_dist dist dmd ij_set ;;
  let objective := twd in
  Ok (mkModel "net_optimization"
        (map x_var x ++ map (fun k => y_var (fst k) (snd k)) y)
        (cust_coverage y cust
           ++ [max_num_plants x]
           ++ rel_x_y ij_set
           ++ must_use must_use_plants
           ++ cant_use unavailable_plants)
        objective
        MINIMIZE).

(** *** Post process *)

(** [[k for k, v in y.items() if v.x > 0.5]] *)
Definition assigned_list (y : list (Z * Z)) (sol : solution) : list (Z * Z) :=
  filter (fun k => Rltb 0.5 (sol (y_var (fst k) (snd k)))) y.

(** [plant_df.loc[plant_df['Plant ID'] == k, 'City'].iloc[0]] *)
Definition city_of (plant_df : list Plant) (k : Z) : res string :=
  match map City (filter (fun p => (Plant_ID p =? k)%Z) plant_df) with
  | c :: _ => Ok c
  | [] => Raise IndexError
  end.

(** The plants with [x[k].x > 0.5], and their cities. *)
Definition open_plants (x : list Z) (sol : solution) : list Z :=
  filter (fun k => Rltb 0.5 (sol (x_var k))) x.

Definition _opt_plants (plant_df : list Plant) (x : list Z) (sol : solution)
  : res (list string) :=
  mapM (city_of plant_df) (open_plants x sol).

(** [pd.merge(assigned_df, dmd[['Demand']], how='inner',
              left_on='Customer ID', right_index=True)] *)
Definition merge_demand (assigned : list (Z * Z)) (dmd : list Customer)
  : list (Z * Z * R) :=
  flat_map
    (fun k => map (fun c => (k, Demand c))
                  (filter (fun c => (Customer_ID c =? snd k)%Z) dmd))
    assigned.

(** The second merge, with [dist[['Distance']]] on the pair index, and the
    three [Within] columns. *)
Definition adf (assigned : list (Z * Z)) (dmd : list Customer)
    (dist : list DistCostRow) : list AdfRow :=
  flat_map
    (fun kd =>
       map (fun r =>
              let d := Distance (dist_row r) in
              mkAdfRow (fst (fst kd)) (snd (fst kd)) (snd kd) d
                (if Rle_dec d 400 then true else false)
                (if Rle_dec d 800 then true else false)
                (if Rle_dec d 1200 then true else false))
           (filter (fun r => (fst (dist_index r) =? fst (fst kd))%Z
                             && (snd (dist_index r) =? snd (fst kd))%Z) dist))
    (merge_demand assigned dmd).

Definition total_dmd (adf : list AdfRow) : R := Rsum (map adf_Demand adf).

Definition weighted_avg_dist (total_weighted_dist : LinExpr) (sol : solution)
    (adf : list AdfRow) : npfloat :=
  np_truediv (getValue total_weighted_dist sol) (total_dmd adf).

(** [adf.loc[adf[col], 'Demand'].sum() / total_dmd] *)
Definition pct_dmd_within (col : AdfRow -> bool) (adf : list AdfRow) : npfloat :=
  np_truediv (Rsum (map adf_Demand (filter col adf))) (total_dmd adf).

(** The set of lanes: demand, label, customer columns, plant columns, the
    final column selection and [drop_duplicates()]. *)
Definition lanes_with_customer (l : list (Z * Z * R)) (cust_df : list Customer)
  : list (Z * Z * R * string * Customer) :=
  flat_map
    (fun kd =>
       map (fun c => (kd, str (fst (fst kd)) ++ "-" ++ str (snd (fst kd)), c))
           (filter (fun c => (Customer_ID c =? snd (fst kd))%Z) cust_df))
    l.

Definition lanes_with_plant (l : list (Z * Z * R * string * Customer))
    (plant_df : list Plant) : list Lane :=
  flat_map
    (fun r =>
       let kd := fst (fst r) in
       let label := snd (fst r) in
       let c := snd r in
       map (fun p =>
              mkLane label (Plant_Name p) (Customer_Name c) (snd kd)
                (fst (fst kd)) (Plant_Latitude p) (Plant_Longitude p)
                (snd (fst kd)) (Customer_Latitude c) (Customer_Longitude c))
           (filter (fun p => (Plant_ID p =? fst (fst kd))%Z) plant_df))
    l.

(** When [assigned_df] has no row, the first merge takes the index of
    its result from [dmd], so that 'Customer ID' names both the index and
    a column, and the merge [on='Customer ID'] that follows raises
    [ValueError]. *)
Definition lanes (assigned : list (Z * Z)) (plant_df : list Plant)
    (cust_df dmd : list Customer) : res (list Lane) :=
  match assigned with
  | [] => Raise ValueError
  | _ :: _ =>
      Ok (unique Lane_eqb
            (lanes_with_plant
               (lanes_with_customer (merge_demand assigned dmd) cust_df)
               plant_df))
  end.

(** [generate_outputs]: what is printed, then the lane table or the
    exception that ended the call. *)
Definition generate_outputs (plant_df : list Plant) (cust_df : list Customer)
    (dist : list DistCostRow) (dmd : list Customer)
    (total_weighted_dist : LinExpr) (x : list Z) (y : list (Z * Z))
    (sol : solution) : list line * res (list Lane) :=
  let assigned_list := assigned_list y sol in
  match _opt_plants plant_df x sol with
  | Raise e => ([rule], Raise e)
  | Ok cities =>
      let adf := adf assigned_list dmd dist in
      let total_dmd := total_dmd adf in
      let weighted_avg_dist := weighted_avg_dist total_weighted_dist sol adf in
      let pct_dmd_within400 := pct_dmd_within Within400 adf in
      let pct_dmd_within800 := pct_dmd_within Within800 adf in
      let pct_dmd_within1200 := pct_dmd_within Within1200 adf in
      ([rule;
        Text ("Selected plants are in: " ++ String.concat ", " cities);
        WeightedAverageDistance weighted_avg_dist;
        TotalDemand total_dmd;
        PctDemandWithin 400 (np_times pct_dmd_within400 100);
        PctDemandWithin 800 (np_times pct_dmd_within800 100);
        PctDemandWithin 1200 (np_times pct_dmd_within1200 100);
        rule],
       lanes assigned_list plant_df cust_df dmd)
  end.

(** [run_network_optimization]: the model is built and handed to the
    engine; what happens next depends on the status it reports. *)
Definition run_network_optimization (plant_df : list Plant)
    (cust_df : list Customer) (auto_open_map : bool) : program :=
  match build_model plant_df cust_df with
  | Raise e => Fails e
  | Ok mdl =>
      Optimize mdl
        (fun r =>
           let status := status r in
           if existsb (Z.eqb status) [INF_OR_UNBD; INFEASIBLE; UNBOUNDED] then
             ([Print (Text "The model is either infeasible or unbounded!")],
              SysExit 1)
           else if (status =? OPTIMAL)%Z then
             let said := Print (ObjectiveValue (objVal mdl r)) in
             let out :=
               generate_outputs plant_df cust_df
                 (setup_dist plant_df cust_df) cust_df (Objective mdl)
                 (x_keys (plnt plant_df))
                 (y_keys (plnt plant_df) (cust cust_df)) (X r) in
             match snd out with
             | Ok lanes =>
                 (said :: map Print (fst out)
                    ++ [PlotNetwork lanes auto_open_map "Solution Map"
                          open_map_in_cell],
                  Returned)
             | Raise e => (said :: map Print (fst out), Uncaught e)
             end
           else
             ([Print (Text ("Status is " ++ str status ++ ". Investigate!"))],
              SysExit 1))
  end.

(** [run_network_optimization] as the interpreter runs it: its first
    statement, [get_distance], can end the run with a [ValueError]; when
    it does not, the distances are the ones above. *)
Definition run_network_optimization_float (plant_df : list Plant)
    (cust_df : list Customer) (auto_open_map : bool) : program :=
  match setup_dist_float plant_df cust_df with
  | Raise e => Fails e
  | Ok _ => run_network_optimization plant_df cust_df auto_open_map
  end.



(** The engine reported [OPTIMAL] for the model of these tables, and the
    values it left are an optimal solution of that model. *)
Definition reports_optimal (plant_df : list Plant) (cust_df : list Customer)
    (r : SolverResult) : Prop :=
  status r = OPTIMAL /\
  exists mdl, build_model plant_df cust_df = Ok mdl /\ optimal mdl (X r).

End Run.

(** The run submitted [mdl], received the answer [r], then produced the
    events [evs] and ended with [o]. *)
Definition answers (prog : program) (r : SolverResult) (mdl : Model)
    (evs : list event) (o : outcome) : Prop :=
  exists k, prog = Optimize mdl k /\ k r = (evs, o).

(** Identifiers are unique in both tables. *)
Definition unique_ids (plant_df : list Plant) (cust_df : list Customer) : Prop :=
  NoDup (map Plant_ID plant_df) /\ NoDup (map Customer_ID cust_df).

(** No pair of a plant and a customer makes [math.sqrt] raise. *)
Definition no_domain_error (math_domain_error : R -> R -> R -> R -> bool)
    (plant_df : list Plant) (cust_df : list Customer) : Prop :=
  forall p c, In p plant_df -> In c cust_df ->
    math_domain_error (Plant_Latitude p) (Plant_Longitude p)
      (Customer_Latitude c) (Customer_Longitude c) = false.

(** The distance table as a function of the pairs of rows. *)
Definition dist_entry (cost_per_mile min_cost : R) (pc : Plant * Customer)
  : DistCostRow :=
  mkDistCostRow
    (mkDistRow (fst pc) (snd pc) (row_distance (fst pc) (snd pc)))
    (cost_of_distance cost_per_mile min_cost (row_distance (fst pc) (snd pc))).

(** The pairs of rows whose variable [y] has a value above 0.5. *)
Definition served (sol : solution) (pc : Plant * Customer) : bool :=
  Rltb 0.5 (sol (y_var (Plant_ID (fst pc)) (Customer_ID (snd pc)))).

Definition served_pairs (plant_df : list Plant) (cust_df : list Customer)
    (sol : solution) : list (Plant * Customer) :=
  filter (served sol) (row_pairs plant_df cust_df).

(** The lane and the [adf] row of a pair of rows. *)
Definition lane_of (pc : Plant * Customer) : Lane :=
  let p := fst pc in
  let c := snd pc in
  mkLane (str (Plant_ID p) ++ "-" ++ str (Customer_ID c))
    (Plant_Name p) (Customer_Name c) (Demand c)
    (Plant_ID p) (Plant_Latitude p) (Plant_Longitude p)
    (Customer_ID c) (Customer_Latitude c) (Customer_Longitude c).

Definition adf_row_of (pc : Plant * Customer) : AdfRow :=
  let d := row_distance (fst pc) (snd pc) in
  mkAdfRow (Plant_ID (fst pc)) (Customer_ID (snd pc)) (Demand (snd pc)) d
    (if Rle_dec d 400 then true else false)
    (if Rle_dec d 800 then true else false)
    (if Rle_dec d 1200 then true else false).

(** The number of rows of the lane table for customer [j]. *)
Definition lanes_of_customer (lanes : list Lane) (j : Z) : nat :=
  List.length (filter (fun l => (Lane_Customer_ID l =? j)%Z) lanes).


(** Opening plant [s] next to the must-use plants stays within the cap. *)
Definition room_for (max_plants : Z) (plant_df : list Plant) (s : Plant) : Prop :=
  (Z.of_nat (List.length (filter Must_Use plant_df))
   + (if Must_Use s then 0 else 1) <= max_plants)%Z.

(** The solution that opens the must-use plants and the plant with id [s]
    and serves every customer from [s]. *)
Definition serve_all_from (plant_df : list Plant) (s : Z) : solution :=
  fun v =>
    match v with
    | x_var i =>
        if (i =? s)%Z
           || existsb (fun p => Must_Use p && (Plant_ID p =? i)%Z) plant_df
        then 1 else 0
    | y_var i j => if (i =? s)%Z then 1 else 0
    end.

(** The solution [sol] with customer [j] moved from plant [i] to plant
    [i']. *)
Definition reassign (sol : solution) (i i' j : Z) : solution :=
  fun v =>
    match v with
    | x_var _ => sol v
    | y_var a b =>
        if ((a =? i')%Z && (b =? j)%Z)%bool then 1
        else if ((a =? i)%Z && (b =? j)%Z)%bool then 0
        else sol v
    end.

(** The values of the [__main__] block. *)
Definition main_max_plants : Z := 3%Z.
Definition main_cost_per_mile : R := 2.
Definition main_min_cost : R := 450.
Definition main_open_map_in_cell : bool := false.

End Execute.

(* ===================================================================== *)
(** ** plots.py *)
(* ===================================================================== *)

Module Plots.
Import Py Execute.
Open Scope string_scope.

(** A row of the two frames of [create_location_dataframe], once [Origin]
    or [Destination] has been dropped. *)
Record Location : Type := mkLocation {
  lat : R;
  lon : R;
  text : string;
  size : Z;
  color : string;
  shape : string;
  name : string
}.

Definition place_eqb (a b : string * R * R) : bool :=
  String.eqb (fst (fst a)) (fst (fst b))
  && Reqb (snd (fst a)) (snd (fst b))
  && Reqb (snd a) (snd b).

(** [create_location_dataframe]: the distinct origins as blue triangles
    and the distinct destinations as orange circles, as the dictionary
    [{'Plant': origin_df, 'Customer': dest_df}]. *)
Definition create_location_dataframe (data : list Lane)
  : list (string * list Location) :=
  let origin_df :=
    unique place_eqb (map (fun r => (Origin r, Origin_Lat r, Origin_Lon r)) data) in
  let origin_df :=
    map (fun t => mkLocation (snd (fst t)) (snd t) (fst (fst t)) 20 "blue"
                    "triangle-up" (fst (fst t)))
        origin_df in
  let dest_df :=
    unique place_eqb
      (map (fun r => (Destination r, Dest_Lat r, Dest_Lon r)) data) in
  let dest_df :=
    map (fun t => mkLocation (snd (fst t)) (snd t) (fst (fst t)) 8 "orange"
                    "circle" (fst (fst t)))
        dest_df in
  [("Plant", origin_df); ("Customer", dest_df)].

(** [Series.min()] and [Series.max()]: [None] is the [nan] of an empty
    column. *)
Fixpoint series_min (l : list R) : option R :=
  match l with
  | [] => None
  | a :: l' =>
      match series_min l' with
      | None => Some a
      | Some m => Some (Rmin a m)
      end
  end.

Fixpoint series_max (l : list R) : option R :=
  match l with
  | [] => None
  | a :: l' =>
      match series_max l' with
      | None => Some a
      | Some m => Some (Rmax a m)
      end
  end.

(** One turn of the loop of [get_lat_lon_range]; a comparison with [nan]
    is false and leaves the bound as it is. *)
Definition widen (box : R * R * R * R) (df : list Location) : R * R * R * R :=
  let '(min_lat, max_lat, min_lon, max_lon) := box in
  let df_lat_min := series_min (map lat df) in
  let df_lat_max := series_max (map lat df) in
  let df_lon_min := series_min (map lon df) in
  let df_lon_max := series_max (map lon df) in
  let min_lat :=
    match df_lat_min with
    | Some v => if Rlt_dec v min_lat then v else min_lat
    | None => min_lat
    end in
  let max_lat :=
    match df_lat_max with
    | Some v => if Rgt_dec v max_lat then v else max_lat
    | None => max_lat
    end in
  let min_lon :=
    match df_lon_min with
    | Some v => if Rlt_dec v min_lon then v else min_lon
    | None => min_lon
    end in
  let max_lon :=
    match df_lon_max with
    | Some v => if Rgt_dec v max_lon then v else max_lon
    | None => max_lon
    end in
  (min_lat, max_lat, min_lon, max_lon).

(** [get_lat_lon_range]: [([min_lat, max_lat], [min_lon, max_lon])]. *)
Definition get_lat_lon_range (df_dict : list (string * list Location))
  : (R * R) * (R * R) :=
  let '(min_lat, max_lat, min_lon, max_lon) :=
    fold_left widen (map snd df_dict) (90, -90, 180, -180) in
  ((min_lat, max_lat), (min_lon, max_lon)).

(** [lo_rng[0] <= range[0] and range[1] <= lo_rng[1]] for both axes. *)
Definition within (lat_range lon_range lat_rng lon_rng : R * R) : bool :=
  (if Rge_dec (fst lat_range) (fst lat_rng) then true else false)
  && (if Rle_dec (snd lat_range) (snd lat_rng) then true else false)
  && (if Rge_dec (fst lon_range) (fst lon_rng) then true else false)
  && (if Rle_dec (snd lon_range) (snd lon_rng) then true else false).

Definition us_lat_rng : R * R := (24, 55).
Definition us_lon_rng : R * R := (-127, -50).
Definition na_lat_rng : R * R := (15, 85).
Definition na_lon_rng : R * R := (-170, -50).
Definition eu_lat_rng : R * R := (30, 80).
Definition eu_lon_rng : R * R := (-20, 70).
Definition sa_lat_rng : R * R := (-60, 12).
Definition sa_lon_rng : R * R := (-81, -34).

Definition get_scope (lat_range lon_range : R * R) : string :=
  if within lat_range lon_range us_lat_rng us_lon_rng then "usa"
  else if within lat_range lon_range na_lat_rng na_lon_rng then "north america"
  else if within lat_range lon_range eu_lat_rng eu_lon_rng then "europe"
  else if within lat_range lon_range sa_lat_rng sa_lon_rng then "south america"
  else "world".

(** [str.upper()] on ASCII text. *)
Definition upper_ascii (c : ascii) : ascii :=
  let n := nat_of_ascii c in
  if ((97 <=? n)%nat && (n <=? 122)%nat)%bool then ascii_of_nat (n - 32) else c.

Fixpoint upper (s : string) : string :=
  match s with
  | EmptyString => EmptyString
  | String c s' => String (upper_ascii c) (upper s')
  end.

(** What [plot_network] puts in the figure and where it writes it. *)
Record Figure : Type := mkFigure {
  layout_title : string;
  geo_scope : string;
  location_traces : list (string * list Location);
  path_traces : list ((R * R) * (R * R));
  shown_in_cell : bool;
  html_file : string;
  html_auto_open : bool
}.

(** [set_locations_map]: one scatter trace for each entry of the
    dictionary, named after its key and carrying its columns. *)
Definition set_locations_map (df_dict : list (string * list Location))
  : list (string * list Location) :=
  map (fun entry => (fst entry, snd entry)) df_dict.

Definition plot_network (data : list Lane) (add_path auto_open_map : bool)
    (title : string) (open_map_in_cell : bool) : Figure :=
  let df_dict := create_location_dataframe data in
  let locations := set_locations_map df_dict in
  let ranges := get_lat_lon_range df_dict in
  let scope := get_scope (fst ranges) (snd ranges) in
  let title :=
    match title with
    | EmptyString => upper scope ++ " Network"
    | String _ _ => title
    end in
  mkFigure title scope locations
    (if add_path
     then map (fun row => ((Origin_Lon row, Dest_Lon row),
                           (Origin_Lat row, Dest_Lat row))) data
     else [])
    open_map_in_cell (title ++ ".html") auto_open_map.

(** The figure of a [PlotNetwork] event of the run; the call in
    [run_network_optimization] leaves [add_path] at its default. *)
Definition figure_of (e : event) : option Figure :=
  match e with
  | PlotNetwork lanes auto_open_map title open_map_in_cell =>
      Some (plot_network lanes true auto_open_map title open_map_in_cell)
  | Print _ => None
  end.

(** The places drawn by a figure. *)
Definition drawn (f : Figure) : list Location :=
  flat_map snd (location_traces f).

(** A place lies in a box of four bounds, and a box lies in the ranges of
    a region. *)
Definition covers (box : R * R * R * R) (loc : Location) : Prop :=
  fst (fst (fst box)) <= lat loc <= snd (fst (fst box))
  /\ snd (fst box) <= lon loc <= snd box.

Definition inside (box : R * R * R * R) (lat_rng lon_rng : R * R) : Prop :=
  fst lat_rng <= fst (fst (fst box)) /\ snd (fst (fst box)) <= snd lat_rng
  /\ fst lon_rng <= snd (fst box) /\ snd box <= snd lon_rng.

(** A place lies in the ranges of a region. *)
Definition in_region (lat_rng lon_rng : R * R) (loc : Location) : Prop :=
  fst lat_rng <= lat loc <= snd lat_rng
  /\ fst lon_rng <= lon loc <= snd lon_rng.

(** The marker of a plant and of a customer. *)
Definition plant_marker (name : string) (lat lon : R) : Location :=
  mkLocation lat lon name 20 "blue" "triangle-up" name.

Definition customer_marker (name : string) (lat lon : R) : Location :=
  mkLocation lat lon name 8 "orange" "circle" name.

End Plots.

(* ===================================================================== *)
(** ** Example tables and answers *)
(* ===================================================================== *)

Module Examples.
Import Py Gurobi Execute.
Open Scope string_scope.

(** One plant and two customers, all at the same place. *)
Definition plant_A : Plant :=
  mkPlant 1 "Plant A" 40 (-75) false true "Philadelphia".
Definition customer_X : Customer := mkCustomer 10 "Customer X" 40 (-75) 10.
Definition customer_Y : Customer := mkCustomer 11 "Customer Y" 40 (-75) 20.

Definition one_plant : list Plant := [plant_A].
Definition two_customers : list Customer := [customer_X; customer_Y].

(** Plant 1 is used and serves both customers. *)
Definition all_from_A : solution :=
  fun v =>
    match v with
    | x_var i => if (i =? 1)%Z then 1 else 0
    | y_var i j => if ((i =? 1) && ((j =? 10) || (j =? 11)))%Z then 1 else 0
    end.

Definition answer_all_from_A : SolverResult := mkSolverResult OPTIMAL all_from_A.




(** A status other than the four the program names ([TIME_LIMIT]). *)
Definition answer_time_limit : SolverResult := mkSolverResult 9 (fun _ => 0).
Definition answer_infeasible : SolverResult := mkSolverResult INFEASIBLE (fun _ => 0).
Definition answer_unbounded : SolverResult := mkSolverResult UNBOUNDED (fun _ => 0).
Definition answer_inf_or_unbd : SolverResult :=
  mkSolverResult INF_OR_UNBD (fun _ => 0).

(** A plant that must be used and cannot be used. *)
Definition plant_C : Plant := mkPlant 1 "Plant C" 40 (-75) true false "Camden".
Definition conflicting : list Plant := [plant_C].
Definition one_customer : list Customer := [customer_X].




(** A must-use plant at [(0, 0)], a free plant at [(0, 180)] and one
    customer next to the free plant. *)
Definition plant_M : Plant := mkPlant 1 "Plant M" 0 0 true true "Origin".
Definition plant_B : Plant := mkPlant 2 "Plant B" 0 180 false true "Antipode".
Definition customer_W : Customer := mkCustomer 10 "Customer W" 0 180 10.
Definition two_plants : list Plant := [plant_M; plant_B].
Definition near_B : list Customer := [customer_W].

(** Both plants are open, plant 2 serves the customer. *)
Definition serve_W_from_B : solution :=
  fun v =>
    match v with
    | x_var i => if ((i =? 1) || (i =? 2))%Z then 1 else 0
    | y_var i j => if ((i =? 2) && (j =? 10))%Z then 1 else 0
    end.

Definition answer_serve_W : SolverResult := mkSolverResult OPTIMAL serve_W_from_B.

(** The same two plants with a third one that cannot be used. *)
Definition plant_U : Plant := mkPlant 3 "Plant U" 0 90 false false "Closed".
Definition three_plants : list Plant := [plant_M; plant_B; plant_U].

(** A plant and a customer on opposite sides of the globe for which
    binary64 gives [a = 1.0000000000000002], so that [math.sqrt(1 - a)]
    raises, with the rounding that raises there and nowhere else. *)
Definition plant_P : Plant := mkPlant 1 "Plant P" 8 (-80) false true "Colon".
Definition customer_Q : Customer := mkCustomer 10 "Customer Q" (-8) 100 10.
Definition opposite_plant : list Plant := [plant_P].
Definition opposite_customer : list Customer := [customer_Q].

Definition rounds_above_one (lat1 lon1 lat2 lon2 : R) : bool :=
  Reqb lat1 8 && Reqb lon1 (-80) && Reqb lat2 (-8) && Reqb lon2 100.

End Examples.

(* ===================================================================== *)
(** * Properties *)
(* ===================================================================== *)

(** ** utils.py: great-circle distance *)

Module UtilsFacts.
Import Py Utils.
Open Scope string_scope.

Lemma calculate_distance_haversine_eq lat1 lon1 lat2 lon2 road_factor units :
  calculate_distance_haversine lat1 lon1 lat2 lon2 road_factor units =
  (fst (earth_radius units),
   snd (earth_radius units)
   * (2 * atan2 (sqrt (haversine_a (radians lat1) (radians lon1)
                                    (radians lat2) (radians lon2)))
                (sqrt (1 - haversine_a (radians lat1) (radians lon1)
                                        (radians lat2) (radians lon2))))
   * road_factor).
Proof.
  unfold calculate_distance_haversine, haversine_a.
  destruct (earth_radius units) as [printed r]. reflexivity.
Qed.

(** [cos p * cos q] lies between [- sin^2 ((q - p) / 2)] and
    [1 - sin^2 ((q - p) / 2)]. *)
Lemma cos_product_bounds (p q : R) :
  - (sin ((q - p) / 2) ^ 2) <= cos p * cos q <= 1 - sin ((q - p) / 2) ^ 2.
Proof.
  pose proof (cos_minus q p) as Hm.
  pose proof (cos_plus q p) as Hp.
  pose proof (cos_2a_sin ((q - p) / 2)) as H2.
  replace (2 * ((q - p) / 2)) with (q - p) in H2 by lra.
  pose proof (COS_bound (q + p)) as [Hlo Hhi].
  split; nra.
Qed.

(** The arguments of both square roots are never negative. *)
Lemma haversine_a_range (lat1 lon1 lat2 lon2 : R) :
  0 <= haversine_a lat1 lon1 lat2 lon2 <= 1.
Proof.
  unfold haversine_a.
  pose proof (cos_product_bounds lat1 lat2) as [Hlo Hhi].
  pose proof (SIN_bound ((lon2 - lon1) / 2)) as [Hs2lo Hs2hi].
  generalize dependent (sin ((lon2 - lon1) / 2)). intros s2 Hs2lo Hs2hi.
  pose proof (SIN_bound ((lat2 - lat1) / 2)) as [Hs1lo Hs1hi].
  generalize dependent (sin ((lat2 - lat1) / 2)). intros s1.
  generalize (cos lat1 * cos lat2). intros cc Hlo Hhi Hs1lo Hs1hi.
  assert (Hs2 : 0 <= s2 ^ 2 <= 1) by (split; nra).
  assert (Hs1 : 0 <= s1 ^ 2 <= 1) by (split; nra).
  generalize dependent (s2 ^ 2). intros q [Hq0 Hq1].
  generalize dependent (s1 ^ 2). intros p Hlo Hhi [Hp0 Hp1].
  destruct (Rle_dec 0 cc) as [Hc | Hc].
  - pose proof (Rmult_le_pos _ _ Hc Hq0).
    assert (0 <= cc * (1 - q)) by (apply Rmult_le_pos; lra).
    split; lra.
  - assert (0 <= (- cc) * q) by (apply Rmult_le_pos; lra).
    assert (0 <= (- cc) * (1 - q)) by (apply Rmult_le_pos; lra).
    split; lra.
Qed.


Lemma earth_radius_miles : earth_radius "miles" = ([], 3958.756).
Proof. reflexivity. Qed.

Lemma atan2_nonneg (y x : R) : 0 <= y -> 0 <= x -> 0 <= atan2 y x.
Proof.
  intros Hy Hx. unfold atan2.
  pose proof PI_RGT_0 as Hpi.
  destruct (Rlt_dec 0 x) as [Hx0 | Hx0].
  - assert (Hq : 0 <= y / x).
    { unfold Rdiv. apply Rmult_le_pos; [assumption |].
      left. apply Rinv_0_lt_compat. assumption. }
    destruct Hq as [Hq | Hq].
    + left. rewrite <- atan_0. apply atan_increasing. assumption.
    + rewrite <- Hq, atan_0. lra.
  - destruct (Rlt_dec x 0); [lra |].
    destruct (Rlt_dec 0 y); [lra |].
    destruct (Rlt_dec y 0); lra.
Qed.

Lemma atan2_0_1 : atan2 0 1 = 0.
Proof.
  unfold atan2. destruct (Rlt_dec 0 1); [| lra].
  replace (0 / 1) with 0 by lra. apply atan_0.
Qed.

Lemma atan2_1_0 : atan2 1 0 = PI / 2.
Proof.
  unfold atan2.
  destruct (Rlt_dec 0 0); [lra |].
  destruct (Rlt_dec 0 1); [reflexivity | lra].
Qed.

(** The distance is never negative for a non-negative road factor and any
    spelling of the units. *)
Lemma earth_radius_pos (units : string) : 0 < snd (earth_radius units).
Proof.
  unfold earth_radius.
  destruct (str_in _ _); [simpl; lra |].
  destruct (str_in _ _); simpl; lra.
Qed.

Lemma calculate_distance_haversine_nonneg lat1 lon1 lat2 lon2 road_factor units :
  0 <= road_factor ->
  0 <= snd (calculate_distance_haversine lat1 lon1 lat2 lon2 road_factor units).
Proof.
  intros Hrf. rewrite calculate_distance_haversine_eq. simpl.
  pose proof (earth_radius_pos units) as Hr.
  set (a := haversine_a _ _ _ _).
  pose proof (atan2_nonneg (sqrt a) (sqrt (1 - a)) (sqrt_pos _) (sqrt_pos _)) as Hc.
  apply Rmult_le_pos; [| assumption].
  apply Rmult_le_pos; lra.
Qed.

(** A point is at distance 0 from itself. *)
Lemma calculate_distance_haversine_same lat lon road_factor units :
  snd (calculate_distance_haversine lat lon lat lon road_factor units) = 0.
Proof.
  rewrite calculate_distance_haversine_eq. simpl.
  assert (Ha : haversine_a (radians lat) (radians lon) (radians lat) (radians lon) = 0).
  { unfold haversine_a.
    replace ((radians lat - radians lat) / 2) with 0 by lra.
    replace ((radians lon - radians lon) / 2) with 0 by lra.
    rewrite sin_0. ring. }
  rewrite Ha, sqrt_0, Rminus_0_r, sqrt_1, atan2_0_1. ring.
Qed.

(** The call with the exception kept prints what the exact one prints,
    and returns its distance unless [math.sqrt] raises. *)
Lemma calculate_distance_haversine_float_eq
    (math_domain_error : R -> R -> R -> R -> bool)
    lat1 lon1 lat2 lon2 road_factor units :
  calculate_distance_haversine_float math_domain_error lat1 lon1 lat2 lon2
    road_factor units
  = (fst (calculate_distance_haversine lat1 lon1 lat2 lon2 road_factor units),
     if math_domain_error lat1 lon1 lat2 lon2 then None
     else Some (snd (calculate_distance_haversine lat1 lon1 lat2 lon2
                       road_factor units))).
Proof.
  unfold calculate_distance_haversine_float.
  destruct (calculate_distance_haversine lat1 lon1 lat2 lon2 road_factor units).
  reflexivity.
Qed.

(** From [(0, 0)] to [(0, 180)]: half of a great circle. *)
Lemma calculate_distance_haversine_antipodal road_factor units :
  snd (calculate_distance_haversine 0 0 0 180 road_factor units)
  = snd (earth_radius units) * PI * road_factor.
Proof.
  rewrite calculate_distance_haversine_eq. simpl.
  assert (Ha : haversine_a (radians 0) (radians 0) (radians 0) (radians 180) = 1).
  { unfold haversine_a, radians.
    replace ((0 * PI / 180 - 0 * PI / 180) / 2) with 0 by lra.
    replace ((180 * PI / 180 - 0 * PI / 180) / 2) with (PI / 2) by lra.
    replace (0 * PI / 180) with 0 by lra.
    rewrite sin_0, cos_0, sin_PI2. ring. }
  rewrite Ha, sqrt_1. replace (1 - 1) with 0 by ring.
  rewrite sqrt_0, atan2_1_0. field.
Qed.

End UtilsFacts.




(** ** Lists: [unique], joins on a key, sums *)

Module ListFacts.
Import Py.

Section UniqueFacts.
Context {A : Type} (eqb : A -> A -> bool).
Hypothesis eqb_eq : forall a b, eqb a b = true <-> a = b.

Lemma existsb_eqb_In (a : A) (l : list A) :
  existsb (eqb a) l = true <-> In a l.
Proof.
  rewrite existsb_exists. split.
  - intros [b [Hin Hab]]. apply eqb_eq in Hab. subst. assumption.
  - intros Hin. exists a. split; [assumption | apply eqb_eq; reflexivity].
Qed.

Lemma In_unique_from (a : A) (seen l : list A) :
  In a (unique_from eqb seen l) <-> In a l /\ ~ In a seen.
Proof.
  revert seen. induction l as [| b l IH]; intros seen; simpl.
  - tauto.
  - destruct (existsb (eqb b) seen) eqn:E.
    + apply existsb_eqb_In in E. rewrite IH. split.
      * intros [H1 H2]. auto.
      * intros [[H1 | H1] H2]; [subst; contradiction | auto].
    + assert (Hb : ~ In b seen).
      { intros H. apply existsb_eqb_In in H. congruence. }
      simpl. rewrite IH. simpl. split.
      * intros [H | [H1 H2]]; [subst; auto |]. split; [auto | tauto].
      * intros [[H1 | H1] H2]; [auto |].
        destruct (existsb (eqb a) [b]) eqn:Eab.
        -- apply existsb_eqb_In in Eab. destruct Eab as [-> | []]. auto.
        -- right. split; [assumption |]. intros [-> | H]; [| contradiction].
           assert (In a [a]) as Hin by (left; reflexivity).
           apply existsb_eqb_In in Hin. congruence.
Qed.

Lemma In_unique (a : A) (l : list A) : In a (unique eqb l) <-> In a l.
Proof. unfold unique. rewrite In_unique_from. simpl. tauto. Qed.

Lemma NoDup_unique_from (seen l : list A) : NoDup (unique_from eqb seen l).
Proof.
  revert seen. induction l as [| b l IH]; intros seen; simpl.
  - constructor.
  - destruct (existsb (eqb b) seen); [apply IH |].
    constructor; [| apply IH].
    rewrite In_unique_from. simpl. tauto.
Qed.

Lemma NoDup_unique (l : list A) : NoDup (unique eqb l).
Proof. apply NoDup_unique_from. Qed.

Lemma unique_from_NoDup (seen l : list A) :
  NoDup l -> (forall a, In a l -> ~ In a seen) -> unique_from eqb seen l = l.
Proof.
  revert seen. induction l as [| b l IH]; intros seen Hnd Hseen; simpl.
  - reflexivity.
  - inversion Hnd as [| ? ? Hb Hl]; subst.
    destruct (existsb (eqb b) seen) eqn:E.
    + apply existsb_eqb_In in E. exfalso. apply (Hseen b); simpl; auto.
    + f_equal. apply IH; [assumption |].
      intros a Ha [<- | Hs]; [contradiction |].
      apply (Hseen a); simpl; auto.
Qed.

Lemma unique_NoDup (l : list A) : NoDup l -> unique eqb l = l.
Proof. intros H. apply unique_from_NoDup; [assumption | intros a _ []]. Qed.

End UniqueFacts.

Lemma filter_none {A : Type} (f : A -> bool) (l : list A) :
  (forall a, In a l -> f a = false) -> filter f l = [].
Proof.
  induction l as [| b l IH]; intros H; simpl; [reflexivity |].
  rewrite (H b) by (left; reflexivity). apply IH. intros a Ha. apply H. right. assumption.
Qed.

(** A join on a key that identifies its row: exactly that row matches. *)
Lemma filter_key_single {A : Type} (key : A -> Z) (l : list A) (a : A) :
  NoDup (map key l) -> In a l ->
  filter (fun b => (key b =? key a)%Z) l = [a].
Proof.
  induction l as [| b l IH]; intros Hnd Hin; simpl in *.
  - contradiction.
  - inversion Hnd as [| ? ? Hb Hl]; subst.
    destruct Hin as [-> | Hin].
    + rewrite Z.eqb_refl. f_equal. apply filter_none.
      intros c Hc. apply Z.eqb_neq. intros E. apply Hb. rewrite <- E.
      apply in_map. assumption.
    + destruct (key b =? key a)%Z eqn:E.
      * apply Z.eqb_eq in E. exfalso. apply Hb. rewrite E. apply in_map. assumption.
      * apply IH; assumption.
Qed.

Lemma flat_map_single {A B : Type} (f : A -> list B) (g : A -> B) (l : list A) :
  (forall a, In a l -> f a = [g a]) -> flat_map f l = map g l.
Proof.
  induction l as [| a l IH]; intros H; simpl; [reflexivity |].
  rewrite (H a) by (left; reflexivity). simpl. f_equal.
  apply IH. intros b Hb. apply H. right. assumption.
Qed.

Lemma filter_map_comm {A B : Type} (f : A -> B) (p : B -> bool) (l : list A) :
  filter p (map f l) = map f (filter (fun a => p (f a)) l).
Proof.
  induction l as [| a l IH]; simpl; [reflexivity |].
  destruct (p (f a)); simpl; rewrite IH; reflexivity.
Qed.

Lemma filter_filter {A : Type} (p q : A -> bool) (l : list A) :
  filter p (filter q l) = filter (fun a => q a && p a) l.
Proof.
  induction l as [| a l IH]; simpl; [reflexivity |].
  destruct (q a); simpl; [destruct (p a); simpl |]; rewrite IH; reflexivity.
Qed.

Lemma filter_flat_map {A B : Type} (f : A -> list B) (p : B -> bool) (l : list A) :
  filter p (flat_map f l) = flat_map (fun a => filter p (f a)) l.
Proof.
  induction l as [| a l IH]; simpl; [reflexivity |].
  rewrite filter_app, IH. reflexivity.
Qed.

(** Sums of columns. *)
Lemma Rsum_app (l1 l2 : list R) : Rsum (l1 ++ l2) = Rsum l1 + Rsum l2.
Proof.
  induction l1 as [| a l1 IH]; simpl; [lra | rewrite IH; lra].
Qed.

Lemma Rsum_map_ext {A : Type} (f g : A -> R) (l : list A) :
  (forall a, In a l -> f a = g a) -> Rsum (map f l) = Rsum (map g l).
Proof.
  induction l as [| a l IH]; intros H; simpl; [reflexivity |].
  rewrite (H a) by (left; reflexivity). f_equal.
  apply IH. intros b Hb. apply H. right. assumption.
Qed.

Lemma Rsum_map_plus {A : Type} (f g : A -> R) (l : list A) :
  Rsum (map (fun a => f a + g a) l) = Rsum (map f l) + Rsum (map g l).
Proof.
  induction l as [| a l IH]; simpl; [lra | rewrite IH; lra].
Qed.

Lemma Rsum_map_scale {A : Type} (k : R) (f : A -> R) (l : list A) :
  Rsum (map (fun a => k * f a) l) = k * Rsum (map f l).
Proof.
  induction l as [| a l IH]; simpl; [lra | rewrite IH; lra].
Qed.

Lemma Rsum_map_zero {A : Type} (l : list A) : Rsum (map (fun _ => 0) l) = 0.
Proof. induction l as [| a l IH]; simpl; [reflexivity | rewrite IH; lra]. Qed.

Lemma Rsum_flat_map {A B : Type} (f : A -> list B) (g : B -> R) (l : list A) :
  Rsum (map g (flat_map f l)) = Rsum (map (fun a => Rsum (map g (f a))) l).
Proof.
  induction l as [| a l IH]; simpl; [reflexivity |].
  rewrite map_app, Rsum_app, IH. reflexivity.
Qed.

(** Exchange of the two sums of a double sum. *)
Lemma Rsum_swap {A B : Type} (f : A -> B -> R) (la : list A) (lb : list B) :
  Rsum (map (fun a => Rsum (map (fun b => f a b) lb)) la)
  = Rsum (map (fun b => Rsum (map (fun a => f a b) la)) lb).
Proof.
  induction la as [| a la IH]; simpl.
  - rewrite Rsum_map_zero. reflexivity.
  - rewrite IH, <- Rsum_map_plus. reflexivity.
Qed.




End ListFacts.

(** ** execute.py: the data that is set up *)

Module SetupFacts.
Import Py Gurobi Execute ListFacts.

Lemma Z_eqb_iff (a b : Z) : (a =? b)%Z = true <-> a = b.
Proof. apply Z.eqb_eq. Qed.

Lemma In_plnt (plant_df : list Plant) (i : Z) :
  In i (plnt plant_df) <-> exists p, In p plant_df /\ Plant_ID p = i.
Proof.
  unfold plnt. rewrite (In_unique Z.eqb Z_eqb_iff), in_map_iff.
  split; intros [p [H1 H2]]; exists p; auto.
Qed.

Lemma In_cust (cust_df : list Customer) (j : Z) :
  In j (cust cust_df) <-> exists c, In c cust_df /\ Customer_ID c = j.
Proof.
  unfold cust. rewrite (In_unique Z.eqb Z_eqb_iff), in_map_iff.
  split; intros [c [H1 H2]]; exists c; auto.
Qed.

Lemma NoDup_plnt (plant_df : list Plant) : NoDup (plnt plant_df).
Proof. apply (NoDup_unique Z.eqb Z_eqb_iff). Qed.

Lemma NoDup_cust (cust_df : list Customer) : NoDup (cust cust_df).
Proof. apply (NoDup_unique Z.eqb Z_eqb_iff). Qed.

Lemma plnt_unique_ids (plant_df : list Plant) :
  NoDup (map Plant_ID plant_df) -> plnt plant_df = map Plant_ID plant_df.
Proof. apply (unique_NoDup Z.eqb Z_eqb_iff). Qed.

Lemma cust_unique_ids (cust_df : list Customer) :
  NoDup (map Customer_ID cust_df) -> cust cust_df = map Customer_ID cust_df.
Proof. apply (unique_NoDup Z.eqb Z_eqb_iff). Qed.

Lemma In_row_pairs plant_df cust_df (p : Plant) (c : Customer) :
  In (p, c) (row_pairs plant_df cust_df) <-> In p plant_df /\ In c cust_df.
Proof.
  unfold row_pairs. rewrite in_flat_map. split.
  - intros [p' [Hp Hc]]. apply in_map_iff in Hc.
    destruct Hc as [c' [E Hc]]. inversion E; subst. auto.
  - intros [Hp Hc]. exists p. split; [assumption |].
    apply in_map_iff. exists c. auto.
Qed.

Lemma In_ij_set (ps cs : list Z) (i j : Z) :
  In (i, j) (ij_set ps cs) <-> In i ps /\ In j cs.
Proof.
  unfold ij_set. rewrite in_flat_map. split.
  - intros [i' [Hi Hj]]. apply in_map_iff in Hj.
    destruct Hj as [j' [E Hj]]. inversion E; subst. auto.
  - intros [Hi Hj]. exists i. split; [assumption |].
    apply in_map_iff. exists j. auto.
Qed.

Lemma ij_set_row_pairs plant_df cust_df :
  ij_set (map Plant_ID plant_df) (map Customer_ID cust_df)
  = map (fun pc => (Plant_ID (fst pc), Customer_ID (snd pc)))
        (row_pairs plant_df cust_df).
Proof.
  unfold ij_set, row_pairs.
  induction plant_df as [| p l IH]; simpl; [reflexivity |].
  rewrite map_app, IH, !map_map. reflexivity.
Qed.

Lemma NoDup_ij_set (ps cs : list Z) :
  NoDup ps -> NoDup cs -> NoDup (ij_set ps cs).
Proof.
  intros Hp Hc. unfold ij_set.
  induction Hp as [| i ps Hi Hps IH]; simpl; [constructor |].
  apply NoDup_app.
  - apply Injective_map_NoDup; [| assumption].
    intros a b E. inversion E. reflexivity.
  - exact IH.
  - intros k Hk1 Hk2. apply in_map_iff in Hk1. destruct Hk1 as [j [<- Hj]].
    change (In (i, j) (ij_set ps cs)) in Hk2. apply In_ij_set in Hk2. tauto.
Qed.

Lemma setup_dist_row_pairs cost_per_mile min_cost plant_df cust_df :
  setup_dist cost_per_mile min_cost plant_df cust_df
  = map (dist_entry cost_per_mile min_cost) (row_pairs plant_df cust_df).
Proof.
  unfold setup_dist, add_cost, get_distance, row_pairs.
  induction plant_df as [| p l IH]; simpl; [reflexivity |].
  rewrite !map_app, IH, !map_map. reflexivity.
Qed.



End SetupFacts.

(** ** execute.py: the model that is built *)

Module ModelFacts.
Import Py Gurobi Execute ListFacts SetupFacts.

Lemma mapM_total {A B : Type} (f : A -> res B) (l : list A) :
  (forall a, In a l -> exists b, f a = Ok b) -> exists bs, mapM f l = Ok bs.
Proof.
  induction l as [| a l IH]; intros H; simpl.
  - exists []. reflexivity.
  - destruct (H a (or_introl eq_refl)) as [b Hb].
    destruct IH as [bs Hbs]; [intros a' Ha'; apply H; right; assumption |].
    exists (b :: bs). rewrite Hb, Hbs. reflexivity.
Qed.

Lemma mapM_map_ok {A B C : Type} (f : B -> res C) (h : A -> B) (g : A -> C)
    (l : list A) :
  (forall a, In a l -> f (h a) = Ok (g a)) -> mapM f (map h l) = Ok (map g l).
Proof.
  induction l as [| a l IH]; intros H; simpl; [reflexivity |].
  rewrite (H a (or_introl eq_refl)). simpl.
  rewrite IH by (intros a' Ha'; apply H; right; assumption). reflexivity.
Qed.

Lemma mapM_raise {A B : Type} (f : A -> res B) (e : exn) (l : list A) :
  (forall a e', f a = Raise e' -> e' = e) ->
  (exists a, In a l /\ f a = Raise e) ->
  mapM f l = Raise e.
Proof.
  intros Honly. induction l as [| a l IH]; intros [b [Hb Hfb]]; simpl in *.
  - contradiction.
  - destruct (f a) as [v | e'] eqn:E; simpl.
    + destruct Hb as [-> | Hb]; [congruence |].
      rewrite IH by (exists b; auto). reflexivity.
    + rewrite (Honly a e' E). reflexivity.
Qed.

Lemma mapM_ok {A B : Type} (f : A -> res B) (g : A -> B) (l : list A) :
  (forall a, In a l -> f a = Ok (g a)) -> mapM f l = Ok (map g l).
Proof.
  induction l as [| a l IH]; intros H; simpl; [reflexivity |].
  rewrite (H a (or_introl eq_refl)). simpl.
  rewrite IH by (intros a' Ha'; apply H; right; assumption). reflexivity.
Qed.

Lemma mapM_inv {A B : Type} (f : A -> res B) (l : list A) (bs : list B) :
  mapM f l = Ok bs -> forall a, In a l -> exists b, f a = Ok b.
Proof.
  revert bs. induction l as [| a l IH]; intros bs H x Hx; [contradiction |].
  simpl in H. destruct (f a) as [b | e] eqn:E; simpl in H; [| discriminate H].
  destruct (mapM f l) as [bs' | e] eqn:E'; simpl in H; [| discriminate H].
  destruct Hx as [<- | Hx]; [exists b; exact E | apply (IH bs' eq_refl x Hx)].
Qed.

(** Among rows told apart by a key, a test that only rows with the key
    of [a] pass selects [a] alone. *)
Lemma filter_injective_key {A B : Type} (key : A -> B) (f : A -> bool)
    (l : list A) (a : A) :
  NoDup (map key l) -> In a l -> f a = true ->
  (forall b, In b l -> f b = true -> key b = key a) ->
  filter f l = [a].
Proof.
  induction l as [| b l IH]; intros Hnd Hin Hf Hkey; [contradiction |].
  simpl in Hnd. inversion Hnd as [| ? ? Hb Hl]; subst.
  simpl. destruct Hin as [-> | Hin].
  - rewrite Hf. f_equal. apply filter_none. intros c Hc.
    destruct (f c) eqn:Ec; [| reflexivity].
    exfalso. apply Hb. rewrite <- (Hkey c (or_intror Hc) Ec).
    apply in_map. assumption.
  - destruct (f b) eqn:Eb.
    + exfalso. apply Hb. rewrite (Hkey b (or_introl eq_refl) Eb).
      apply in_map. assumption.
    + apply IH; [assumption .. |].
      intros c Hc Ec. apply Hkey; [right; assumption | assumption].
Qed.

(** Rows of a table with unique identifiers are told apart by them. *)
Lemma key_injective {A : Type} (key : A -> Z) (l : list A) (a b : A) :
  NoDup (map key l) -> In a l -> In b l -> key a = key b -> a = b.
Proof.
  induction l as [| c l IH]; simpl; intros Hnd Ha Hb E; [contradiction |].
  inversion Hnd as [| ? ? Hc Hl]; subst.
  destruct Ha as [-> | Ha], Hb as [-> | Hb].
  - reflexivity.
  - exfalso. apply Hc. rewrite E. apply in_map. assumption.
  - exfalso. apply Hc. rewrite <- E. apply in_map. assumption.
  - apply IH; assumption.
Qed.

Section Model.
Variable max_plants : Z.
Variables cost_per_mile min_cost : R.
Variables (plant_df : list Plant) (cust_df : list Customer).

Let dist := setup_dist cost_per_mile min_cost plant_df cust_df.

Lemma In_setup_dist (r : DistCostRow) :
  In r dist <->
  exists p c, In p plant_df /\ In c cust_df
              /\ r = dist_entry cost_per_mile min_cost (p, c).
Proof.
  unfold dist. rewrite setup_dist_row_pairs, in_map_iff. split.
  - intros [[p c] [E H]]. apply In_row_pairs in H. exists p, c.
    destruct H. auto.
  - intros [p [c [Hp [Hc E]]]]. exists (p, c). split; [auto |].
    apply In_row_pairs. auto.
Qed.

Lemma build_model_inv (mdl : Model) :
  build_model max_plants cost_per_mile min_cost plant_df cust_df = Ok mdl ->
  total_weighted_dist dist cust_df (ij_set (plnt plant_df) (cust cust_df))
  = Ok (Objective mdl)
  /\ Vars mdl
     = (map x_var (plnt plant_df)
        ++ map (fun k => y_var (fst k) (snd k))
               (y_keys (plnt plant_df) (cust cust_df)))%list
  /\ Constrs mdl
     = (cust_coverage (y_keys (plnt plant_df) (cust cust_df)) (cust cust_df)
        ++ [max_num_plants max_plants (plnt plant_df)]
        ++ rel_x_y (ij_set (plnt plant_df) (cust cust_df))
        ++ must_use (must_use_plants plant_df)
        ++ cant_use (unavailable_plants plant_df))%list
  /\ ModelSense mdl = MINIMIZE.
Proof.
  unfold build_model. fold dist.
  destruct (total_weighted_dist dist cust_df _) as [e | e]; simpl; [| discriminate].
  intros E. inversion E; subst; simpl. auto.
Qed.

(** With unique identifiers every key of [ij_set] is the key of one row
    of each table, so the lookups of the objective return rows. *)
Hypothesis Hids : unique_ids plant_df cust_df.

Lemma NoDup_dist_index : NoDup (map dist_index dist).
Proof.
  unfold dist. rewrite setup_dist_row_pairs, map_map.
  change (map (fun x => dist_index (dist_entry cost_per_mile min_cost x))
              (row_pairs plant_df cust_df))
    with (map (fun pc => (Plant_ID (fst pc), Customer_ID (snd pc)))
              (row_pairs plant_df cust_df)).
  rewrite <- ij_set_row_pairs. destruct Hids. apply NoDup_ij_set; assumption.
Qed.

Lemma dist_loc_unique (p : Plant) (c : Customer) :
  In p plant_df -> In c cust_df ->
  dist_loc dist (Plant_ID p) (Customer_ID c)
  = Ok (Row (dist_entry cost_per_mile min_cost (p, c))).
Proof.
  intros Hp Hc. unfold dist_loc, loc.
  rewrite (filter_injective_key dist_index _ dist
             (dist_entry cost_per_mile min_cost (p, c)));
    [reflexivity | | | |].
  - apply NoDup_dist_index.
  - apply In_setup_dist. exists p, c. auto.
  - simpl. rewrite !Z.eqb_refl. reflexivity.
  - intros b Hb Hf. apply andb_true_iff in Hf. destruct Hf as [E1 E2].
    apply Z.eqb_eq in E1, E2. destruct b as [[bp bc bd] bcost].
    unfold dist_index in *. simpl in *. rewrite E1, E2. reflexivity.
Qed.

Lemma dmd_loc_unique (c : Customer) :
  In c cust_df -> dmd_loc cust_df (Customer_ID c) = Ok (Row c).
Proof.
  intros Hc. unfold dmd_loc, loc.
  rewrite (filter_key_single Customer_ID cust_df c (proj2 Hids) Hc).
  reflexivity.
Qed.

Lemma ij_set_unique :
  ij_set (plnt plant_df) (cust cust_df)
  = map (fun pc => (Plant_ID (fst pc), Customer_ID (snd pc)))
        (row_pairs plant_df cust_df).
Proof.
  destruct Hids as [Hnp Hnc].
  rewrite (plnt_unique_ids _ Hnp), (cust_unique_ids _ Hnc).
  apply ij_set_row_pairs.
Qed.

(** The expression [total_weighted_dist]: one term
    [Distance * Demand * y[i, j]] for each pair of rows. *)
Lemma total_weighted_dist_unique :
  total_weighted_dist dist cust_df (ij_set (plnt plant_df) (cust cust_df))
  = Ok (quicksum
          (map (fun pc => (row_distance (fst pc) (snd pc) * Demand (snd pc),
                           y_var (Plant_ID (fst pc)) (Customer_ID (snd pc))))
               (row_pairs plant_df cust_df))).
Proof.
  unfold total_weighted_dist. rewrite ij_set_unique.
  rewrite (mapM_map_ok (weighted_term dist cust_df) _
             (fun pc => (row_distance (fst pc) (snd pc) * Demand (snd pc),
                         y_var (Plant_ID (fst pc)) (Customer_ID (snd pc))))).
  - reflexivity.
  - intros [p c] Hpc. apply In_row_pairs in Hpc. destruct Hpc as [Hp Hc].
    unfold weighted_term. simpl.
    rewrite (dist_loc_unique p c Hp Hc). simpl.
    rewrite (dmd_loc_unique c Hc). reflexivity.
Qed.

(** With unique identifiers the model is built: [build_model] raises
    nothing. *)
Lemma build_model_ok :
  exists mdl,
    build_model max_plants cost_per_mile min_cost plant_df cust_df = Ok mdl.
Proof.
  unfold build_model. fold dist.
  rewrite total_weighted_dist_unique. simpl.
  eexists. reflexivity.
Qed.

End Model.

End ModelFacts.

(** ** What a feasible solution of the model satisfies *)

Module FeasibleFacts.
Import Py Gurobi Execute ListFacts SetupFacts ModelFacts.

Lemma getValue_of_var (v : Var) (sol : solution) : getValue (of_var v) sol = sol v.
Proof. unfold getValue, of_var. simpl. lra. Qed.

Lemma getValue_of_const (k : R) (sol : solution) : getValue (of_const k) sol = k.
Proof. unfold getValue, of_const. simpl. lra. Qed.

Lemma getValue_quicksum_ones {A : Type} (v : A -> Var) (l : list A) (sol : solution) :
  getValue (quicksum (map (fun a => (1, v a)) l)) sol
  = Rsum (map (fun a => sol (v a)) l).
Proof.
  unfold getValue, quicksum. simpl. rewrite map_map. simpl.
  rewrite Rplus_0_r. apply Rsum_map_ext. intros a _. lra.
Qed.

Lemma getValue_quicksum {A : Type} (coef : A -> R) (v : A -> Var) (l : list A)
    (sol : solution) :
  getValue (quicksum (map (fun a => (coef a, v a)) l)) sol
  = Rsum (map (fun a => coef a * sol (v a)) l).
Proof.
  unfold getValue, quicksum. simpl. rewrite map_map. simpl. lra.
Qed.

(** The keys of [y] whose customer is [j]: one per plant. *)
Lemma y_keys_of_customer (ps cs : list Z) (j : Z) :
  NoDup cs -> In j cs ->
  filter (fun k => (snd k =? j)%Z) (y_keys ps cs) = map (fun i => (i, j)) ps.
Proof.
  intros Hnd Hj. unfold y_keys. rewrite filter_flat_map.
  apply flat_map_single. intros i _.
  rewrite filter_map_comm. simpl.
  rewrite (filter_key_single (fun z => z) cs j); [reflexivity | | assumption].
  rewrite map_id. assumption.
Qed.

Lemma y_sum_star_eq (ps cs : list Z) (j : Z) :
  NoDup cs -> In j cs ->
  y_sum_star (y_keys ps cs) j = quicksum (map (fun i => (1, y_var i j)) ps).
Proof.
  intros Hnd Hj. unfold y_sum_star.
  rewrite (y_keys_of_customer ps cs j Hnd Hj), map_map. reflexivity.
Qed.

Lemma In_y_keys (ps cs : list Z) (i j : Z) :
  In (i, j) (y_keys ps cs) <-> In i ps /\ In j cs.
Proof. apply In_ij_set. Qed.

Section Feasible.
Variable max_plants : Z.
Variables cost_per_mile min_cost : R.
Variables (plant_df : list Plant) (cust_df : list Customer).
Variable mdl : Model.
Variable sol : solution.
Hypothesis Hbuild :
  build_model max_plants cost_per_mile min_cost plant_df cust_df = Ok mdl.
Hypothesis Hfeas : feasible mdl sol.

Let ps := plnt plant_df.
Let cs := cust cust_df.

Lemma constrs_eq :
  Constrs mdl
  = (cust_coverage (y_keys ps cs) cs
     ++ [max_num_plants max_plants ps]
     ++ rel_x_y (ij_set ps cs)
     ++ must_use (must_use_plants plant_df)
     ++ cant_use (unavailable_plants plant_df))%list.
Proof. apply (build_model_inv _ _ _ _ _ _ Hbuild). Qed.

Lemma In_cust_coverage (j : Z) :
  In j cs ->
  In (mkConstr "cust_coverage" [j]
        (mkTempConstr (quicksum (map (fun i => (1, y_var i j)) ps)) EQUAL
                      (of_const 1)))
     (Constrs mdl).
Proof.
  intros Hj. rewrite constrs_eq. apply in_or_app. left.
  unfold cust_coverage. apply in_map_iff. exists j. split; [| assumption].
  rewrite (y_sum_star_eq ps cs j (NoDup_cust cust_df) Hj). reflexivity.
Qed.

Lemma In_max_num_plants :
  In (max_num_plants max_plants ps) (Constrs mdl).
Proof.
  rewrite constrs_eq. apply in_or_app. right. apply in_or_app. left.
  left. reflexivity.
Qed.

Lemma In_rel_x_y (i j : Z) :
  In i ps -> In j cs ->
  In (mkConstr "rel_x_y" [i; j]
        (mkTempConstr (of_var (y_var i j)) LESS_EQUAL (of_var (x_var i))))
     (Constrs mdl).
Proof.
  intros Hi Hj. rewrite constrs_eq.
  apply in_or_app. right. apply in_or_app. right. apply in_or_app. left.
  unfold rel_x_y. apply in_map_iff. exists (i, j). split; [reflexivity |].
  apply In_ij_set. auto.
Qed.

Lemma In_must_use (p : Plant) :
  In p plant_df -> Must_Use p = true ->
  In (mkConstr "must_use" [Plant_ID p]
        (mkTempConstr (of_var (x_var (Plant_ID p))) EQUAL (of_const 1)))
     (Constrs mdl).
Proof.
  intros Hp Hm. rewrite constrs_eq.
  do 3 (apply in_or_app; right). apply in_or_app. left.
  unfold must_use, must_use_plants. rewrite map_map.
  apply in_map_iff. exists p. split; [reflexivity |].
  apply filter_In. auto.
Qed.

Lemma In_cant_use (p : Plant) :
  In p plant_df -> Can_Use p = false ->
  In (mkConstr "cant_use" [Plant_ID p]
        (mkTempConstr (of_var (x_var (Plant_ID p))) EQUAL (of_const 0)))
     (Constrs mdl).
Proof.
  intros Hp Hc. rewrite constrs_eq.
  do 4 (apply in_or_app; right).
  unfold cant_use, unavailable_plants. rewrite map_map.
  apply in_map_iff. exists p. split; [reflexivity |].
  apply filter_In. rewrite Hc. auto.
Qed.

Lemma feasible_binary_x (i : Z) : In i ps -> binary sol (x_var i).
Proof.
  intros Hi. apply (proj1 Hfeas).
  rewrite (proj1 (proj2 (build_model_inv _ _ _ _ _ _ Hbuild))).
  apply in_or_app. left. apply in_map. assumption.
Qed.

Lemma feasible_binary_y (i j : Z) : In i ps -> In j cs -> binary sol (y_var i j).
Proof.
  intros Hi Hj. apply (proj1 Hfeas).
  rewrite (proj1 (proj2 (build_model_inv _ _ _ _ _ _ Hbuild))).
  apply in_or_app. right. apply in_map_iff. exists (i, j).
  split; [reflexivity | apply In_y_keys; auto].
Qed.

Lemma feasible_coverage (j : Z) :
  In j cs -> Rsum (map (fun i => sol (y_var i j)) ps) = 1.
Proof.
  intros Hj. pose proof (proj2 Hfeas _ (In_cust_coverage j Hj)) as H.
  unfold holds in H. simpl in H.
  rewrite getValue_quicksum_ones, getValue_of_const in H. exact H.
Qed.

Lemma feasible_cap : Rsum (map (fun i => sol (x_var i)) ps) <= IZR max_plants.
Proof.
  pose proof (proj2 Hfeas _ In_max_num_plants) as H.
  unfold holds, max_num_plants, x_sum in H. simpl in H.
  rewrite getValue_quicksum_ones, getValue_of_const in H. exact H.
Qed.

Lemma feasible_linking (i j : Z) :
  In i ps -> In j cs -> sol (y_var i j) <= sol (x_var i).
Proof.
  intros Hi Hj. pose proof (proj2 Hfeas _ (In_rel_x_y i j Hi Hj)) as H.
  unfold holds in H. simpl in H. rewrite !getValue_of_var in H. exact H.
Qed.

Lemma feasible_must_use (p : Plant) :
  In p plant_df -> Must_Use p = true -> sol (x_var (Plant_ID p)) = 1.
Proof.
  intros Hp Hm. pose proof (proj2 Hfeas _ (In_must_use p Hp Hm)) as H.
  unfold holds in H. simpl in H.
  rewrite getValue_of_var, getValue_of_const in H. exact H.
Qed.

Lemma feasible_cant_use (p : Plant) :
  In p plant_df -> Can_Use p = false -> sol (x_var (Plant_ID p)) = 0.
Proof.
  intros Hp Hc. pose proof (proj2 Hfeas _ (In_cant_use p Hp Hc)) as H.
  unfold holds in H. simpl in H.
  rewrite getValue_of_var, getValue_of_const in H. exact H.
Qed.

End Feasible.

End FeasibleFacts.

(** ** execute.py: the post-processing of a solution *)

Module OutputFacts.
Import Py Gurobi Execute ListFacts SetupFacts ModelFacts FeasibleFacts.

Lemma Reqb_eq (a b : R) : Reqb a b = true <-> a = b.
Proof.
  unfold Reqb. destruct (Req_dec_T a b); split; auto; discriminate.
Qed.

Lemma Lane_eqb_eq (a b : Lane) : Lane_eqb a b = true <-> a = b.
Proof.
  split.
  - unfold Lane_eqb. intros H.
    repeat (apply andb_true_iff in H; destruct H as [H ?]).
    destruct a, b; simpl in *.
    repeat match goal with
           | E : String.eqb _ _ = true |- _ => apply String.eqb_eq in E
           | E : Reqb _ _ = true |- _ => apply Reqb_eq in E
           | E : (_ =? _)%Z = true |- _ => apply Z.eqb_eq in E
           end.
    subst. reflexivity.
  - intros <-. unfold Lane_eqb.
    rewrite !String.eqb_refl, !Z.eqb_refl.
    repeat match goal with
           | |- context [Reqb ?x ?x] =>
               rewrite (proj2 (Reqb_eq x x) eq_refl)
           end.
    reflexivity.
Qed.

(** The threshold 0.5 on a binary value. *)
Lemma Rltb_half_one : Rltb 0.5 1 = true.
Proof. unfold Rltb. destruct (Rlt_dec 0.5 1); [reflexivity | lra]. Qed.

Lemma Rltb_half_zero : Rltb 0.5 0 = false.
Proof. unfold Rltb. destruct (Rlt_dec 0.5 0); [lra | reflexivity]. Qed.

Lemma Rltb_half_true (v : R) : Rltb 0.5 v = true <-> 0.5 < v.
Proof. unfold Rltb. destruct (Rlt_dec 0.5 v); split; auto; discriminate. Qed.

Lemma count_binary {A : Type} (v : A -> R) (l : list A) :
  (forall a, In a l -> v a = 0 \/ v a = 1) ->
  INR (List.length (filter (fun a => Rltb 0.5 (v a)) l)) = Rsum (map v l).
Proof.
  induction l as [| a l IH]; intros H; simpl; [reflexivity |].
  assert (IH' := IH (fun b Hb => H b (or_intror Hb))).
  destruct (H a (or_introl eq_refl)) as [E | E]; rewrite E.
  - rewrite Rltb_half_zero, IH'. lra.
  - rewrite Rltb_half_one. simpl List.length. rewrite S_INR, IH'. lra.
Qed.

Lemma sum_filter_binary {A : Type} (v g : A -> R) (l : list A) :
  (forall a, In a l -> v a = 0 \/ v a = 1) ->
  Rsum (map g (filter (fun a => Rltb 0.5 (v a)) l))
  = Rsum (map (fun a => g a * v a) l).
Proof.
  induction l as [| a l IH]; intros H; simpl; [reflexivity |].
  assert (IH' := IH (fun b Hb => H b (or_intror Hb))).
  destruct (H a (or_introl eq_refl)) as [E | E]; rewrite E.
  - rewrite Rltb_half_zero, IH'. lra.
  - rewrite Rltb_half_one. simpl. rewrite IH'. lra.
Qed.

Lemma flat_map_map_single {A B C : Type} (f : B -> list C) (h : A -> B)
    (g : A -> C) (l : list A) :
  (forall a, In a l -> f (h a) = [g a]) -> flat_map f (map h l) = map g l.
Proof.
  induction l as [| a l IH]; intros H; simpl; [reflexivity |].
  rewrite (H a (or_introl eq_refl)). simpl. f_equal.
  apply IH. intros b Hb. apply H. right. assumption.
Qed.

Section Output.
Variables (plant_df : list Plant) (cust_df : list Customer).
Variable sol : solution.
Hypothesis Hids : unique_ids plant_df cust_df.

Let ps := plnt plant_df.
Let cs := cust cust_df.
Let pair_key (pc : Plant * Customer) : Z * Z :=
  (Plant_ID (fst pc), Customer_ID (snd pc)).

Lemma In_served_pairs (pc : Plant * Customer) :
  In pc (served_pairs plant_df cust_df sol) <->
  In (fst pc) plant_df /\ In (snd pc) cust_df /\ served sol pc = true.
Proof.
  unfold served_pairs. rewrite filter_In. destruct pc as [p c].
  rewrite In_row_pairs. simpl. tauto.
Qed.

Lemma pair_key_injective (a b : Plant * Customer) :
  In a (row_pairs plant_df cust_df) -> In b (row_pairs plant_df cust_df) ->
  pair_key a = pair_key b -> a = b.
Proof.
  destruct a as [p c], b as [p' c']. rewrite !In_row_pairs.
  intros [Hp Hc] [Hp' Hc'] E. unfold pair_key in E. simpl in E.
  inversion E as [[E1 E2]]. destruct Hids as [Hnp Hnc].
  f_equal.
  - apply (key_injective Plant_ID plant_df); assumption.
  - apply (key_injective Customer_ID cust_df); assumption.
Qed.

(** The keys with a value above 0.5 are those of the served pairs. *)
Lemma assigned_list_served :
  assigned_list (y_keys ps cs) sol
  = map pair_key (served_pairs plant_df cust_df sol).
Proof.
  unfold assigned_list, served_pairs, ps, cs.
  destruct Hids as [Hnp Hnc].
  rewrite (plnt_unique_ids _ Hnp), (cust_unique_ids _ Hnc).
  change (y_keys (map Plant_ID plant_df) (map Customer_ID cust_df))
    with (ij_set (map Plant_ID plant_df) (map Customer_ID cust_df)).
  rewrite ij_set_row_pairs, filter_map_comm. reflexivity.
Qed.

Lemma merge_demand_served :
  merge_demand (assigned_list (y_keys ps cs) sol) cust_df
  = map (fun pc => (pair_key pc, Demand (snd pc)))
        (served_pairs plant_df cust_df sol).
Proof.
  rewrite assigned_list_served. unfold merge_demand.
  apply flat_map_map_single. intros [p c] Hpc.
  apply In_served_pairs in Hpc. simpl in *.
  rewrite (filter_key_single Customer_ID cust_df c); [reflexivity | | tauto].
  apply Hids.
Qed.

(** The lane table before [drop_duplicates()]. *)
Lemma lanes_joined_served :
  lanes_with_plant
    (lanes_with_customer
       (merge_demand (assigned_list (y_keys ps cs) sol) cust_df) cust_df)
    plant_df
  = map lane_of (served_pairs plant_df cust_df sol).
Proof.
  rewrite merge_demand_served.
  assert (H1 : lanes_with_customer
                 (map (fun pc => (pair_key pc, Demand (snd pc)))
                      (served_pairs plant_df cust_df sol)) cust_df
               = map (fun pc => (pair_key pc, Demand (snd pc),
                                 (str (Plant_ID (fst pc)) ++ "-"
                                    ++ str (Customer_ID (snd pc)))%string,
                                 snd pc))
                     (served_pairs plant_df cust_df sol)).
  { unfold lanes_with_customer. apply flat_map_map_single.
    intros [p c] Hpc. apply In_served_pairs in Hpc. simpl in *.
    rewrite (filter_key_single Customer_ID cust_df c); [reflexivity | | tauto].
    apply Hids. }
  rewrite H1. unfold lanes_with_plant. apply flat_map_map_single.
  intros [p c] Hpc. apply In_served_pairs in Hpc. simpl in *.
  rewrite (filter_key_single Plant_ID plant_df p); [reflexivity | | tauto].
  apply Hids.
Qed.

Lemma NoDup_served_pairs : NoDup (served_pairs plant_df cust_df sol).
Proof.
  unfold served_pairs. apply NoDup_filter.
  apply (NoDup_map_inv pair_key).
  change (map pair_key (row_pairs plant_df cust_df))
    with (map (fun pc => (Plant_ID (fst pc), Customer_ID (snd pc)))
              (row_pairs plant_df cust_df)).
  rewrite <- ij_set_row_pairs. destruct Hids. apply NoDup_ij_set; assumption.
Qed.

Lemma lane_of_injective (a b : Plant * Customer) :
  In a (row_pairs plant_df cust_df) -> In b (row_pairs plant_df cust_df) ->
  lane_of a = lane_of b -> a = b.
Proof.
  intros Ha Hb E. apply pair_key_injective; [assumption | assumption |].
  unfold pair_key.
  change (Plant_ID (fst a)) with (Lane_Plant_ID (lane_of a)).
  change (Customer_ID (snd a)) with (Lane_Customer_ID (lane_of a)).
  rewrite E. reflexivity.
Qed.

(** The lane table: when a pair is served, one row for each served pair,
    in the order of the pairs. *)
Lemma lanes_served :
  served_pairs plant_df cust_df sol <> [] ->
  lanes (assigned_list (y_keys ps cs) sol) plant_df cust_df cust_df
  = Ok (map lane_of (served_pairs plant_df cust_df sol)).
Proof.
  intros Hne. unfold lanes.
  destruct (assigned_list (y_keys ps cs) sol) as [| k ks] eqn:Ea.
  { rewrite assigned_list_served in Ea. apply map_eq_nil in Ea. contradiction. }
  rewrite <- Ea. f_equal. rewrite lanes_joined_served.
  clear Hne Ea. apply (unique_NoDup Lane_eqb Lane_eqb_eq).
  pose proof NoDup_served_pairs as Hnd.
  assert (Hin : forall a, In a (served_pairs plant_df cust_df sol) ->
                          In a (row_pairs plant_df cust_df)).
  { intros a Ha. unfold served_pairs in Ha. apply filter_In in Ha. tauto. }
  induction Hnd as [| a l Ha Hl IH]; simpl; constructor.
  - intros Hm. apply in_map_iff in Hm. destruct Hm as [b [E Hb]].
    apply lane_of_injective in E;
      [subst; contradiction | apply Hin; right; assumption
       | apply Hin; left; reflexivity].
  - apply IH. intros b Hb. apply Hin. right. assumption.
Qed.

(** When no pair is served the lane table is not built: the merge with
    the customer table raises. *)
Lemma lanes_none_served :
  served_pairs plant_df cust_df sol = [] ->
  lanes (assigned_list (y_keys ps cs) sol) plant_df cust_df cust_df
  = Raise ValueError.
Proof.
  intros He. unfold lanes. rewrite assigned_list_served, He. reflexivity.
Qed.

(** The table [adf]: one row for each served pair. *)
Lemma adf_served (cost_per_mile min_cost : R) :
  adf (assigned_list (y_keys ps cs) sol) cust_df
      (setup_dist cost_per_mile min_cost plant_df cust_df)
  = map adf_row_of (served_pairs plant_df cust_df sol).
Proof.
  unfold adf. rewrite merge_demand_served.
  apply flat_map_map_single. intros [p c] Hpc.
  apply In_served_pairs in Hpc. simpl in Hpc. destruct Hpc as [Hp [Hc _]].
  simpl fst. simpl snd.
  rewrite setup_dist_row_pairs, filter_map_comm.
  assert (E : filter
                (fun a => (fst (dist_index (dist_entry cost_per_mile min_cost a))
                           =? Plant_ID p)%Z
                          && (snd (dist_index (dist_entry cost_per_mile min_cost a))
                              =? Customer_ID c)%Z)
                (row_pairs plant_df cust_df) = [(p, c)]).
  { assert (Hpc : In (p, c) (row_pairs plant_df cust_df))
      by (apply In_row_pairs; auto).
    pose proof (NoDup_map_inv pair_key (row_pairs plant_df cust_df)) as Hnd.
    assert (Hnd' : NoDup (row_pairs plant_df cust_df)).
    { apply Hnd.
      change (map pair_key (row_pairs plant_df cust_df))
        with (map (fun pc => (Plant_ID (fst pc), Customer_ID (snd pc)))
                  (row_pairs plant_df cust_df)).
      rewrite <- ij_set_row_pairs. destruct Hids. apply NoDup_ij_set; assumption. }
    clear Hnd. revert Hpc Hnd'.
    generalize (pair_key_injective).
    generalize (row_pairs plant_df cust_df) as l.
    induction l as [| a l IH]; intros Hinj Hin Hnd; [contradiction |].
    inversion Hnd as [| ? ? Ha Hl]; subst. simpl.
    destruct Hin as [-> | Hin].
    - simpl. rewrite !Z.eqb_refl. simpl. f_equal.
      apply filter_none. intros b Hb.
      apply andb_false_iff.
      destruct (Z.eqb_spec (Plant_ID (fst b)) (Plant_ID p)) as [E1 | E1];
        [| left; reflexivity].
      destruct (Z.eqb_spec (Customer_ID (snd b)) (Customer_ID c)) as [E2 | E2];
        [| right; reflexivity].
      exfalso. apply Ha.
      assert (b = (p, c)); [| subst; assumption].
      apply Hinj; [right; assumption | left; reflexivity |].
      unfold pair_key. simpl. rewrite E1, E2. reflexivity.
    - assert (Hne : a <> (p, c)) by (intros ->; contradiction).
      assert (Hf : ((Plant_ID (fst a) =? Plant_ID p)%Z
                    && (Customer_ID (snd a) =? Customer_ID c)%Z) = false).
      { apply andb_false_iff.
        destruct (Z.eqb_spec (Plant_ID (fst a)) (Plant_ID p)) as [E1 | E1];
          [| left; reflexivity].
        destruct (Z.eqb_spec (Customer_ID (snd a)) (Customer_ID c)) as [E2 | E2];
          [| right; reflexivity].
        exfalso. apply Hne.
        apply Hinj; [left; reflexivity | right; assumption |].
        unfold pair_key. simpl. rewrite E1, E2. reflexivity. }
      simpl. rewrite Hf. apply IH; [| assumption | assumption].
      intros x y Hx Hy. apply Hinj; right; assumption. }
  match goal with
  | |- map _ (map _ ?F) = _ => replace F with [(p, c)] by (symmetry; exact E)
  end.
  reflexivity.
Qed.

End Output.

End OutputFacts.

(** ** execute.py: the run around the solve *)

Module RunFacts.
Import Py Gurobi Execute ListFacts SetupFacts ModelFacts FeasibleFacts OutputFacts.

Lemma city_of_found (plant_df : list Plant) (k : Z) :
  In k (plnt plant_df) -> exists s, city_of plant_df k = Ok s.
Proof.
  intros Hk. apply In_plnt in Hk. destruct Hk as [p [Hp <-]].
  unfold city_of.
  destruct (filter (fun q => (Plant_ID q =? Plant_ID p)%Z) plant_df) as [| q l] eqn:E.
  - assert (Hin : In p (filter (fun q => (Plant_ID q =? Plant_ID p)%Z) plant_df))
      by (apply filter_In; split; [assumption | apply Z.eqb_refl]).
    rewrite E in Hin. contradiction.
  - simpl. eexists. reflexivity.
Qed.

(** The cities of the open plants are always found. *)
Lemma _opt_plants_ok (plant_df : list Plant) (sol : solution) :
  exists cities, _opt_plants plant_df (x_keys (plnt plant_df)) sol = Ok cities.
Proof.
  unfold _opt_plants. apply mapM_total. intros k Hk.
  apply city_of_found. unfold open_plants, x_keys in Hk.
  apply filter_In in Hk. tauto.
Qed.

Section Run.
Variable max_plants : Z.
Variables cost_per_mile min_cost : R.
Variable open_map_in_cell : bool.
Variables (plant_df : list Plant) (cust_df : list Customer).
Variable auto_open_map : bool.

Let run :=
  run_network_optimization max_plants cost_per_mile min_cost open_map_in_cell
    plant_df cust_df auto_open_map.
Let ps := plnt plant_df.
Let cs := cust cust_df.
Let dist := setup_dist cost_per_mile min_cost plant_df cust_df.

(** With unique identifiers the run reaches [mdl.optimize()]. *)
Lemma run_submits :
  unique_ids plant_df cust_df ->
  exists mdl k,
    build_model max_plants cost_per_mile min_cost plant_df cust_df = Ok mdl
    /\ run = Optimize mdl k.
Proof.
  intros Hids.
  destruct (build_model_ok max_plants cost_per_mile min_cost plant_df cust_df
              Hids) as [mdl Hm].
  unfold run, run_network_optimization. rewrite Hm.
  eexists. eexists. split; reflexivity.
Qed.

(** A run that reaches [mdl.optimize()] has built its model. *)
Lemma run_reaches (mdl : Model) (k : SolverResult -> list event * outcome) :
  run = Optimize mdl k ->
  build_model max_plants cost_per_mile min_cost plant_df cust_df = Ok mdl.
Proof.
  unfold run, run_network_optimization.
  destruct (build_model max_plants cost_per_mile min_cost plant_df cust_df)
    as [m | e]; intros E; [| discriminate E].
  inversion E. reflexivity.
Qed.

(** What is printed and plotted after an [OPTIMAL] status, when the lane
    table is built. *)
Lemma run_optimal (mdl : Model) (r : SolverResult) (l : list Lane) :
  build_model max_plants cost_per_mile min_cost plant_df cust_df = Ok mdl ->
  status r = OPTIMAL ->
  lanes (assigned_list (y_keys ps cs) (X r)) plant_df cust_df cust_df = Ok l ->
  exists cities,
    let a := adf (assigned_list (y_keys ps cs) (X r)) cust_df dist in
    answers run r mdl
      ([Print (ObjectiveValue (objVal mdl r));
        Print rule;
        Print (Text ("Selected plants are in: " ++ String.concat ", " cities));
        Print (WeightedAverageDistance
                 (weighted_avg_dist (Objective mdl) (X r) a));
        Print (TotalDemand (total_dmd a));
        Print (PctDemandWithin 400 (np_times (pct_dmd_within Within400 a) 100));
        Print (PctDemandWithin 800 (np_times (pct_dmd_within Within800 a) 100));
        Print (PctDemandWithin 1200 (np_times (pct_dmd_within Within1200 a) 100));
        Print rule;
        PlotNetwork l auto_open_map "Solution Map" open_map_in_cell])
      Returned.
Proof.
  intros Hm Hs Hl.
  destruct (_opt_plants_ok plant_df (X r)) as [cities Hc].
  exists cities. cbv zeta. unfold answers, run, run_network_optimization.
  rewrite Hm. eexists. split; [reflexivity |].
  cbv beta. rewrite Hs.
  change (existsb (Z.eqb OPTIMAL) [INF_OR_UNBD; INFEASIBLE; UNBOUNDED]) with false.
  change (OPTIMAL =? OPTIMAL)%Z with true. cbv iota.
  unfold generate_outputs. rewrite Hc. cbv zeta. cbn [fst snd].
  fold ps cs. rewrite Hl. reflexivity.
Qed.

(** What is printed after an [OPTIMAL] status when the lane table is not
    built: the same lines, then the exception, and no plot. *)
Lemma run_optimal_raises (mdl : Model) (r : SolverResult) (e : exn) :
  build_model max_plants cost_per_mile min_cost plant_df cust_df = Ok mdl ->
  status r = OPTIMAL ->
  lanes (assigned_list (y_keys ps cs) (X r)) plant_df cust_df cust_df = Raise e ->
  exists cities,
    let a := adf (assigned_list (y_keys ps cs) (X r)) cust_df dist in
    answers run r mdl
      [Print (ObjectiveValue (objVal mdl r));
       Print rule;
       Print (Text ("Selected plants are in: " ++ String.concat ", " cities));
       Print (WeightedAverageDistance
                (weighted_avg_dist (Objective mdl) (X r) a));
       Print (TotalDemand (total_dmd a));
       Print (PctDemandWithin 400 (np_times (pct_dmd_within Within400 a) 100));
       Print (PctDemandWithin 800 (np_times (pct_dmd_within Within800 a) 100));
       Print (PctDemandWithin 1200 (np_times (pct_dmd_within Within1200 a) 100));
       Print rule]
      (Uncaught e).
Proof.
  intros Hm Hs Hl.
  destruct (_opt_plants_ok plant_df (X r)) as [cities Hc].
  exists cities. cbv zeta. unfold answers, run, run_network_optimization.
  rewrite Hm. eexists. split; [reflexivity |].
  cbv beta. rewrite Hs.
  change (existsb (Z.eqb OPTIMAL) [INF_OR_UNBD; INFEASIBLE; UNBOUNDED]) with false.
  change (OPTIMAL =? OPTIMAL)%Z with true. cbv iota.
  unfold generate_outputs. rewrite Hc. cbv zeta. cbn [fst snd].
  fold ps cs. rewrite Hl. reflexivity.
Qed.

(** The continuation of a run is the one it answers with. *)
Lemma answers_continuation (prog : program) (r : SolverResult) (mdl : Model)
    (k : SolverResult -> list event * outcome) (evs : list event) (o : outcome) :
  prog = Optimize mdl k -> answers prog r mdl evs o -> k r = (evs, o).
Proof.
  intros Hp [k' [Hk' Hr]]. rewrite Hp in Hk'. inversion Hk'. exact Hr.
Qed.

(** What happens after any other status. *)
Lemma run_not_optimal (mdl : Model) (r : SolverResult) :
  build_model max_plants cost_per_mile min_cost plant_df cust_df = Ok mdl ->
  status r <> OPTIMAL ->
  answers run r mdl
    [Print (Text
              (if existsb (Z.eqb (status r)) [INF_OR_UNBD; INFEASIBLE; UNBOUNDED]
               then "The model is either infeasible or unbounded!"
               else "Status is " ++ str (status r) ++ ". Investigate!"))]
    (SysExit 1).
Proof.
  intros Hm Hs. unfold answers, run, run_network_optimization.
  rewrite Hm. eexists. split; [reflexivity |].
  cbv beta zeta.
  destruct (existsb (Z.eqb (status r)) [INF_OR_UNBD; INFEASIBLE; UNBOUNDED]);
    [reflexivity |].
  destruct (Z.eqb_spec (status r) OPTIMAL) as [E | E]; [contradiction |].
  reflexivity.
Qed.

End Run.

End RunFacts.

(** ** The [ValueError] of the distance computation *)

Module FloatFacts.
Import Py Gurobi Execute ListFacts SetupFacts ModelFacts RunFacts.

Section Float.
Variable math_domain_error : R -> R -> R -> R -> bool.

Let raises (p : Plant) (c : Customer) : bool :=
  math_domain_error (Plant_Latitude p) (Plant_Longitude p)
    (Customer_Latitude c) (Customer_Longitude c).

Lemma row_distance_float_eq (p : Plant) (c : Customer) :
  row_distance_float math_domain_error p c
  = if raises p c then Raise ValueError else Ok (row_distance p c).
Proof.
  unfold row_distance_float, row_distance, raises.
  rewrite UtilsFacts.calculate_distance_haversine_float_eq. simpl.
  destruct (math_domain_error _ _ _ _); reflexivity.
Qed.

Lemma get_distance_row_pairs (plant_df : list Plant) (cust_df : list Customer) :
  get_distance plant_df cust_df
  = map (fun pc => mkDistRow (fst pc) (snd pc) (row_distance (fst pc) (snd pc)))
        (row_pairs plant_df cust_df).
Proof.
  unfold get_distance, row_pairs.
  induction plant_df as [| p l IH]; simpl; [reflexivity |].
  rewrite map_app, IH, map_map. reflexivity.
Qed.

Variables (plant_df : list Plant) (cust_df : list Customer).

(** Without a domain error the distances are computed, and they are the
    exact ones. *)
Lemma get_distance_float_ok :
  no_domain_error math_domain_error plant_df cust_df ->
  get_distance_float math_domain_error plant_df cust_df
  = Ok (get_distance plant_df cust_df).
Proof.
  intros Hno. unfold get_distance_float. rewrite get_distance_row_pairs.
  apply mapM_ok. intros [p c] Hpc. apply In_row_pairs in Hpc.
  simpl. rewrite row_distance_float_eq. unfold raises.
  rewrite (Hno p c (proj1 Hpc) (proj2 Hpc)). reflexivity.
Qed.

(** A domain error at any pair ends [get_distance] with a [ValueError]. *)
Lemma get_distance_float_raises (p : Plant) (c : Customer) :
  In p plant_df -> In c cust_df -> raises p c = true ->
  get_distance_float math_domain_error plant_df cust_df = Raise ValueError.
Proof.
  intros Hp Hc Hr. unfold get_distance_float. apply mapM_raise.
  - intros [p' c'] e. simpl. rewrite row_distance_float_eq.
    destruct (raises p' c'); simpl; intros E; inversion E. reflexivity.
  - exists (p, c). split; [apply In_row_pairs; auto |].
    simpl. rewrite row_distance_float_eq, Hr. reflexivity.
Qed.

(** The distances are computed only where no pair has a domain error. *)
Lemma get_distance_float_inv (dist : list DistRow) :
  get_distance_float math_domain_error plant_df cust_df = Ok dist ->
  no_domain_error math_domain_error plant_df cust_df
  /\ dist = get_distance plant_df cust_df.
Proof.
  intros H.
  assert (Hno : no_domain_error math_domain_error plant_df cust_df).
  { intros p c Hp Hc.
    destruct (math_domain_error (Plant_Latitude p) (Plant_Longitude p)
                (Customer_Latitude c) (Customer_Longitude c)) eqn:E;
      [| reflexivity].
    rewrite (get_distance_float_raises p c Hp Hc E) in H. discriminate H. }
  split; [exact Hno |].
  rewrite (get_distance_float_ok Hno) in H. inversion H. reflexivity.
Qed.

Variables cost_per_mile min_cost : R.

Lemma setup_dist_float_ok :
  no_domain_error math_domain_error plant_df cust_df ->
  setup_dist_float math_domain_error cost_per_mile min_cost plant_df cust_df
  = Ok (setup_dist cost_per_mile min_cost plant_df cust_df).
Proof.
  intros Hno. unfold setup_dist_float. rewrite (get_distance_float_ok Hno).
  reflexivity.
Qed.

Lemma setup_dist_float_raises (p : Plant) (c : Customer) :
  In p plant_df -> In c cust_df -> raises p c = true ->
  setup_dist_float math_domain_error cost_per_mile min_cost plant_df cust_df
  = Raise ValueError.
Proof.
  intros Hp Hc Hr. unfold setup_dist_float.
  rewrite (get_distance_float_raises p c Hp Hc Hr). reflexivity.
Qed.

Lemma setup_dist_float_inv (dist : list DistCostRow) :
  setup_dist_float math_domain_error cost_per_mile min_cost plant_df cust_df
  = Ok dist ->
  no_domain_error math_domain_error plant_df cust_df
  /\ dist = setup_dist cost_per_mile min_cost plant_df cust_df.
Proof.
  unfold setup_dist_float.
  destruct (get_distance_float math_domain_error plant_df cust_df)
    as [d | e] eqn:E; simpl; intros H; [| discriminate H].
  destruct (get_distance_float_inv d E) as [Hno ->].
  split; [exact Hno |]. inversion H. reflexivity.
Qed.

Variable max_plants : Z.
Variable open_map_in_cell : bool.
Variable auto_open_map : bool.

Let run_float :=
  run_network_optimization_float math_domain_error max_plants cost_per_mile
    min_cost open_map_in_cell plant_df cust_df auto_open_map.
Let run :=
  run_network_optimization max_plants cost_per_mile min_cost open_map_in_cell
    plant_df cust_df auto_open_map.

(** Without a domain error the run is the run in exact arithmetic. *)
Lemma run_float_eq :
  no_domain_error math_domain_error plant_df cust_df -> run_float = run.
Proof.
  intros Hno. unfold run_float, run_network_optimization_float.
  rewrite (setup_dist_float_ok Hno). reflexivity.
Qed.

(** A domain error at any pair ends the run before anything is printed. *)
Lemma run_float_fails (p : Plant) (c : Customer) :
  In p plant_df -> In c cust_df -> raises p c = true ->
  run_float = Fails ValueError.
Proof.
  intros Hp Hc Hr. unfold run_float, run_network_optimization_float.
  rewrite (setup_dist_float_raises p c Hp Hc Hr). reflexivity.
Qed.

(** A run that reaches [mdl.optimize()] had no domain error and built
    its model. *)
Lemma run_float_reaches (mdl : Model)
    (k : SolverResult -> list event * outcome) :
  run_float = Optimize mdl k ->
  no_domain_error math_domain_error plant_df cust_df
  /\ run = Optimize mdl k
  /\ build_model max_plants cost_per_mile min_cost plant_df cust_df = Ok mdl.
Proof.
  unfold run_float, run_network_optimization_float.
  destruct (setup_dist_float math_domain_error cost_per_mile min_cost
              plant_df cust_df) as [d | e] eqn:E; intros H; [| discriminate H].
  destruct (setup_dist_float_inv d E) as [Hno _].
  split; [exact Hno |]. split; [exact H |].
  apply (run_reaches _ _ _ _ _ _ _ mdl k H).
Qed.

(** With unique identifiers and no domain error the run reaches
    [mdl.optimize()]. *)
Lemma run_float_submits :
  unique_ids plant_df cust_df ->
  no_domain_error math_domain_error plant_df cust_df ->
  exists mdl k,
    build_model max_plants cost_per_mile min_cost plant_df cust_df = Ok mdl
    /\ run_float = Optimize mdl k.
Proof.
  intros Hids Hno. rewrite (run_float_eq Hno).
  apply run_submits. exact Hids.
Qed.

End Float.

End FloatFacts.

(** ** The objective under unique identifiers *)

Module ObjectiveFacts.
Import Py Gurobi Execute ListFacts SetupFacts ModelFacts FeasibleFacts.

Section Objective.
Variable max_plants : Z.
Variables cost_per_mile min_cost : R.
Variables (plant_df : list Plant) (cust_df : list Customer).
Hypothesis Hids : unique_ids plant_df cust_df.

Let dist := setup_dist cost_per_mile min_cost plant_df cust_df.


Lemma objective_unique (mdl : Model) :
  build_model max_plants cost_per_mile min_cost plant_df cust_df = Ok mdl ->
  Objective mdl
  = quicksum
      (map (fun pc => (row_distance (fst pc) (snd pc) * Demand (snd pc),
                       y_var (Plant_ID (fst pc)) (Customer_ID (snd pc))))
           (row_pairs plant_df cust_df)).
Proof.
  intros Hm. apply build_model_inv in Hm. destruct Hm as [Ht _].
  rewrite (total_weighted_dist_unique _ _ _ _ Hids) in Ht.
  inversion Ht. reflexivity.
Qed.

Lemma objective_value (mdl : Model) (sol : solution) :
  build_model max_plants cost_per_mile min_cost plant_df cust_df = Ok mdl ->
  getValue (Objective mdl) sol
  = Rsum (map (fun pc => row_distance (fst pc) (snd pc) * Demand (snd pc)
                         * sol (y_var (Plant_ID (fst pc)) (Customer_ID (snd pc))))
              (row_pairs plant_df cust_df)).
Proof.
  intros Hm. rewrite (objective_unique mdl Hm).
  apply (getValue_quicksum
           (fun pc => row_distance (fst pc) (snd pc) * Demand (snd pc))
           (fun pc => y_var (Plant_ID (fst pc)) (Customer_ID (snd pc)))).
Qed.

End Objective.

End ObjectiveFacts.

(** ** The distance matrix *)

Module OppositeFacts.
Import Py Gurobi Execute Examples.

(** The rounding of the example raises at the pair of the example. *)
Lemma rounds_above_one_at_P_Q :
  rounds_above_one (Plant_Latitude plant_P) (Plant_Longitude plant_P)
    (Customer_Latitude customer_Q) (Customer_Longitude customer_Q) = true.
Proof.
  unfold rounds_above_one. simpl.
  rewrite !(proj2 (OutputFacts.Reqb_eq _ _) eq_refl). reflexivity.
Qed.

(** It raises for no plant at another latitude. *)
Lemma rounds_above_one_elsewhere (plant_df : list Plant)
    (cust_df : list Customer) :
  (forall p, In p plant_df -> Plant_Latitude p <> 8) ->
  no_domain_error rounds_above_one plant_df cust_df.
Proof.
  intros Hlat p c Hp _. unfold rounds_above_one, Reqb.
  destruct (Req_dec_T (Plant_Latitude p) 8) as [E | _]; [| reflexivity].
  exfalso. apply (Hlat p Hp E).
Qed.

End OppositeFacts.




(** ** The linking constraints *)

(** C4: for every plant [p] and customer [c] the built model, the one
    the run hands to the solver, contains the constraint
    [y[p,c] <= x[p]]; hence in every feasible solution a pair that is
    served (value of [y] above 0.5) has its plant among the open ones
    (value of [x] above 0.5).  The model is built and handed over when
    the identifiers are unique and no distance raises. *)
Theorem linking_constraints_keep_service_at_open_plants :
  forall (math_domain_error : R -> R -> R -> R -> bool)
         (max_plants : Z) (cost_per_mile min_cost : R) (open_map_in_cell : bool)
         (plant_df : list Execute.Plant) (cust_df : list Execute.Customer)
         (auto_open_map : bool),
    (Execute.unique_ids plant_df cust_df ->
     Execute.no_domain_error math_domain_error plant_df cust_df ->
     exists mdl k,
       Execute.run_network_optimization_float math_domain_error max_plants
         cost_per_mile min_cost open_map_in_cell plant_df cust_df auto_open_map
       = Execute.Optimize mdl k)
    /\ (forall mdl k,
          Execute.run_network_optimization_float math_domain_error max_plants
            cost_per_mile min_cost open_map_in_cell plant_df cust_df
            auto_open_map
          = Execute.Optimize mdl k ->
          (forall p c, In p plant_df -> In c cust_df ->
             In (Gurobi.mkConstr "rel_x_y"
                   [Execute.Plant_ID p; Execute.Customer_ID c]
                   (Gurobi.mkTempConstr
                      (Gurobi.of_var
                         (Gurobi.y_var (Execute.Plant_ID p)
                            (Execute.Customer_ID c)))
                      Gurobi.LESS_EQUAL
                      (Gurobi.of_var (Gurobi.x_var (Execute.Plant_ID p)))))
                (Gurobi.Constrs mdl))
          /\ (forall sol, Gurobi.feasible mdl sol ->
                forall p c, In p plant_df -> In c cust_df ->
                  sol (Gurobi.y_var (Execute.Plant_ID p) (Execute.Customer_ID c))
                  <= sol (Gurobi.x_var (Execute.Plant_ID p))
                  /\ (Execute.served sol (p, c) = true ->
                      In (Execute.Plant_ID p)
                         (Execute.open_plants
                            (Execute.x_keys (Execute.plnt plant_df)) sol)))).
Proof.
  intros math_domain_error max_plants cost_per_mile min_cost open_map_in_cell
         plant_df cust_df auto_open_map.
  split.
  { intros Hids Hno.
    destruct (FloatFacts.run_float_submits math_domain_error plant_df cust_df
                cost_per_mile min_cost max_plants open_map_in_cell
                auto_open_map Hids Hno) as [mdl [k [_ Hrun]]].
    exists mdl, k. exact Hrun. }
  intros mdl k Hrun.
  destruct (FloatFacts.run_float_reaches _ _ _ _ _ _ _ _ mdl k Hrun)
    as [_ [_ Hm]].
  assert (Hin : forall p c, In p plant_df -> In c cust_df ->
                  In (Execute.Plant_ID p) (Execute.plnt plant_df)
                  /\ In (Execute.Customer_ID c) (Execute.cust cust_df)).
  { intros p c Hp Hc. split.
    - apply SetupFacts.In_plnt. exists p. auto.
    - apply SetupFacts.In_cust. exists c. auto. }
  split.
  - intros p c Hp Hc. destruct (Hin p c Hp Hc) as [Hi Hj].
    apply (FeasibleFacts.In_rel_x_y _ _ _ _ _ _ Hm); assumption.
  - intros sol Hf p c Hp Hc. destruct (Hin p c Hp Hc) as [Hi Hj].
    pose proof (FeasibleFacts.feasible_linking _ _ _ _ _ _ _ Hm Hf _ _ Hi Hj)
      as Hle.
    split; [exact Hle |].
    intros Hs. unfold Execute.served in Hs. simpl in Hs.
    apply OutputFacts.Rltb_half_true in Hs.
    unfold Execute.open_plants, Execute.x_keys. apply filter_In.
    split; [assumption |]. apply OutputFacts.Rltb_half_true. lra.
Qed.

(** ** Coverage: each customer is served exactly once *)

Module CoverageFacts.
Import Py Gurobi Execute ListFacts SetupFacts ModelFacts FeasibleFacts OutputFacts.

Lemma filter_comm {A : Type} (p q : A -> bool) (l : list A) :
  filter p (filter q l) = filter q (filter p l).
Proof.
  rewrite !filter_filter. apply filter_ext. intros a. apply andb_comm.
Qed.

(** The pairs of rows of one customer: one per plant row. *)
Lemma row_pairs_of_customer (plant_df : list Plant) (cust_df : list Customer)
    (c : Customer) :
  NoDup (map Customer_ID cust_df) -> In c cust_df ->
  filter (fun pc => (Customer_ID (snd pc) =? Customer_ID c)%Z)
         (row_pairs plant_df cust_df)
  = map (fun p => (p, c)) plant_df.
Proof.
  intros Hnd Hc. unfold row_pairs. rewrite filter_flat_map.
  apply flat_map_single. intros p _.
  rewrite filter_map_comm. simpl.
  rewrite (filter_key_single Customer_ID cust_df c Hnd Hc). reflexivity.
Qed.

Section Coverage.
Variable max_plants : Z.
Variables cost_per_mile min_cost : R.
Variables (plant_df : list Plant) (cust_df : list Customer).
Variable mdl : Model.
Variable sol : solution.
Hypothesis Hids : unique_ids plant_df cust_df.
Hypothesis Hbuild :
  build_model max_plants cost_per_mile min_cost plant_df cust_df = Ok mdl.
Hypothesis Hfeas : feasible mdl sol.

Lemma binary_pair (p : Plant) (c : Customer) :
  In p plant_df -> In c cust_df ->
  binary sol (y_var (Plant_ID p) (Customer_ID c)).
Proof.
  intros Hp Hc.
  apply (feasible_binary_y _ _ _ _ _ _ _ Hbuild Hfeas).
  - apply In_plnt. exists p. auto.
  - apply In_cust. exists c. auto.
Qed.

Lemma coverage_of_customer (c : Customer) :
  In c cust_df ->
  Rsum (map (fun p => sol (y_var (Plant_ID p) (Customer_ID c))) plant_df) = 1.
Proof.
  intros Hc.
  assert (Hj : In (Customer_ID c) (cust cust_df))
    by (apply In_cust; exists c; auto).
  pose proof (feasible_coverage _ _ _ _ _ _ _ Hbuild Hfeas _ Hj) as H.
  rewrite (plnt_unique_ids _ (proj1 Hids)), map_map in H. exact H.
Qed.

Lemma served_pairs_of_customer (c : Customer) :
  In c cust_df ->
  filter (fun pc => (Customer_ID (snd pc) =? Customer_ID c)%Z)
         (served_pairs plant_df cust_df sol)
  = map (fun p => (p, c)) (filter (fun p => served sol (p, c)) plant_df).
Proof.
  intros Hc. unfold served_pairs. rewrite filter_comm.
  rewrite (row_pairs_of_customer _ _ c (proj2 Hids) Hc).
  apply filter_map_comm.
Qed.

(** Exactly one plant row serves a given customer. *)
Lemma one_serving_plant (c : Customer) :
  In c cust_df ->
  List.length (filter (fun p => served sol (p, c)) plant_df) = 1%nat.
Proof.
  intros Hc. apply INR_eq.
  unfold served. simpl.
  rewrite (count_binary
             (fun p => sol (y_var (Plant_ID p) (Customer_ID c))) plant_df).
  - rewrite (coverage_of_customer c Hc). reflexivity.
  - intros p Hp. apply (binary_pair p c Hp Hc).
Qed.

Lemma lanes_of_customer_one (c : Customer) :
  In c cust_df ->
  lanes_of_customer (map lane_of (served_pairs plant_df cust_df sol))
                    (Customer_ID c) = 1%nat.
Proof.
  intros Hc. unfold lanes_of_customer.
  rewrite filter_map_comm, length_map. simpl.
  rewrite (served_pairs_of_customer c Hc), length_map.
  apply one_serving_plant. assumption.
Qed.

(** The demand summed over the served pairs is the demand summed over
    the customers. *)
Lemma served_demand_total :
  Rsum (map (fun pc => Demand (snd pc)) (served_pairs plant_df cust_df sol))
  = Rsum (map Demand cust_df).
Proof.
  unfold served_pairs, served.
  rewrite (sum_filter_binary
             (fun pc => sol (y_var (Plant_ID (fst pc)) (Customer_ID (snd pc))))
             (fun pc => Demand (snd pc))).
  - unfold row_pairs. rewrite Rsum_flat_map.
    rewrite (Rsum_map_ext _
               (fun p => Rsum (map (fun c => Demand c
                                             * sol (y_var (Plant_ID p) (Customer_ID c)))
                                   cust_df))).
    + rewrite (Rsum_swap
                 (fun p c => Demand c * sol (y_var (Plant_ID p) (Customer_ID c)))).
      apply Rsum_map_ext. intros c Hc.
      rewrite Rsum_map_scale, (coverage_of_customer c Hc). lra.
    + intros p _. rewrite map_map. reflexivity.
  - intros [p c] Hpc. apply In_row_pairs in Hpc. destruct Hpc.
    apply binary_pair; assumption.
Qed.

Lemma total_dmd_all_customers :
  total_dmd (adf (assigned_list (y_keys (plnt plant_df) (cust cust_df)) sol)
                 cust_df (setup_dist cost_per_mile min_cost plant_df cust_df))
  = Rsum (map Demand cust_df).
Proof.
  rewrite (adf_served plant_df cust_df sol Hids). unfold total_dmd.
  rewrite map_map. simpl. apply served_demand_total.
Qed.

(** Every customer has a plant that serves it. *)
Lemma served_by_some_plant (c : Customer) :
  In c cust_df -> exists p, In (p, c) (served_pairs plant_df cust_df sol).
Proof.
  intros Hc. pose proof (one_serving_plant c Hc) as H1.
  destruct (filter (fun p => served sol (p, c)) plant_df) as [| p l] eqn:E;
    [discriminate H1 |].
  assert (Hp : In p (filter (fun p => served sol (p, c)) plant_df))
    by (rewrite E; left; reflexivity).
  apply filter_In in Hp. destruct Hp as [Hp Hs].
  exists p. apply In_served_pairs. simpl. auto.
Qed.

(** With a customer in the table some pair is served, and the lane
    table is built. *)
Lemma served_pairs_nonempty :
  cust_df <> [] -> served_pairs plant_df cust_df sol <> [].
Proof.
  intros Hne He.
  assert (Hex : exists c, In c cust_df).
  { clear - Hne. destruct cust_df as [| c l]; [contradiction |].
    exists c. left. reflexivity. }
  destruct Hex as [c Hc].
  destruct (served_by_some_plant c Hc) as [p Hp].
  rewrite He in Hp. contradiction.
Qed.

Lemma lanes_built :
  cust_df <> [] ->
  lanes (assigned_list (y_keys (plnt plant_df) (cust cust_df)) sol)
        plant_df cust_df cust_df
  = Ok (map lane_of (served_pairs plant_df cust_df sol)).
Proof.
  intros Hne. apply (lanes_served plant_df cust_df sol Hids).
  apply served_pairs_nonempty. exact Hne.
Qed.

End Coverage.

End CoverageFacts.

(** C1: when the solver reports an optimal solution for tables with
    unique identifiers and at least one customer, the run returns with a
    lane table in which every customer has exactly one row: the model
    contains, for each customer [c], the constraint that the variables
    [y[p,c]] over all plants sum to exactly 1, and the lane table has one
    row for each pair of a plant and a customer whose [y] exceeds 0.5. *)
Theorem every_customer_in_exactly_one_lane :
  forall (math_domain_error : R -> R -> R -> R -> bool)
         (max_plants : Z) (cost_per_mile min_cost : R) (open_map_in_cell : bool)
         (plant_df : list Execute.Plant) (cust_df : list Execute.Customer)
         (auto_open_map : bool) (r : Gurobi.SolverResult),
    Execute.unique_ids plant_df cust_df ->
    cust_df <> [] ->
    Execute.no_domain_error math_domain_error plant_df cust_df ->
    Execute.reports_optimal max_plants cost_per_mile min_cost plant_df cust_df r ->
    exists mdl evs lanes,
      Execute.answers
        (Execute.run_network_optimization_float math_domain_error max_plants
           cost_per_mile min_cost open_map_in_cell plant_df cust_df
           auto_open_map)
        r mdl evs Execute.Returned
      /\ In (Execute.PlotNetwork lanes auto_open_map "Solution Map"
               open_map_in_cell) evs
      /\ (forall c, In c cust_df ->
            In (Gurobi.mkConstr "cust_coverage" [Execute.Customer_ID c]
                  (Gurobi.mkTempConstr
                     (Gurobi.quicksum
                        (map (fun p => (1, Gurobi.y_var (Execute.Plant_ID p)
                                             (Execute.Customer_ID c)))
                             plant_df))
                     Gurobi.EQUAL (Gurobi.of_const 1)))
               (Gurobi.Constrs mdl))
      /\ lanes
         = map Execute.lane_of
               (Execute.served_pairs plant_df cust_df (Gurobi.X r))
      /\ (forall c, In c cust_df ->
            Execute.lanes_of_customer lanes (Execute.Customer_ID c) = 1%nat).
Proof.
  intros math_domain_error max_plants cost_per_mile min_cost open_map_in_cell
         plant_df cust_df auto_open_map r Hids Hne Hno [Hs [mdl [Hm [Hf _]]]].
  rewrite (FloatFacts.run_float_eq math_domain_error plant_df cust_df
             cost_per_mile min_cost max_plants open_map_in_cell auto_open_map
             Hno).
  destruct (RunFacts.run_optimal max_plants cost_per_mile min_cost
              open_map_in_cell plant_df cust_df auto_open_map mdl r _ Hm Hs
              (CoverageFacts.lanes_built _ _ _ _ _ _ _ Hids Hm Hf Hne))
    as [cities Hrun].
  cbv zeta in Hrun.
  eexists mdl, _, _. split; [exact Hrun |].
  split; [simpl; tauto |].
  split.
  - intros c Hc.
    pose proof (FeasibleFacts.In_cust_coverage _ _ _ _ _ _ Hm
                  (Execute.Customer_ID c)) as H.
    rewrite (SetupFacts.plnt_unique_ids _ (proj1 Hids)), map_map in H.
    apply H. apply SetupFacts.In_cust. exists c. auto.
  - split; [reflexivity |].
    intros c Hc.
    apply (CoverageFacts.lanes_of_customer_one _ _ _ _ _ _ _ Hids Hm Hf c Hc).
Qed.

(** ** The example with one plant and two customers *)

Module ExampleFacts.
Import Py Gurobi Execute Examples.

Lemma unique_ids_example : unique_ids one_plant two_customers.
Proof.
  split; simpl.
  - repeat constructor. simpl. tauto.
  - repeat constructor; simpl; intuition discriminate.
Qed.

Lemma row_distance_example (pc : Plant * Customer) :
  In pc (row_pairs one_plant two_customers) -> row_distance (fst pc) (snd pc) = 0.
Proof.
  simpl. intros [<- | [<- | []]];
    exact (UtilsFacts.calculate_distance_haversine_same 40 (-75) _ _).
Qed.

Lemma objective_example (max_plants : Z) (cost_per_mile min_cost : R)
    (mdl : Model) (sol : solution) :
  build_model max_plants cost_per_mile min_cost one_plant two_customers = Ok mdl ->
  getValue (Objective mdl) sol = 0.
Proof.
  intros Hm.
  rewrite (ObjectiveFacts.objective_value _ _ _ _ _ unique_ids_example mdl sol Hm).
  rewrite (ListFacts.Rsum_map_ext _ (fun _ => 0)).
  - apply ListFacts.Rsum_map_zero.
  - intros pc Hpc. rewrite (row_distance_example pc Hpc). lra.
Qed.

Lemma feasible_example (cost_per_mile min_cost : R) (mdl : Model) :
  build_model main_max_plants cost_per_mile min_cost one_plant two_customers
  = Ok mdl ->
  feasible mdl all_from_A.
Proof.
  intros Hm. apply ModelFacts.build_model_inv in Hm.
  destruct Hm as [_ [Hv [Hc _]]]. split.
  - rewrite Hv. simpl. intros v [<- | [<- | [<- | []]]]; right; reflexivity.
  - rewrite Hc. simpl.
    intros c [<- | [<- | [<- | [<- | [<- | []]]]]];
      unfold holds, getValue; simpl; unfold main_max_plants; lra.
Qed.

(** The answer [all_from_A] is an optimal one for the example. *)
Lemma reports_optimal_example (cost_per_mile min_cost : R) :
  reports_optimal main_max_plants cost_per_mile min_cost
    one_plant two_customers answer_all_from_A.
Proof.
  split; [reflexivity |].
  destruct (ModelFacts.build_model_ok main_max_plants cost_per_mile min_cost
              one_plant two_customers unique_ids_example) as [mdl Hm].
  exists mdl. split; [exact Hm |]. split.
  - apply (feasible_example cost_per_mile min_cost). exact Hm.
  - intros sol' _. simpl.
    rewrite !(objective_example _ _ _ mdl _ Hm). lra.
Qed.

Lemma two_customers_nonempty : two_customers <> [].
Proof. discriminate. Qed.

Lemma no_domain_error_example :
  no_domain_error rounds_above_one one_plant two_customers.
Proof.
  apply OppositeFacts.rounds_above_one_elsewhere.
  intros p [<- | []]. simpl. lra.
Qed.

End ExampleFacts.

Lemma every_customer_in_exactly_one_lane_witness :
  exists mdl evs lanes,
    Execute.answers
      (Execute.run_network_optimization_float Examples.rounds_above_one
         Execute.main_max_plants Execute.main_cost_per_mile
         Execute.main_min_cost Execute.main_open_map_in_cell
         Examples.one_plant Examples.two_customers true)
      Examples.answer_all_from_A mdl evs Execute.Returned
    /\ In (Execute.PlotNetwork lanes true "Solution Map"
             Execute.main_open_map_in_cell) evs
    /\ (forall c, In c Examples.two_customers ->
          In (Gurobi.mkConstr "cust_coverage" [Execute.Customer_ID c]
                (Gurobi.mkTempConstr
                   (Gurobi.quicksum
                      (map (fun p => (1, Gurobi.y_var (Execute.Plant_ID p)
                                           (Execute.Customer_ID c)))
                           Examples.one_plant))
                   Gurobi.EQUAL (Gurobi.of_const 1)))
             (Gurobi.Constrs mdl))
    /\ lanes
       = map Execute.lane_of
             (Execute.served_pairs Examples.one_plant Examples.two_customers
                (Gurobi.X Examples.answer_all_from_A))
    /\ (forall c, In c Examples.two_customers ->
          Execute.lanes_of_customer lanes (Execute.Customer_ID c) = 1%nat).
Proof.
  apply (every_customer_in_exactly_one_lane Examples.rounds_above_one
           Execute.main_max_plants
           Execute.main_cost_per_mile Execute.main_min_cost
           Execute.main_open_map_in_cell Examples.one_plant
           Examples.two_customers true Examples.answer_all_from_A).
  - exact ExampleFacts.unique_ids_example.
  - discriminate.
  - exact ExampleFacts.no_domain_error_example.
  - exact (ExampleFacts.reports_optimal_example _ _).
Defined.

Lemma linking_constraints_witness :
  exists mdl k,
    Execute.run_network_optimization_float Examples.rounds_above_one
      Execute.main_max_plants Execute.main_cost_per_mile Execute.main_min_cost
      Execute.main_open_map_in_cell Examples.one_plant Examples.two_customers
      true
    = Execute.Optimize mdl k
    /\ (forall p c, In p Examples.one_plant -> In c Examples.two_customers ->
          In (Gurobi.mkConstr "rel_x_y"
                [Execute.Plant_ID p; Execute.Customer_ID c]
                (Gurobi.mkTempConstr
                   (Gurobi.of_var
                      (Gurobi.y_var (Execute.Plant_ID p)
                         (Execute.Customer_ID c)))
                   Gurobi.LESS_EQUAL
                   (Gurobi.of_var (Gurobi.x_var (Execute.Plant_ID p)))))
             (Gurobi.Constrs mdl))
    /\ (forall sol, Gurobi.feasible mdl sol ->
          forall p c, In p Examples.one_plant -> In c Examples.two_customers ->
            sol (Gurobi.y_var (Execute.Plant_ID p) (Execute.Customer_ID c))
            <= sol (Gurobi.x_var (Execute.Plant_ID p))
            /\ (Execute.served sol (p, c) = true ->
                In (Execute.Plant_ID p)
                   (Execute.open_plants
                      (Execute.x_keys (Execute.plnt Examples.one_plant)) sol))).
Proof.
  destruct (linking_constraints_keep_service_at_open_plants
              Examples.rounds_above_one Execute.main_max_plants
              Execute.main_cost_per_mile Execute.main_min_cost
              Execute.main_open_map_in_cell Examples.one_plant
              Examples.two_customers true) as [Hreach Hmodel].
  destruct (Hreach ExampleFacts.unique_ids_example
              ExampleFacts.no_domain_error_example) as [mdl [k Hrun]].
  exists mdl, k. split; [exact Hrun |]. exact (Hmodel mdl k Hrun).
Defined.

(** ** The KPIs *)

Module KpiFacts.
Import Py Gurobi Execute ListFacts SetupFacts ModelFacts FeasibleFacts
       OutputFacts CoverageFacts.

Lemma np_truediv_finite (a b : R) : b <> 0 -> np_truediv a b = Finite (a / b).
Proof.
  intros Hb. unfold np_truediv. destruct (Req_dec_T b 0); [contradiction |].
  reflexivity.
Qed.

Lemma np_truediv_zero_zero : np_truediv 0 0 = NaN.
Proof.
  unfold np_truediv. destruct (Req_dec_T 0 0) as [_ | H]; [| lra].
  reflexivity.
Qed.



Section Fractions.
Variables (plant_df : list Plant) (cust_df : list Customer).
Variable sol : solution.
Hypothesis Hdemand : forall c, In c cust_df -> 0 <= Demand c.

Let rows := map adf_row_of (served_pairs plant_df cust_df sol).



End Fractions.

End KpiFacts.

(** C8: after an optimal solve of tables with unique identifiers and at
    least one customer, the objective is the demand-weighted distance, and
    the reported weighted average distance is the objective value divided
    by the total demand, which is the sum of the demand over all customers
    and also the sum of the demand over the rows of the lane table.  With
    a total demand other than 0 the reported value is that quotient; with
    a total demand of 0 and an objective value of 0 it is [nan]. *)
Theorem weighted_average_distance_is_objective_over_total_demand :
  forall (math_domain_error : R -> R -> R -> R -> bool)
         (max_plants : Z) (cost_per_mile min_cost : R) (open_map_in_cell : bool)
         (plant_df : list Execute.Plant) (cust_df : list Execute.Customer)
         (auto_open_map : bool) (r : Gurobi.SolverResult),
    Execute.unique_ids plant_df cust_df ->
    cust_df <> [] ->
    Execute.no_domain_error math_domain_error plant_df cust_df ->
    Execute.reports_optimal max_plants cost_per_mile min_cost plant_df cust_df r ->
    exists mdl evs lanes,
      Execute.answers
        (Execute.run_network_optimization_float math_domain_error max_plants
           cost_per_mile min_cost open_map_in_cell plant_df cust_df
           auto_open_map)
        r mdl evs Execute.Returned
      /\ Gurobi.objVal mdl r
         = Py.Rsum
             (map (fun pc =>
                     Execute.row_distance (fst pc) (snd pc)
                     * Execute.Demand (snd pc)
                     * Gurobi.X r (Gurobi.y_var (Execute.Plant_ID (fst pc))
                                     (Execute.Customer_ID (snd pc))))
                  (Execute.row_pairs plant_df cust_df))
      /\ (Py.Rsum (map Execute.Demand cust_df) <> 0 ->
          In (Execute.Print
                (Execute.WeightedAverageDistance
                   (Py.Finite (Gurobi.objVal mdl r
                               / Py.Rsum (map Execute.Demand cust_df))))) evs)
      /\ (Py.Rsum (map Execute.Demand cust_df) = 0 ->
          Gurobi.objVal mdl r = 0 ->
          In (Execute.Print (Execute.WeightedAverageDistance Py.NaN)) evs)
      /\ In (Execute.Print
               (Execute.TotalDemand (Py.Rsum (map Execute.Demand cust_df)))) evs
      /\ In (Execute.PlotNetwork lanes auto_open_map "Solution Map"
               open_map_in_cell) evs
      /\ Py.Rsum (map Execute.Lane_Demand lanes)
         = Py.Rsum (map Execute.Demand cust_df).
Proof.
  intros math_domain_error max_plants cost_per_mile min_cost open_map_in_cell
         plant_df cust_df auto_open_map r Hids Hne Hno [Hs [mdl [Hm [Hf _]]]].
  rewrite (FloatFacts.run_float_eq math_domain_error plant_df cust_df
             cost_per_mile min_cost max_plants open_map_in_cell auto_open_map
             Hno).
  destruct (RunFacts.run_optimal max_plants cost_per_mile min_cost
              open_map_in_cell plant_df cust_df auto_open_map mdl r _ Hm Hs
              (CoverageFacts.lanes_built _ _ _ _ _ _ _ Hids Hm Hf Hne))
    as [cities Hrun].
  cbv zeta in Hrun.
  unfold Execute.weighted_avg_dist in Hrun.
  rewrite (CoverageFacts.total_dmd_all_customers _ _ _ _ _ _ _ Hids Hm Hf)
    in Hrun.
  fold (Gurobi.objVal mdl r) in Hrun.
  eexists mdl, _, _. split; [exact Hrun |].
  split.
  { unfold Gurobi.objVal.
    apply (ObjectiveFacts.objective_value _ _ _ _ _ Hids mdl _ Hm). }
  split.
  { intros Ht. rewrite (KpiFacts.np_truediv_finite _ _ Ht). simpl. tauto. }
  split.
  { intros Ht Ho. rewrite Ht, Ho, KpiFacts.np_truediv_zero_zero. simpl. tauto. }
  split; [simpl; tauto |].
  split; [simpl; tauto |].
  rewrite map_map. simpl.
  apply (CoverageFacts.served_demand_total _ _ _ _ _ _ _ Hids Hm Hf).
Qed.

Lemma weighted_average_distance_witness :
  exists mdl evs lanes,
    Execute.answers
      (Execute.run_network_optimization_float Examples.rounds_above_one
         Execute.main_max_plants Execute.main_cost_per_mile
         Execute.main_min_cost Execute.main_open_map_in_cell
         Examples.one_plant Examples.two_customers true)
      Examples.answer_all_from_A mdl evs Execute.Returned
    /\ Gurobi.objVal mdl Examples.answer_all_from_A
       = Py.Rsum
           (map (fun pc =>
                   Execute.row_distance (fst pc) (snd pc)
                   * Execute.Demand (snd pc)
                   * Gurobi.X Examples.answer_all_from_A
                       (Gurobi.y_var (Execute.Plant_ID (fst pc))
                          (Execute.Customer_ID (snd pc))))
                (Execute.row_pairs Examples.one_plant Examples.two_customers))
    /\ In (Execute.Print
             (Execute.WeightedAverageDistance
                (Py.Finite
                   (Gurobi.objVal mdl Examples.answer_all_from_A
                    / Py.Rsum (map Execute.Demand Examples.two_customers)))))
          evs
    /\ In (Execute.Print
             (Execute.TotalDemand
                (Py.Rsum (map Execute.Demand Examples.two_customers)))) evs
    /\ In (Execute.PlotNetwork lanes true "Solution Map"
             Execute.main_open_map_in_cell) evs
    /\ Py.Rsum (map Execute.Lane_Demand lanes)
       = Py.Rsum (map Execute.Demand Examples.two_customers).
Proof.
  destruct (weighted_average_distance_is_objective_over_total_demand
              Examples.rounds_above_one
              Execute.main_max_plants Execute.main_cost_per_mile
              Execute.main_min_cost Execute.main_open_map_in_cell
              Examples.one_plant Examples.two_customers true
              Examples.answer_all_from_A
              ExampleFacts.unique_ids_example
              ExampleFacts.two_customers_nonempty
              ExampleFacts.no_domain_error_example
              (ExampleFacts.reports_optimal_example _ _))
    as [mdl [evs [lanes [Hrun [Hobj [Hq [_ [Ht [Hp Hl]]]]]]]]].
  exists mdl, evs, lanes.
  split; [exact Hrun |]. split; [exact Hobj |].
  split; [apply Hq; simpl; lra |].
  split; [exact Ht |]. split; [exact Hp | exact Hl].
Defined.

(** ** The coverage fractions *)

Module FractionFacts.
Import Py Gurobi Execute ListFacts SetupFacts ModelFacts FeasibleFacts
       OutputFacts CoverageFacts KpiFacts.

Section Fractions.
Variables (plant_df : list Plant) (cust_df : list Customer).
Variable sol : solution.
Hypothesis Hdemand : forall c, In c cust_df -> 0 <= Demand c.

Let rows := map adf_row_of (served_pairs plant_df cust_df sol).



End Fractions.

End FractionFacts.



Module ZeroDemandFacts.
Import Py Gurobi Execute Examples.



End ZeroDemandFacts.


(** ** Statuses other than [OPTIMAL] *)

(** C7, as amended: for every status other than [OPTIMAL] that the solver
    reports to a run that has reached it, the run prints one line and ends
    with [sys.exit(1)], without KPI lines and without a lane table; the
    exit code is 1 whatever the status, and the printed line names the
    raw status only when it is none of [INF_OR_UNBD], [INFEASIBLE],
    [UNBOUNDED], which share one message.  The run reaches the solver when
    the identifiers are unique and no distance raises. *)
Theorem non_optimal_status_exits_with_code_1 :
  forall (math_domain_error : R -> R -> R -> R -> bool)
         (max_plants : Z) (cost_per_mile min_cost : R) (open_map_in_cell : bool)
         (plant_df : list Execute.Plant) (cust_df : list Execute.Customer)
         (auto_open_map : bool) (r : Gurobi.SolverResult),
    Gurobi.status r <> Gurobi.OPTIMAL ->
    (Execute.unique_ids plant_df cust_df ->
     Execute.no_domain_error math_domain_error plant_df cust_df ->
     exists mdl k,
       Execute.run_network_optimization_float math_domain_error max_plants
         cost_per_mile min_cost open_map_in_cell plant_df cust_df auto_open_map
       = Execute.Optimize mdl k)
    /\ (forall mdl k,
          Execute.run_network_optimization_float math_domain_error max_plants
            cost_per_mile min_cost open_map_in_cell plant_df cust_df
            auto_open_map
          = Execute.Optimize mdl k ->
          k r
          = ([Execute.Print
                (Execute.Text
                   (if existsb (Z.eqb (Gurobi.status r))
                         [Gurobi.INF_OR_UNBD; Gurobi.INFEASIBLE;
                          Gurobi.UNBOUNDED]
                    then "The model is either infeasible or unbounded!"
                    else "Status is " ++ Py.str (Gurobi.status r)
                           ++ ". Investigate!"))],
             Execute.SysExit 1)).
Proof.
  intros math_domain_error max_plants cost_per_mile min_cost open_map_in_cell
         plant_df cust_df auto_open_map r Hs.
  split.
  { intros Hids Hno.
    destruct (FloatFacts.run_float_submits math_domain_error plant_df cust_df
                cost_per_mile min_cost max_plants open_map_in_cell
                auto_open_map Hids Hno) as [mdl [k [_ Hrun]]].
    exists mdl, k. exact Hrun. }
  intros mdl k Hrun.
  destruct (FloatFacts.run_float_reaches _ _ _ _ _ _ _ _ mdl k Hrun)
    as [_ [Hrun' Hm]].
  apply (RunFacts.answers_continuation _ r mdl k _ _ Hrun').
  apply RunFacts.run_not_optimal; assumption.
Qed.

Lemma non_optimal_status_witness :
  exists mdl k,
    Execute.run_network_optimization_float Examples.rounds_above_one
      Execute.main_max_plants Execute.main_cost_per_mile Execute.main_min_cost
      Execute.main_open_map_in_cell Examples.one_plant Examples.two_customers
      true
    = Execute.Optimize mdl k
    /\ k Examples.answer_time_limit
       = ([Execute.Print (Execute.Text "Status is 9. Investigate!")],
          Execute.SysExit 1).
Proof.
  assert (Hs : Gurobi.status Examples.answer_time_limit <> Gurobi.OPTIMAL)
    by (simpl; unfold Gurobi.OPTIMAL; lia).
  destruct (non_optimal_status_exits_with_code_1 Examples.rounds_above_one
              Execute.main_max_plants Execute.main_cost_per_mile
              Execute.main_min_cost Execute.main_open_map_in_cell
              Examples.one_plant Examples.two_customers true
              Examples.answer_time_limit Hs) as [Hreach Hexit].
  destruct (Hreach ExampleFacts.unique_ids_example
              ExampleFacts.no_domain_error_example) as [mdl [k Hrun]].
  exists mdl, k. split; [exact Hrun |]. exact (Hexit mdl k Hrun).
Defined.

(** ** A plant that must and cannot be used *)

Module ConflictFacts.
Import Py Gurobi Execute FeasibleFacts Examples.

(** With a plant flagged both ways the model asks for [x = 1] and [x = 0]
    at once. *)
Lemma conflict_infeasible (max_plants : Z) (cost_per_mile min_cost : R)
    (plant_df : list Plant) (cust_df : list Customer) (mdl : Model) (p : Plant) :
  build_model max_plants cost_per_mile min_cost plant_df cust_df = Ok mdl ->
  In p plant_df -> Must_Use p = true -> Can_Use p = false ->
  forall sol, ~ feasible mdl sol.
Proof.
  intros Hm Hp Hmust Hcan sol Hf.
  pose proof (feasible_must_use _ _ _ _ _ _ _ Hm Hf p Hp Hmust) as H1.
  pose proof (feasible_cant_use _ _ _ _ _ _ _ Hm Hf p Hp Hcan) as H0.
  lra.
Qed.

Lemma unique_ids_conflicting : unique_ids conflicting one_customer.
Proof. split; simpl; repeat constructor; simpl; tauto. Qed.

Lemma no_domain_error_conflicting :
  no_domain_error rounds_above_one conflicting one_customer.
Proof.
  apply OppositeFacts.rounds_above_one_elsewhere.
  intros p [<- | []]. simpl. lra.
Qed.

End ConflictFacts.

(** C7, as stated, fails: the model of the table with the single plant C,
    flagged [MustUse=true] and [CanUse=false], has no feasible solution,
    and the solver reports it as [INFEASIBLE] or as [INF_OR_UNBD].  The
    two statuses differ, yet the run prints the same line and ends with
    the same exit code for both: what it surfaces is an exit with code 1
    that does not carry the raw status. *)
Lemma infeasible_statuses_exit_alike :
  Gurobi.status Examples.answer_infeasible
  <> Gurobi.status Examples.answer_inf_or_unbd
  /\ exists mdl k,
       Execute.run_network_optimization_float Examples.rounds_above_one
         Execute.main_max_plants Execute.main_cost_per_mile
         Execute.main_min_cost Execute.main_open_map_in_cell
         Examples.conflicting Examples.one_customer true
       = Execute.Optimize mdl k
       /\ (forall sol, ~ Gurobi.feasible mdl sol)
       /\ k Examples.answer_infeasible
          = ([Execute.Print
                (Execute.Text "The model is either infeasible or unbounded!")],
             Execute.SysExit 1)
       /\ k Examples.answer_inf_or_unbd
          = ([Execute.Print
                (Execute.Text "The model is either infeasible or unbounded!")],
             Execute.SysExit 1).
Proof.
  split; [simpl; unfold Gurobi.INFEASIBLE, Gurobi.INF_OR_UNBD; lia |].
  destruct (FloatFacts.run_float_submits Examples.rounds_above_one
              Examples.conflicting Examples.one_customer
              Execute.main_cost_per_mile Execute.main_min_cost
              Execute.main_max_plants Execute.main_open_map_in_cell true
              ConflictFacts.unique_ids_conflicting
              ConflictFacts.no_domain_error_conflicting)
    as [mdl [k [Hm Hrun]]].
  exists mdl, k. split; [exact Hrun |].
  split.
  { apply (ConflictFacts.conflict_infeasible _ _ _ _ _ _ Examples.plant_C Hm);
      [left; reflexivity | reflexivity | reflexivity]. }
  destruct (FloatFacts.run_float_reaches _ _ _ _ _ _ _ _ mdl k Hrun)
    as [_ [Hrun' _]].
  split.
  - apply (RunFacts.answers_continuation _ _ mdl k _ _ Hrun').
    apply (RunFacts.run_not_optimal _ _ _ _ _ _ _ mdl Examples.answer_infeasible Hm).
    simpl. unfold Gurobi.INFEASIBLE, Gurobi.OPTIMAL. lia.
  - apply (RunFacts.answers_continuation _ _ mdl k _ _ Hrun').
    apply (RunFacts.run_not_optimal _ _ _ _ _ _ _ mdl Examples.answer_inf_or_unbd Hm).
    simpl. unfold Gurobi.INF_OR_UNBD, Gurobi.OPTIMAL. lia.
Qed.

(** C6, as amended: an input with a plant flagged [MustUse=true] and
    [CanUse=false] is not rejected, no check of the two flags exists.
    When the run reaches the model, which it does when the identifiers
    are unique and no distance raises, the model is built with both
    [x[p] == 1] and [x[p] == 0], it has no feasible solution, it is
    submitted to the solver, and for every answer of a sound solver the
    run prints one line and ends with [sys.exit(1)]. *)
Theorem conflicting_flags_give_an_infeasible_model :
  forall (math_domain_error : R -> R -> R -> R -> bool)
         (max_plants : Z) (cost_per_mile min_cost : R) (open_map_in_cell : bool)
         (plant_df : list Execute.Plant) (cust_df : list Execute.Customer)
         (auto_open_map : bool) (p : Execute.Plant),
    In p plant_df ->
    Execute.Must_Use p = true ->
    Execute.Can_Use p = false ->
    (Execute.unique_ids plant_df cust_df ->
     Execute.no_domain_error math_domain_error plant_df cust_df ->
     exists mdl k,
       Execute.run_network_optimization_float math_domain_error max_plants
         cost_per_mile min_cost open_map_in_cell plant_df cust_df auto_open_map
       = Execute.Optimize mdl k)
    /\ (forall mdl k,
          Execute.run_network_optimization_float math_domain_error max_plants
            cost_per_mile min_cost open_map_in_cell plant_df cust_df
            auto_open_map
          = Execute.Optimize mdl k ->
          In (Gurobi.mkConstr "must_use" [Execute.Plant_ID p]
                (Gurobi.mkTempConstr
                   (Gurobi.of_var (Gurobi.x_var (Execute.Plant_ID p)))
                   Gurobi.EQUAL (Gurobi.of_const 1)))
             (Gurobi.Constrs mdl)
          /\ In (Gurobi.mkConstr "cant_use" [Execute.Plant_ID p]
                   (Gurobi.mkTempConstr
                      (Gurobi.of_var (Gurobi.x_var (Execute.Plant_ID p)))
                      Gurobi.EQUAL (Gurobi.of_const 0)))
                (Gurobi.Constrs mdl)
          /\ (forall sol, ~ Gurobi.feasible mdl sol)
          /\ (forall r, Gurobi.sound_answer mdl r ->
                exists msg,
                  k r = ([Execute.Print (Execute.Text msg)],
                         Execute.SysExit 1))).
Proof.
  intros math_domain_error max_plants cost_per_mile min_cost open_map_in_cell
         plant_df cust_df auto_open_map p Hp Hmust Hcan.
  split.
  { intros Hids Hno.
    destruct (FloatFacts.run_float_submits math_domain_error plant_df cust_df
                cost_per_mile min_cost max_plants open_map_in_cell
                auto_open_map Hids Hno) as [mdl [k [_ Hrun]]].
    exists mdl, k. exact Hrun. }
  intros mdl k Hrun.
  destruct (FloatFacts.run_float_reaches _ _ _ _ _ _ _ _ mdl k Hrun)
    as [_ [Hrun' Hm]].
  split; [apply (FeasibleFacts.In_must_use _ _ _ _ _ _ Hm); assumption |].
  split; [apply (FeasibleFacts.In_cant_use _ _ _ _ _ _ Hm); assumption |].
  assert (Hinf : forall sol, ~ Gurobi.feasible mdl sol)
    by (apply (ConflictFacts.conflict_infeasible _ _ _ _ _ _ p Hm); assumption).
  split; [exact Hinf |].
  intros r Hsound. eexists.
  apply (RunFacts.answers_continuation _ r mdl k _ _ Hrun').
  apply RunFacts.run_not_optimal; [exact Hm |].
  intros Hs. apply (Hinf (Gurobi.X r)). apply (Hsound Hs).
Qed.

Lemma conflicting_flags_witness :
  exists mdl k,
    Execute.run_network_optimization_float Examples.rounds_above_one
      Execute.main_max_plants Execute.main_cost_per_mile Execute.main_min_cost
      Execute.main_open_map_in_cell Examples.conflicting Examples.one_customer
      true
    = Execute.Optimize mdl k
    /\ In (Gurobi.mkConstr "must_use" [Execute.Plant_ID Examples.plant_C]
             (Gurobi.mkTempConstr
                (Gurobi.of_var (Gurobi.x_var (Execute.Plant_ID Examples.plant_C)))
                Gurobi.EQUAL (Gurobi.of_const 1)))
          (Gurobi.Constrs mdl)
    /\ In (Gurobi.mkConstr "cant_use" [Execute.Plant_ID Examples.plant_C]
             (Gurobi.mkTempConstr
                (Gurobi.of_var (Gurobi.x_var (Execute.Plant_ID Examples.plant_C)))
                Gurobi.EQUAL (Gurobi.of_const 0)))
          (Gurobi.Constrs mdl)
    /\ (forall sol, ~ Gurobi.feasible mdl sol)
    /\ (forall r, Gurobi.sound_answer mdl r ->
          exists msg,
            k r = ([Execute.Print (Execute.Text msg)], Execute.SysExit 1)).
Proof.
  destruct (conflicting_flags_give_an_infeasible_model
              Examples.rounds_above_one Execute.main_max_plants
              Execute.main_cost_per_mile Execute.main_min_cost
              Execute.main_open_map_in_cell Examples.conflicting
              Examples.one_customer true Examples.plant_C
              (or_introl eq_refl) eq_refl eq_refl) as [Hreach Hmodel].
  destruct (Hreach ConflictFacts.unique_ids_conflicting
              ConflictFacts.no_domain_error_conflicting) as [mdl [k Hrun]].
  exists mdl, k. split; [exact Hrun |]. exact (Hmodel mdl k Hrun).
Defined.

(** C6, as stated, fails: for the table with the single plant C, flagged
    [MustUse=true] and [CanUse=false], the run raises nothing before the
    solve; it submits a model and ends, after the answer [INFEASIBLE], with
    the exit of the status check. *)
Lemma conflicting_flags_reach_the_solver :
  In Examples.plant_C Examples.conflicting
  /\ Execute.Must_Use Examples.plant_C = true
  /\ Execute.Can_Use Examples.plant_C = false
  /\ (forall e,
        Execute.run_network_optimization_float Examples.rounds_above_one
          Execute.main_max_plants Execute.main_cost_per_mile
          Execute.main_min_cost Execute.main_open_map_in_cell
          Examples.conflicting Examples.one_customer true
        <> Execute.Fails e)
  /\ exists mdl,
       Execute.answers
         (Execute.run_network_optimization_float Examples.rounds_above_one
            Execute.main_max_plants Execute.main_cost_per_mile
            Execute.main_min_cost Execute.main_open_map_in_cell
            Examples.conflicting Examples.one_customer true)
         Examples.answer_infeasible mdl
         [Execute.Print
            (Execute.Text "The model is either infeasible or unbounded!")]
         (Execute.SysExit 1).
Proof.
  split; [simpl; left; reflexivity |].
  split; [reflexivity |]. split; [reflexivity |].
  rewrite (FloatFacts.run_float_eq Examples.rounds_above_one
             Examples.conflicting Examples.one_customer
             Execute.main_cost_per_mile Execute.main_min_cost
             Execute.main_max_plants Execute.main_open_map_in_cell true
             ConflictFacts.no_domain_error_conflicting).
  destruct (RunFacts.run_submits Execute.main_max_plants
              Execute.main_cost_per_mile Execute.main_min_cost
              Execute.main_open_map_in_cell Examples.conflicting
              Examples.one_customer true ConflictFacts.unique_ids_conflicting)
    as [mdl [k [Hm Hrun]]].
  split.
  - intros e He. rewrite Hrun in He. discriminate He.
  - exists mdl.
    apply (RunFacts.run_not_optimal _ _ _ _ _ _ _ mdl Examples.answer_infeasible Hm).
    simpl. unfold Gurobi.INFEASIBLE, Gurobi.OPTIMAL. lia.
Qed.

(** ** The objective *)

Module CostObjectiveFacts.
Import Py Gurobi Execute Examples.






End CostObjectiveFacts.




(** ** The plants of the lane table *)

Module CapFacts.
Import Py Gurobi Execute ListFacts SetupFacts ModelFacts FeasibleFacts
       OutputFacts CoverageFacts.

Section Cap.
Variable max_plants : Z.
Variables cost_per_mile min_cost : R.
Variables (plant_df : list Plant) (cust_df : list Customer).
Variable mdl : Model.
Variable sol : solution.
Hypothesis Hids : unique_ids plant_df cust_df.
Hypothesis Hbuild :
  build_model max_plants cost_per_mile min_cost plant_df cust_df = Ok mdl.
Hypothesis Hfeas : feasible mdl sol.









End Cap.

End CapFacts.


(** ** A must-use plant that serves nobody *)

Module MustUseFacts.
Import Py Gurobi Execute Examples.

Lemma unique_ids_two_plants : unique_ids two_plants near_B.
Proof.
  split; simpl.
  - repeat constructor; simpl; intuition discriminate.
  - repeat constructor. simpl. tauto.
Qed.

Lemma row_distance_M_W : row_distance plant_M customer_W = 3958.756 * PI * 1.
Proof. exact (UtilsFacts.calculate_distance_haversine_antipodal 1 "miles"). Qed.

Lemma row_distance_B_W : row_distance plant_B customer_W = 0.
Proof. exact (UtilsFacts.calculate_distance_haversine_same 0 180 _ _). Qed.

Lemma objective_two_plants (max_plants : Z) (cost_per_mile min_cost : R)
    (mdl : Model) (sol : solution) :
  build_model max_plants cost_per_mile min_cost two_plants near_B = Ok mdl ->
  getValue (Objective mdl) sol = 10 * (3958.756 * PI) * sol (y_var 1 10).
Proof.
  intros Hm.
  rewrite (ObjectiveFacts.objective_value _ _ _ _ _ unique_ids_two_plants
             mdl sol Hm).
  change (row_pairs two_plants near_B)
    with [(plant_M, customer_W); (plant_B, customer_W)].
  cbn [map Rsum fold_right fst snd].
  rewrite row_distance_M_W, row_distance_B_W.
  change (Demand customer_W) with 10.
  change (Plant_ID plant_M) with 1%Z.
  change (Customer_ID customer_W) with 10%Z.
  lra.
Qed.

Lemma feasible_two_plants (cost_per_mile min_cost : R) (mdl : Model) :
  build_model main_max_plants cost_per_mile min_cost two_plants near_B = Ok mdl ->
  feasible mdl serve_W_from_B.
Proof.
  intros Hm. apply ModelFacts.build_model_inv in Hm.
  destruct Hm as [_ [Hv [Hc _]]]. split.
  - rewrite Hv. simpl.
    intros v [<- | [<- | [<- | [<- | []]]]];
      unfold binary; simpl; lra.
  - rewrite Hc. simpl.
    intros c [<- | [<- | [<- | [<- | [<- | []]]]]];
      unfold holds, getValue; simpl; unfold main_max_plants; lra.
Qed.

(** Serving the customer from plant 2 is optimal, and it is the only
    optimal assignment: any feasible solution that serves it from the
    must-use plant 1 pays for half a great circle. *)
Lemma reports_optimal_two_plants (cost_per_mile min_cost : R) :
  reports_optimal main_max_plants cost_per_mile min_cost
    two_plants near_B answer_serve_W.
Proof.
  split; [reflexivity |].
  destruct (ModelFacts.build_model_ok main_max_plants cost_per_mile min_cost
              two_plants near_B unique_ids_two_plants) as [mdl Hm].
  exists mdl. split; [exact Hm |]. split.
  - apply (feasible_two_plants cost_per_mile min_cost). exact Hm.
  - intros sol' Hf'. simpl.
    rewrite !(objective_two_plants _ _ _ mdl _ Hm).
    change (serve_W_from_B (y_var 1 10)) with 0.
    assert (Hb : binary sol' (y_var 1 10)).
    { apply (FeasibleFacts.feasible_binary_y _ _ _ _ _ _ _ Hm Hf');
        simpl; auto. }
    pose proof PI_RGT_0 as Hpi.
    destruct Hb as [-> | ->]; nra.
Qed.


Lemma no_domain_error_two_plants :
  no_domain_error rounds_above_one two_plants near_B.
Proof.
  apply OppositeFacts.rounds_above_one_elsewhere.
  intros p [<- | [<- | []]]; simpl; lra.
Qed.

(** The table with the third plant, which cannot be used. *)
Lemma unique_ids_three_plants : unique_ids three_plants near_B.
Proof.
  split; simpl.
  - repeat constructor; simpl; intuition discriminate.
  - repeat constructor. simpl. tauto.
Qed.

Lemma no_domain_error_three_plants :
  no_domain_error rounds_above_one three_plants near_B.
Proof.
  apply OppositeFacts.rounds_above_one_elsewhere.
  intros p [<- | [<- | [<- | []]]]; simpl; lra.
Qed.




End MustUseFacts.




(* ===================================================================== *)
(** * Further properties of the great-circle distance *)
(* ===================================================================== *)

Module HaversineFacts.
Import Py Utils UtilsFacts.
Open Scope string_scope.

Lemma haversine_a_sym (lat1 lon1 lat2 lon2 : R) :
  haversine_a lat1 lon1 lat2 lon2 = haversine_a lat2 lon2 lat1 lon1.
Proof.
  unfold haversine_a.
  replace ((lat1 - lat2) / 2) with (- ((lat2 - lat1) / 2)) by lra.
  replace ((lon1 - lon2) / 2) with (- ((lon2 - lon1) / 2)) by lra.
  rewrite !sin_neg. ring.
Qed.

Lemma atan2_le_half_pi (y x : R) : 0 <= y -> 0 <= x -> atan2 y x <= PI / 2.
Proof.
  intros Hy Hx. unfold atan2. pose proof PI_RGT_0 as Hpi.
  destruct (Rlt_dec 0 x) as [Hx0 | Hx0].
  - pose proof (atan_bound (y / x)) as [_ H]. lra.
  - destruct (Rlt_dec x 0); [lra |].
    destruct (Rlt_dec 0 y); [lra |].
    destruct (Rlt_dec y 0); lra.
Qed.

(** The form with [asin] that the source keeps as a comment gives the
    value of the form with [atan2]. *)
Lemma asin_sqrt_atan2 (a : R) :
  0 <= a <= 1 -> asin (sqrt a) = atan2 (sqrt a) (sqrt (1 - a)).
Proof.
  intros [Ha0 Ha1]. destruct (Req_dec_T a 1) as [-> | Hne].
  - replace (1 - 1) with 0 by ring. rewrite sqrt_1, sqrt_0, asin_1.
    symmetry. apply atan2_1_0.
  - assert (Hlt : a < 1) by lra.
    assert (Hs : 0 < sqrt (1 - a)) by (apply sqrt_lt_R0; lra).
    assert (Hsa : 0 <= sqrt a) by apply sqrt_pos.
    assert (Hsa1 : sqrt a < 1).
    { rewrite <- sqrt_1. apply sqrt_lt_1; lra. }
    rewrite asin_atan by lra.
    rewrite (Rsqr_sqrt a Ha0).
    unfold atan2. destruct (Rlt_dec 0 (sqrt (1 - a))); [reflexivity | lra].
Qed.

Lemma earth_radius_kilometers (units : string) :
  str_in (lower units) kilometers_spellings = true ->
  earth_radius units = ([], 6371.00).
Proof.
  unfold earth_radius, kilometers_spellings. intros H.
  destruct (str_in (lower units) ["miles"; "mile"; "m"]) eqn:E.
  - exfalso. unfold str_in in *. simpl in E, H.
    rewrite !orb_false_r in E, H.
    repeat match goal with
           | H0 : (_ || _)%bool = true |- _ => apply orb_true_iff in H0; destruct H0
           end;
      repeat match goal with
             | H0 : String.eqb _ _ = true |- _ => apply String.eqb_eq in H0
             end;
      congruence.
  - rewrite H. reflexivity.
Qed.

Lemma earth_radius_miles_any_case (units : string) :
  str_in (lower units) miles_spellings = true ->
  earth_radius units = ([], 3958.756).
Proof.
  unfold earth_radius, miles_spellings. intros ->. reflexivity.
Qed.

End HaversineFacts.

(** X1: the distance does not depend on the order of the two points. *)
Theorem haversine_symmetric :
  forall (lat1 lon1 lat2 lon2 road_factor : R) (units : string),
    Utils.calculate_distance_haversine lat1 lon1 lat2 lon2 road_factor units
    = Utils.calculate_distance_haversine lat2 lon2 lat1 lon1 road_factor units.
Proof.
  intros. rewrite !UtilsFacts.calculate_distance_haversine_eq.
  rewrite (HaversineFacts.haversine_a_sym (Py.radians lat1)). reflexivity.
Qed.

(** X2: with a road factor that is not negative, the distance lies between
    0 and half the circumference of the sphere of the chosen radius, times
    the road factor. *)
Theorem haversine_between_zero_and_half_circumference :
  forall (lat1 lon1 lat2 lon2 road_factor : R) (units : string),
    0 <= road_factor ->
    0 <= snd (Utils.calculate_distance_haversine lat1 lon1 lat2 lon2
                road_factor units)
      <= snd (Utils.earth_radius units) * PI * road_factor.
Proof.
  intros lat1 lon1 lat2 lon2 road_factor units Hrf. split.
  - apply UtilsFacts.calculate_distance_haversine_nonneg. assumption.
  - rewrite UtilsFacts.calculate_distance_haversine_eq. simpl.
    pose proof (UtilsFacts.earth_radius_pos units) as Hr.
    set (a := Utils.haversine_a _ _ _ _).
    pose proof (HaversineFacts.atan2_le_half_pi (sqrt a) (sqrt (1 - a))
                  (sqrt_pos _) (sqrt_pos _)) as Hc.
    apply Rmult_le_compat_r; [assumption |].
    apply Rmult_le_compat_l; lra.
Qed.

Lemma haversine_between_witness :
  0 <= snd (Utils.calculate_distance_haversine 40 (-75) 34 (-118) 1 "miles")
    <= snd (Utils.earth_radius "miles") * PI * 1.
Proof.
  apply (haversine_between_zero_and_half_circumference 40 (-75) 34 (-118) 1 "miles").
  lra.
Defined.

(** X3: a point is at distance 0 from itself, for every road factor and
    every units argument. *)
Theorem haversine_zero_at_same_point :
  forall (lat lon road_factor : R) (units : string),
    snd (Utils.calculate_distance_haversine lat lon lat lon road_factor units) = 0.
Proof.
  intros. apply UtilsFacts.calculate_distance_haversine_same.
Qed.

(** X4: the alternative [c = 2 * asin(sqrt(a))] that the source keeps as a
    comment returns the same distance as the [atan2] form that is used. *)
Theorem haversine_asin_form_agrees :
  forall (lat1 lon1 lat2 lon2 road_factor : R) (units : string),
    snd (Utils.calculate_distance_haversine lat1 lon1 lat2 lon2 road_factor units)
    = snd (Utils.earth_radius units)
      * (2 * asin (sqrt (Utils.haversine_a (Py.radians lat1) (Py.radians lon1)
                           (Py.radians lat2) (Py.radians lon2))))
      * road_factor.
Proof.
  intros. rewrite UtilsFacts.calculate_distance_haversine_eq. simpl.
  rewrite (HaversineFacts.asin_sqrt_atan2 _ (UtilsFacts.haversine_a_range _ _ _ _)).
  reflexivity.
Qed.

(** X5: the units are recognized whatever their case.  A spelling of
    kilometers prints nothing and returns the distance in miles scaled by
    the ratio of the two radii, 6371 / 3958.756; a spelling of miles
    prints nothing and returns the distance of 'miles'. *)
Theorem haversine_units_any_case :
  forall (lat1 lon1 lat2 lon2 road_factor : R) (units : string),
    (Py.str_in (Py.lower units) Utils.kilometers_spellings = true ->
     Utils.calculate_distance_haversine lat1 lon1 lat2 lon2 road_factor units
     = ([], snd (Utils.calculate_distance_haversine lat1 lon1 lat2 lon2
                   road_factor "miles") * (6371 / 3958.756)))
    /\ (Py.str_in (Py.lower units) Utils.miles_spellings = true ->
        Utils.calculate_distance_haversine lat1 lon1 lat2 lon2 road_factor units
        = ([], snd (Utils.calculate_distance_haversine lat1 lon1 lat2 lon2
                      road_factor "miles"))).
Proof.
  intros lat1 lon1 lat2 lon2 road_factor units. split; intros H.
  - rewrite !UtilsFacts.calculate_distance_haversine_eq.
    rewrite (HaversineFacts.earth_radius_kilometers units H).
    rewrite UtilsFacts.earth_radius_miles. simpl. f_equal.
    rewrite !(Rmult_assoc _ _ road_factor).
    match goal with
    | |- _ * ?q = _ => generalize q
    end.
    intros q. lra.
  - rewrite !UtilsFacts.calculate_distance_haversine_eq.
    rewrite (HaversineFacts.earth_radius_miles_any_case units H).
    rewrite UtilsFacts.earth_radius_miles. reflexivity.
Qed.

Lemma haversine_units_any_case_witness :
  Utils.calculate_distance_haversine 40 (-75) 34 (-118) 1 "Km"
  = ([], snd (Utils.calculate_distance_haversine 40 (-75) 34 (-118) 1 "miles")
         * (6371 / 3958.756)).
Proof.
  apply (proj1 (haversine_units_any_case 40 (-75) 34 (-118) 1 "Km")).
  reflexivity.
Defined.

(* ===================================================================== *)
(** * Further properties of the model and of the run *)
(* ===================================================================== *)

Module ShapeFacts.
Import Py Gurobi Execute ListFacts SetupFacts ModelFacts.

Lemma length_ij_set (ps cs : list Z) :
  List.length (ij_set ps cs) = (List.length ps * List.length cs)%nat.
Proof.
  unfold ij_set. induction ps as [| i ps IH]; simpl; [reflexivity |].
  rewrite length_app, length_map, IH. reflexivity.
Qed.

Lemma NoDup_vars (ps cs : list Z) :
  NoDup ps -> NoDup cs ->
  NoDup (map x_var ps ++ map (fun k => y_var (fst k) (snd k)) (y_keys ps cs))%list.
Proof.
  intros Hp Hc. apply NoDup_app.
  - apply Injective_map_NoDup; [| assumption].
    intros a b E. inversion E. reflexivity.
  - apply Injective_map_NoDup; [| apply NoDup_ij_set; assumption].
    intros [a1 a2] [b1 b2] E. simpl in E. inversion E. reflexivity.
  - intros v Hx Hy. apply in_map_iff in Hx. destruct Hx as [i [<- _]].
    apply in_map_iff in Hy. destruct Hy as [k [E _]]. discriminate E.
Qed.

End ShapeFacts.

(** X6: for every pair of tables with unique identifiers (empty tables
    included) whose distances raise nothing, the model is built and the run
    reaches [mdl.optimize()].  The model has one variable [x] for each
    plant and one variable [y] for each pair of a plant and a customer, no
    variable twice, and one constraint for each customer, one for the cap,
    one for each pair, and one for each must-use and each unavailable
    plant. *)
Theorem model_is_built_with_its_shape :
  forall (math_domain_error : R -> R -> R -> R -> bool)
         (max_plants : Z) (cost_per_mile min_cost : R) (open_map_in_cell : bool)
         (plant_df : list Execute.Plant) (cust_df : list Execute.Customer)
         (auto_open_map : bool),
    Execute.unique_ids plant_df cust_df ->
    Execute.no_domain_error math_domain_error plant_df cust_df ->
    exists mdl k,
      Execute.run_network_optimization_float math_domain_error max_plants
        cost_per_mile min_cost open_map_in_cell plant_df cust_df auto_open_map
      = Execute.Optimize mdl k
      /\ NoDup (Gurobi.Vars mdl)
      /\ List.length (Gurobi.Vars mdl)
         = (List.length plant_df
            + List.length plant_df * List.length cust_df)%nat
      /\ List.length (Gurobi.Constrs mdl)
         = (List.length cust_df + 1
            + List.length plant_df * List.length cust_df
            + List.length (filter Execute.Must_Use plant_df)
            + List.length (filter (fun p => negb (Execute.Can_Use p)) plant_df))%nat.
Proof.
  intros math_domain_error max_plants cost_per_mile min_cost open_map_in_cell
         plant_df cust_df auto_open_map Hids Hno.
  destruct (FloatFacts.run_float_submits math_domain_error plant_df cust_df
              cost_per_mile min_cost max_plants open_map_in_cell
              auto_open_map Hids Hno) as [mdl [k [Hm Hrun]]].
  exists mdl, k. split; [exact Hrun |].
  destruct (ModelFacts.build_model_inv _ _ _ _ _ _ Hm) as [_ [Hv [Hc _]]].
  rewrite Hv, Hc.
  assert (Lp : List.length (Execute.plnt plant_df) = List.length plant_df)
    by (rewrite (SetupFacts.plnt_unique_ids _ (proj1 Hids)); apply length_map).
  assert (Lc : List.length (Execute.cust cust_df) = List.length cust_df)
    by (rewrite (SetupFacts.cust_unique_ids _ (proj2 Hids)); apply length_map).
  split; [| split].
  - apply ShapeFacts.NoDup_vars;
      [apply SetupFacts.NoDup_plnt | apply SetupFacts.NoDup_cust].
  - rewrite length_app, !length_map.
    change (Execute.y_keys (Execute.plnt plant_df) (Execute.cust cust_df))
      with (Execute.ij_set (Execute.plnt plant_df) (Execute.cust cust_df)).
    rewrite ShapeFacts.length_ij_set, Lp, Lc. reflexivity.
  - unfold Execute.cust_coverage, Execute.rel_x_y, Execute.must_use,
      Execute.cant_use, Execute.must_use_plants, Execute.unavailable_plants.
    rewrite !length_app, !length_map, ShapeFacts.length_ij_set, Lp, Lc.
    simpl. lia.
Qed.

Lemma model_is_built_witness :
  exists mdl k,
    Execute.run_network_optimization_float Examples.rounds_above_one
      Execute.main_max_plants Execute.main_cost_per_mile Execute.main_min_cost
      Execute.main_open_map_in_cell Examples.three_plants Examples.near_B true
    = Execute.Optimize mdl k
    /\ NoDup (Gurobi.Vars mdl)
    /\ List.length (Gurobi.Vars mdl)
       = (List.length Examples.three_plants
          + List.length Examples.three_plants * List.length Examples.near_B)%nat
    /\ List.length (Gurobi.Constrs mdl)
       = (List.length Examples.near_B + 1
          + List.length Examples.three_plants * List.length Examples.near_B
          + List.length (filter Execute.Must_Use Examples.three_plants)
          + List.length (filter (fun p => negb (Execute.Can_Use p))
                           Examples.three_plants))%nat.
Proof.
  apply (model_is_built_with_its_shape Examples.rounds_above_one
           Execute.main_max_plants Execute.main_cost_per_mile
           Execute.main_min_cost Execute.main_open_map_in_cell
           Examples.three_plants Examples.near_B true).
  - exact MustUseFacts.unique_ids_three_plants.
  - exact MustUseFacts.no_domain_error_three_plants.
Defined.

(** X7: [generate_outputs] raises an [IndexError], after printing the first
    rule only, when a key of [x] with a value above 0.5 is the id of no row
    of the plant table (the [.iloc[0]] of the city lookup finds nothing). *)
Theorem generate_outputs_raises_on_unknown_open_plant :
  forall (plant_df : list Execute.Plant) (cust_df dmd : list Execute.Customer)
         (dist : list Execute.DistCostRow) (total_weighted_dist : Gurobi.LinExpr)
         (x : list Z) (y : list (Z * Z)) (sol : Gurobi.solution) (k : Z),
    In k x ->
    0.5 < sol (Gurobi.x_var k) ->
    (forall p, In p plant_df -> Execute.Plant_ID p <> k) ->
    Execute.generate_outputs plant_df cust_df dist dmd total_weighted_dist x y sol
    = ([Execute.rule], Execute.Raise Execute.IndexError).
Proof.
  intros plant_df cust_df dmd dist twd x y sol k Hk Hopen Hnone.
  unfold Execute.generate_outputs.
  assert (E : Execute._opt_plants plant_df x sol = Execute.Raise Execute.IndexError).
  { unfold Execute._opt_plants. apply ModelFacts.mapM_raise.
    - intros a e' H. unfold Execute.city_of in H.
      destruct (map Execute.City _); [inversion H; reflexivity | discriminate H].
    - exists k. split.
      + unfold Execute.open_plants. apply filter_In. split; [assumption |].
        apply OutputFacts.Rltb_half_true. assumption.
      + unfold Execute.city_of.
        rewrite (ListFacts.filter_none _ plant_df); [reflexivity |].
        intros p Hp. apply Z.eqb_neq. apply Hnone. assumption. }
  rewrite E. reflexivity.
Qed.

Lemma generate_outputs_raises_witness :
  Execute.generate_outputs Examples.one_plant Examples.two_customers
    [] Examples.two_customers (Gurobi.quicksum []) [7%Z] []
    (fun _ => 1)
  = ([Execute.rule], Execute.Raise Execute.IndexError).
Proof.
  apply (generate_outputs_raises_on_unknown_open_plant Examples.one_plant
           Examples.two_customers Examples.two_customers [] (Gurobi.quicksum [])
           [7%Z] [] (fun _ => 1) 7%Z).
  - simpl. left. reflexivity.
  - lra.
  - simpl. intros p [<- | []]. simpl. lia.
Defined.

(** X8: for tables with unique identifiers whose distances raise nothing,
    whatever the solver answers, the run ends in one of three ways.  After
    the status [OPTIMAL] with a value of [y] above 0.5 it returns, having
    printed nine lines and plotted the lane table as its last action.
    After the status [OPTIMAL] with no value of [y] above 0.5 it prints
    the same nine lines and ends with the [ValueError] of the merge of the
    lane table, without a plot; this is the case of a table without
    customers, and it does not arise when there is a customer and the
    values are a feasible solution.  After any other status it prints one
    line, plots nothing and exits with code 1. *)
Theorem run_returns_raises_or_exits :
  forall (math_domain_error : R -> R -> R -> R -> bool)
         (max_plants : Z) (cost_per_mile min_cost : R) (open_map_in_cell : bool)
         (plant_df : list Execute.Plant) (cust_df : list Execute.Customer)
         (auto_open_map : bool) (r : Gurobi.SolverResult),
    Execute.unique_ids plant_df cust_df ->
    Execute.no_domain_error math_domain_error plant_df cust_df ->
    let assigned :=
      Execute.assigned_list
        (Execute.y_keys (Execute.plnt plant_df) (Execute.cust cust_df))
        (Gurobi.X r) in
    exists mdl evs o,
      Execute.answers
        (Execute.run_network_optimization_float math_domain_error max_plants
           cost_per_mile min_cost open_map_in_cell plant_df cust_df
           auto_open_map)
        r mdl evs o
      /\ ((Gurobi.status r = Gurobi.OPTIMAL
           /\ assigned <> []
           /\ o = Execute.Returned
           /\ exists printed lanes,
                evs = (map Execute.Print printed
                       ++ [Execute.PlotNetwork lanes auto_open_map
                             "Solution Map" open_map_in_cell])%list
                /\ List.length printed = 9%nat)
          \/ (Gurobi.status r = Gurobi.OPTIMAL
              /\ assigned = []
              /\ o = Execute.Uncaught Execute.ValueError
              /\ exists printed,
                   evs = map Execute.Print printed
                   /\ List.length printed = 9%nat)
          \/ (Gurobi.status r <> Gurobi.OPTIMAL
              /\ o = Execute.SysExit 1
              /\ exists msg, evs = [Execute.Print (Execute.Text msg)]))
      /\ (cust_df = [] -> assigned = [])
      /\ (cust_df <> [] -> Gurobi.feasible mdl (Gurobi.X r) -> assigned <> []).
Proof.
  intros math_domain_error max_plants cost_per_mile min_cost open_map_in_cell
         plant_df cust_df auto_open_map r Hids Hno. cbv zeta.
  rewrite (FloatFacts.run_float_eq math_domain_error plant_df cust_df
             cost_per_mile min_cost max_plants open_map_in_cell auto_open_map
             Hno).
  destruct (ModelFacts.build_model_ok max_plants cost_per_mile min_cost
              plant_df cust_df Hids) as [mdl Hm].
  pose proof (OutputFacts.assigned_list_served plant_df cust_df (Gurobi.X r)
                Hids) as Hserved.
  cbv zeta in Hserved.
  remember (Execute.assigned_list
              (Execute.y_keys (Execute.plnt plant_df) (Execute.cust cust_df))
              (Gurobi.X r)) as assigned eqn:Ea.
  assert (Hempty : cust_df = [] -> assigned = []).
  { intros ->. rewrite Hserved. unfold Execute.served_pairs, Execute.row_pairs.
    clear. induction plant_df as [| p l IH]; [reflexivity | exact IH]. }
  assert (Hfull : cust_df <> [] -> Gurobi.feasible mdl (Gurobi.X r) ->
                  assigned <> []).
  { intros Hne Hf He. rewrite Hserved in He. apply map_eq_nil in He.
    apply (CoverageFacts.served_pairs_nonempty _ _ _ _ _ _ _ Hids Hm Hf Hne He). }
  destruct (Z.eq_dec (Gurobi.status r) Gurobi.OPTIMAL) as [Hs | Hs].
  - assert (Hcase : assigned = []
                    \/ (assigned <> []
                        /\ exists l, Execute.lanes assigned plant_df cust_df cust_df
                                     = Execute.Ok l)).
    { clear. destruct assigned as [| a l]; [left; reflexivity |].
      right. split; [discriminate |]. eexists. reflexivity. }
    destruct Hcase as [He | [Hne [l Hl]]].
    + destruct (RunFacts.run_optimal_raises max_plants cost_per_mile min_cost
                  open_map_in_cell plant_df cust_df auto_open_map mdl r
                  Execute.ValueError Hm Hs) as [cities Hrun].
      { rewrite <- Ea, He. reflexivity. }
      cbv zeta in Hrun.
      exists mdl. eexists. exists (Execute.Uncaught Execute.ValueError).
      split; [exact Hrun |]. split; [| split; assumption].
      right. left. split; [exact Hs |]. split; [exact He |].
      split; [reflexivity |].
      eexists [_; _; _; _; _; _; _; _; _]. split; reflexivity.
    + destruct (RunFacts.run_optimal max_plants cost_per_mile min_cost
                  open_map_in_cell plant_df cust_df auto_open_map mdl r
                  l Hm Hs) as [cities Hrun].
      { rewrite <- Ea. exact Hl. }
      cbv zeta in Hrun.
      exists mdl. eexists. exists Execute.Returned.
      split; [exact Hrun |]. split; [| split; assumption].
      left. split; [exact Hs |]. split; [exact Hne |].
      split; [reflexivity |].
      eexists [_; _; _; _; _; _; _; _; _]. eexists.
      split; reflexivity.
  - exists mdl. eexists. exists (Execute.SysExit 1).
    split; [apply RunFacts.run_not_optimal; assumption |].
    split; [| split; assumption].
    right. right. split; [exact Hs |]. split; [reflexivity |].
    eexists. reflexivity.
Qed.

Lemma run_returns_raises_or_exits_witness :
  let assigned :=
    Execute.assigned_list
      (Execute.y_keys (Execute.plnt Examples.one_plant)
         (Execute.cust Examples.two_customers))
      (Gurobi.X Examples.answer_all_from_A) in
  exists mdl evs o,
    Execute.answers
      (Execute.run_network_optimization_float Examples.rounds_above_one
         Execute.main_max_plants Execute.main_cost_per_mile
         Execute.main_min_cost Execute.main_open_map_in_cell
         Examples.one_plant Examples.two_customers true)
      Examples.answer_all_from_A mdl evs o
    /\ ((Gurobi.status Examples.answer_all_from_A = Gurobi.OPTIMAL
         /\ assigned <> []
         /\ o = Execute.Returned
         /\ exists printed lanes,
              evs = (map Execute.Print printed
                     ++ [Execute.PlotNetwork lanes true "Solution Map"
                           Execute.main_open_map_in_cell])%list
              /\ List.length printed = 9%nat)
        \/ (Gurobi.status Examples.answer_all_from_A = Gurobi.OPTIMAL
            /\ assigned = []
            /\ o = Execute.Uncaught Execute.ValueError
            /\ exists printed,
                 evs = map Execute.Print printed
                 /\ List.length printed = 9%nat)
        \/ (Gurobi.status Examples.answer_all_from_A <> Gurobi.OPTIMAL
            /\ o = Execute.SysExit 1
            /\ exists msg, evs = [Execute.Print (Execute.Text msg)]))
    /\ (Examples.two_customers = [] -> assigned = [])
    /\ (Examples.two_customers <> [] ->
        Gurobi.feasible mdl (Gurobi.X Examples.answer_all_from_A) ->
        assigned <> []).
Proof.
  apply (run_returns_raises_or_exits Examples.rounds_above_one
           Execute.main_max_plants Execute.main_cost_per_mile
           Execute.main_min_cost Execute.main_open_map_in_cell
           Examples.one_plant Examples.two_customers true
           Examples.answer_all_from_A).
  - exact ExampleFacts.unique_ids_example.
  - exact ExampleFacts.no_domain_error_example.
Defined.

(** ** When the model has a feasible solution *)

Module FeasibilityFacts.
Import Py Gurobi Execute ListFacts SetupFacts ModelFacts FeasibleFacts OutputFacts.

Lemma Rsum_indicator {A : Type} (f : A -> bool) (l : list A) :
  Rsum (map (fun a => if f a then 1 else 0) l) = INR (List.length (filter f l)).
Proof.
  induction l as [| a l IH]; simpl; [reflexivity |].
  destruct (f a); rewrite IH; [simpl List.length; rewrite S_INR |]; lra.
Qed.

Lemma length_filter_le {A : Type} (f g : A -> bool) (l : list A) :
  (forall a, In a l -> f a = true -> g a = true) ->
  (List.length (filter f l) <= List.length (filter g l))%nat.
Proof.
  induction l as [| a l IH]; intros H; simpl; [lia |].
  assert (IH' := IH (fun b Hb => H b (or_intror Hb))).
  destruct (f a) eqn:Ef.
  - rewrite (H a (or_introl eq_refl) Ef). simpl. lia.
  - destruct (g a); simpl; lia.
Qed.

Lemma length_filter_or {A : Type} (f g : A -> bool) (l : list A) :
  (List.length (filter (fun a => f a || g a) l)
   <= List.length (filter f l) + List.length (filter g l))%nat.
Proof.
  induction l as [| a l IH]; simpl; [lia |].
  destruct (f a), (g a); simpl; lia.
Qed.

Lemma length_filter_or_disjoint {A : Type} (f g : A -> bool) (l : list A) :
  (forall a, In a l -> f a = true -> g a = false) ->
  List.length (filter (fun a => f a || g a) l)
  = (List.length (filter f l) + List.length (filter g l))%nat.
Proof.
  induction l as [| a l IH]; intros H; simpl; [reflexivity |].
  assert (IH' := IH (fun b Hb => H b (or_intror Hb))).
  destruct (f a) eqn:Ef.
  - rewrite (H a (or_introl eq_refl) Ef). simpl. lia.
  - destruct (g a); simpl; lia.
Qed.

Lemma exists_one_of_sum_one {A : Type} (v : A -> R) (l : list A) :
  (forall a, In a l -> v a = 0 \/ v a = 1) ->
  Rsum (map v l) = 1 -> exists a, In a l /\ v a = 1.
Proof.
  induction l as [| a l IH]; intros Hb Hs; simpl in *; [lra |].
  destruct (Hb a (or_introl eq_refl)) as [E | E].
  - destruct IH as [b [Hin Hv]]; [auto | lra |]. exists b. auto.
  - exists a. auto.
Qed.

Lemma Rsum_ge_indicator {A : Type} (f : A -> bool) (v : A -> R) (l : list A) :
  (forall a, In a l -> 0 <= v a) ->
  (forall a, In a l -> f a = true -> v a = 1) ->
  INR (List.length (filter f l)) <= Rsum (map v l).
Proof.
  induction l as [| a l IH]; intros H0 H1; simpl; [lra |].
  assert (IH' := IH (fun b Hb => H0 b (or_intror Hb))
                    (fun b Hb => H1 b (or_intror Hb))).
  pose proof (H0 a (or_introl eq_refl)) as Ha.
  destruct (f a) eqn:Ef.
  - rewrite (H1 a (or_introl eq_refl) Ef). simpl List.length. rewrite S_INR. lra.
  - lra.
Qed.

Lemma Rsum_single_one (s : Z) (l : list Z) :
  NoDup l -> In s l ->
  Rsum (map (fun i => if (i =? s)%Z then 1 else 0) l) = 1.
Proof.
  intros Hnd Hin.
  rewrite (Rsum_indicator (fun i => (i =? s)%Z)).
  rewrite (filter_key_single (fun z => z) l s); [reflexivity | | assumption].
  rewrite map_id. assumption.
Qed.

Section Plants.
Variable plant_df : list Plant.
Hypothesis Hnd : NoDup (map Plant_ID plant_df).

(** With unique ids, a must-use row with the id of [p] is [p] itself. *)
Lemma must_use_id (p : Plant) :
  In p plant_df ->
  existsb (fun q => Must_Use q && (Plant_ID q =? Plant_ID p)%Z) plant_df
  = Must_Use p.
Proof.
  intros Hp.
  destruct (existsb _ plant_df) eqn:E.
  - apply existsb_exists in E. destruct E as [q [Hq Hmq]].
    apply andb_true_iff in Hmq. destruct Hmq as [Hm Hid].
    apply Z.eqb_eq in Hid.
    rewrite <- (key_injective Plant_ID plant_df q p Hnd Hq Hp Hid). auto.
  - destruct (Must_Use p) eqn:Em; [| reflexivity].
    assert (Hex : existsb (fun q => Must_Use q && (Plant_ID q =? Plant_ID p)%Z)
                    plant_df = true).
    { apply existsb_exists. exists p. rewrite Em, Z.eqb_refl. auto. }
    congruence.
Qed.

Lemma serve_all_from_x (s p : Plant) :
  In p plant_df ->
  serve_all_from plant_df (Plant_ID s) (x_var (Plant_ID p))
  = if (Plant_ID p =? Plant_ID s)%Z || Must_Use p then 1 else 0.
Proof.
  intros Hp. unfold serve_all_from. rewrite (must_use_id p Hp). reflexivity.
Qed.

(** The number of plants that [serve_all_from] opens. *)
Lemma serve_all_from_opened (s : Plant) :
  In s plant_df ->
  (List.length (filter (fun p => (Plant_ID p =? Plant_ID s)%Z || Must_Use p)
                       plant_df)
   <= List.length (filter Must_Use plant_df)
      + (if Must_Use s then 0 else 1))%nat.
Proof.
  intros Hs. destruct (Must_Use s) eqn:Em.
  - rewrite Nat.add_0_r. apply length_filter_le. intros p Hp H.
    apply orb_true_iff in H. destruct H as [H | H]; [| exact H].
    apply Z.eqb_eq in H.
    rewrite (key_injective Plant_ID plant_df p s Hnd Hp Hs H). exact Em.
  - pose proof (length_filter_or (fun p => (Plant_ID p =? Plant_ID s)%Z)
                  Must_Use plant_df) as H.
    rewrite (filter_key_single Plant_ID plant_df s Hnd Hs) in H.
    simpl in H. lia.
Qed.

Lemma opened_at_least (s : Plant) :
  In s plant_df ->
  (List.length (filter Must_Use plant_df) + (if Must_Use s then 0 else 1)
   <= List.length (filter (fun p => Must_Use p || (Plant_ID p =? Plant_ID s)%Z)
                          plant_df))%nat.
Proof.
  intros Hs. destruct (Must_Use s) eqn:Em.
  - rewrite Nat.add_0_r. apply length_filter_le. intros p _ ->. reflexivity.
  - rewrite length_filter_or_disjoint.
    + rewrite (filter_key_single Plant_ID plant_df s Hnd Hs). simpl. lia.
    + intros p Hp Hm. apply Z.eqb_neq. intros E.
      rewrite (key_injective Plant_ID plant_df p s Hnd Hp Hs E) in Hm.
      congruence.
Qed.

End Plants.

End FeasibilityFacts.

Module FeasibilityProof.
Import Py Gurobi Execute ListFacts SetupFacts ModelFacts FeasibleFacts
       OutputFacts FeasibilityFacts.

Section Characterisation.
Variable max_plants : Z.
Variables cost_per_mile min_cost : R.
Variables (plant_df : list Plant) (cust_df : list Customer).
Variable mdl : Model.
Hypothesis Hnd : NoDup (map Plant_ID plant_df).
Hypothesis Hbuild :
  build_model max_plants cost_per_mile min_cost plant_df cust_df = Ok mdl.

Let ps := plnt plant_df.
Let cs := cust cust_df.

Lemma serve_all_from_feasible (s : Plant) :
  In s plant_df -> Can_Use s = true ->
  (forall p, In p plant_df -> Must_Use p = true -> Can_Use p = true) ->
  room_for max_plants plant_df s ->
  feasible mdl (serve_all_from plant_df (Plant_ID s)).
Proof.
  intros Hs Hcan Hflags Hroom.
  destruct (build_model_inv _ _ _ _ _ _ Hbuild) as [_ [Hv [Hc _]]].
  fold ps cs in Hv, Hc.
  assert (Hsps : In (Plant_ID s) ps) by (apply In_plnt; exists s; auto).
  split.
  - intros v _. unfold binary, serve_all_from.
    destruct v as [i | i j];
      match goal with
      | |- context [if ?c then _ else _] => destruct c
      end; auto.
  - intros c Hin. rewrite Hc in Hin.
    apply in_app_or in Hin. destruct Hin as [Hin | Hin].
    { unfold cust_coverage in Hin. apply in_map_iff in Hin.
      destruct Hin as [j [<- Hj]]. unfold holds. simpl.
      rewrite (y_sum_star_eq ps cs j (NoDup_cust cust_df) Hj).
      rewrite getValue_quicksum_ones, getValue_of_const.
      apply (Rsum_single_one (Plant_ID s) ps (NoDup_plnt plant_df) Hsps). }
    apply in_app_or in Hin. destruct Hin as [Hin | Hin].
    { destruct Hin as [<- | []]. unfold holds, max_num_plants, x_sum. simpl.
      rewrite getValue_quicksum_ones, getValue_of_const.
      unfold ps. rewrite (plnt_unique_ids _ Hnd), map_map.
      rewrite (Rsum_map_ext _
                 (fun p => if (Plant_ID p =? Plant_ID s)%Z || Must_Use p
                           then 1 else 0))
        by (intros p Hp; apply (serve_all_from_x plant_df Hnd s p Hp)).
      rewrite (Rsum_indicator
                 (fun p => (Plant_ID p =? Plant_ID s)%Z || Must_Use p)).
      rewrite INR_IZR_INZ. apply IZR_le.
      pose proof (serve_all_from_opened plant_df Hnd s Hs) as Hle.
      unfold room_for in Hroom. destruct (Must_Use s); lia. }
    apply in_app_or in Hin. destruct Hin as [Hin | Hin].
    { unfold rel_x_y in Hin. apply in_map_iff in Hin.
      destruct Hin as [[i j] [<- _]]. unfold holds. simpl.
      rewrite !getValue_of_var. unfold serve_all_from.
      destruct (i =? Plant_ID s)%Z; simpl; [lra |].
      destruct (existsb _ plant_df); lra. }
    apply in_app_or in Hin. destruct Hin as [Hin | Hin].
    { unfold must_use, must_use_plants in Hin. rewrite map_map in Hin.
      apply in_map_iff in Hin. destruct Hin as [p [<- Hp]].
      apply filter_In in Hp. destruct Hp as [Hp Hm].
      unfold holds. simpl. rewrite getValue_of_var, getValue_of_const.
      rewrite (serve_all_from_x plant_df Hnd s p Hp), Hm, orb_true_r.
      reflexivity. }
    { unfold cant_use, unavailable_plants in Hin. rewrite map_map in Hin.
      apply in_map_iff in Hin. destruct Hin as [p [<- Hp]].
      apply filter_In in Hp. destruct Hp as [Hp Hn].
      apply negb_true_iff in Hn.
      unfold holds. simpl. rewrite getValue_of_var, getValue_of_const.
      rewrite (serve_all_from_x plant_df Hnd s p Hp).
      assert (Hm : Must_Use p = false).
      { destruct (Must_Use p) eqn:Em; [| reflexivity].
        rewrite (Hflags p Hp Em) in Hn. discriminate Hn. }
      assert (Hid : (Plant_ID p =? Plant_ID s)%Z = false).
      { apply Z.eqb_neq. intros E.
        rewrite (key_injective Plant_ID plant_df p s Hnd Hp Hs E) in Hn.
        congruence. }
      rewrite Hm, Hid. reflexivity. }
Qed.

Lemma feasible_needs_room (sol : solution) :
  cust_df <> [] -> feasible mdl sol ->
  (forall p, In p plant_df -> Must_Use p = true -> Can_Use p = true)
  /\ exists s, In s plant_df /\ Can_Use s = true /\ room_for max_plants plant_df s.
Proof.
  intros Hne Hf. split.
  - intros p Hp Hm. destruct (Can_Use p) eqn:Ec; [reflexivity |].
    pose proof (feasible_must_use _ _ _ _ _ _ _ Hbuild Hf p Hp Hm).
    pose proof (feasible_cant_use _ _ _ _ _ _ _ Hbuild Hf p Hp Ec).
    lra.
  - assert (Hex : exists c0, In c0 cust_df).
    { clear - Hne. destruct cust_df as [| c0 rest];
        [contradiction | exists c0; left; reflexivity]. }
    destruct Hex as [c0 Hc0].
    assert (Hj : In (Customer_ID c0) cs) by (apply In_cust; exists c0; auto).
    pose proof (feasible_coverage _ _ _ _ _ _ _ Hbuild Hf _ Hj) as Hcov.
    destruct (exists_one_of_sum_one
                (fun i => sol (y_var i (Customer_ID c0))) ps) as [i [Hi Hy]].
    { intros i Hi. apply (feasible_binary_y _ _ _ _ _ _ _ Hbuild Hf i _ Hi Hj). }
    { exact Hcov. }
    pose proof Hi as Hi'. apply In_plnt in Hi'. destruct Hi' as [s [Hs Hid]].
    pose proof (feasible_linking _ _ _ _ _ _ _ Hbuild Hf _ _ Hi Hj) as Hlink.
    assert (Hx : sol (x_var (Plant_ID s)) = 1).
    { rewrite Hid.
      destruct (feasible_binary_x _ _ _ _ _ _ _ Hbuild Hf i Hi) as [E | E]; lra. }
    exists s. split; [exact Hs |]. split.
    + destruct (Can_Use s) eqn:Ec; [reflexivity |].
      pose proof (feasible_cant_use _ _ _ _ _ _ _ Hbuild Hf s Hs Ec). lra.
    + unfold room_for.
      pose proof (feasible_cap _ _ _ _ _ _ _ Hbuild Hf) as Hcap.
      rewrite (plnt_unique_ids _ Hnd), map_map in Hcap.
      pose proof (Rsum_ge_indicator
                    (fun p => Must_Use p || (Plant_ID p =? Plant_ID s)%Z)
                    (fun p => sol (x_var (Plant_ID p))) plant_df) as Hge.
      assert (Hcount :
                INR (List.length
                       (filter (fun p => Must_Use p
                                         || (Plant_ID p =? Plant_ID s)%Z)
                               plant_df))
                <= IZR max_plants).
      { eapply Rle_trans; [apply Hge | exact Hcap].
        - intros p Hp.
          assert (Hpi : In (Plant_ID p) ps) by (apply In_plnt; exists p; auto).
          destruct (feasible_binary_x _ _ _ _ _ _ _ Hbuild Hf _ Hpi); lra.
        - intros p Hp H. apply orb_true_iff in H. destruct H as [H | H].
          + apply (feasible_must_use _ _ _ _ _ _ _ Hbuild Hf p Hp H).
          + apply Z.eqb_eq in H. rewrite H. exact Hx. }
      rewrite INR_IZR_INZ in Hcount. apply le_IZR in Hcount.
      pose proof (opened_at_least plant_df Hnd s Hs) as Hle.
      destruct (Must_Use s); lia.
Qed.

End Characterisation.

End FeasibilityProof.

(** X9: with unique identifiers, at least one customer and distances that
    raise nothing, the run hands a model to the solver, and that model has
    a feasible solution exactly when no plant is flagged both must-use and
    unavailable and some available plant can be opened within the cap next
    to the must-use plants (it is one of them, or their number is below
    [max_plants]). *)
Theorem model_feasible_iff_room_for_an_available_plant :
  forall (math_domain_error : R -> R -> R -> R -> bool)
         (max_plants : Z) (cost_per_mile min_cost : R) (open_map_in_cell : bool)
         (plant_df : list Execute.Plant) (cust_df : list Execute.Customer)
         (auto_open_map : bool),
    Execute.unique_ids plant_df cust_df ->
    cust_df <> [] ->
    Execute.no_domain_error math_domain_error plant_df cust_df ->
    exists mdl k,
      Execute.run_network_optimization_float math_domain_error max_plants
        cost_per_mile min_cost open_map_in_cell plant_df cust_df auto_open_map
      = Execute.Optimize mdl k
      /\ ((exists sol, Gurobi.feasible mdl sol)
          <-> ((forall p, In p plant_df -> Execute.Must_Use p = true ->
                          Execute.Can_Use p = true)
               /\ exists s, In s plant_df /\ Execute.Can_Use s = true
                            /\ Execute.room_for max_plants plant_df s)).
Proof.
  intros math_domain_error max_plants cost_per_mile min_cost open_map_in_cell
         plant_df cust_df auto_open_map Hids Hne Hno.
  destruct (FloatFacts.run_float_submits math_domain_error plant_df cust_df
              cost_per_mile min_cost max_plants open_map_in_cell
              auto_open_map Hids Hno) as [mdl [k [Hm Hrun]]].
  pose proof (proj1 Hids) as Hnd.
  exists mdl, k. split; [exact Hrun |]. split.
  - intros [sol Hf].
    apply (FeasibilityProof.feasible_needs_room _ _ _ _ _ _ Hnd Hm sol Hne Hf).
  - intros [Hflags [s [Hs [Hcan Hroom]]]].
    exists (Execute.serve_all_from plant_df (Execute.Plant_ID s)).
    apply (FeasibilityProof.serve_all_from_feasible _ _ _ _ _ _ Hnd Hm s);
      assumption.
Qed.

Lemma model_feasible_iff_witness :
  exists mdl k,
    Execute.run_network_optimization_float Examples.rounds_above_one
      Execute.main_max_plants Execute.main_cost_per_mile Execute.main_min_cost
      Execute.main_open_map_in_cell Examples.two_plants Examples.near_B true
    = Execute.Optimize mdl k
    /\ ((exists sol, Gurobi.feasible mdl sol)
        <-> ((forall p, In p Examples.two_plants -> Execute.Must_Use p = true ->
                        Execute.Can_Use p = true)
             /\ exists s, In s Examples.two_plants /\ Execute.Can_Use s = true
                          /\ Execute.room_for Execute.main_max_plants
                               Examples.two_plants s)).
Proof.
  apply (model_feasible_iff_room_for_an_available_plant
           Examples.rounds_above_one Execute.main_max_plants
           Execute.main_cost_per_mile Execute.main_min_cost
           Execute.main_open_map_in_cell Examples.two_plants Examples.near_B
           true).
  - exact MustUseFacts.unique_ids_two_plants.
  - discriminate.
  - exact MustUseFacts.no_domain_error_two_plants.
Defined.

(** X10: with unique identifiers and distances that raise nothing, more
    must-use plants than [max_plants] leave the model without a feasible
    solution; the program does not check this, the model is built and
    submitted all the same, and after every answer of a sound solver the
    run prints one line and exits with code 1. *)
Theorem too_many_must_use_plants_is_infeasible :
  forall (math_domain_error : R -> R -> R -> R -> bool)
         (max_plants : Z) (cost_per_mile min_cost : R) (open_map_in_cell : bool)
         (plant_df : list Execute.Plant) (cust_df : list Execute.Customer)
         (auto_open_map : bool),
    Execute.unique_ids plant_df cust_df ->
    Execute.no_domain_error math_domain_error plant_df cust_df ->
    (max_plants < Z.of_nat (List.length (filter Execute.Must_Use plant_df)))%Z ->
    exists mdl k,
      Execute.run_network_optimization_float math_domain_error max_plants
        cost_per_mile min_cost open_map_in_cell plant_df cust_df auto_open_map
      = Execute.Optimize mdl k
      /\ (forall sol, ~ Gurobi.feasible mdl sol)
      /\ (forall r, Gurobi.sound_answer mdl r ->
            exists msg,
              k r = ([Execute.Print (Execute.Text msg)], Execute.SysExit 1)).
Proof.
  intros math_domain_error max_plants cost_per_mile min_cost open_map_in_cell
         plant_df cust_df auto_open_map Hids Hno Hmany.
  destruct (FloatFacts.run_float_submits math_domain_error plant_df cust_df
              cost_per_mile min_cost max_plants open_map_in_cell
              auto_open_map Hids Hno) as [mdl [k [Hm Hrun]]].
  pose proof (proj1 Hids) as Hnd.
  exists mdl, k. split; [exact Hrun |].
  assert (Hinf : forall sol, ~ Gurobi.feasible mdl sol).
  { intros sol Hf.
    pose proof (FeasibleFacts.feasible_cap _ _ _ _ _ _ _ Hm Hf) as Hcap.
    rewrite (SetupFacts.plnt_unique_ids _ Hnd), map_map in Hcap.
    pose proof (FeasibilityFacts.Rsum_ge_indicator Execute.Must_Use
                  (fun p => sol (Gurobi.x_var (Execute.Plant_ID p))) plant_df)
      as Hge.
    assert (Hcount : INR (List.length (filter Execute.Must_Use plant_df))
                     <= IZR max_plants).
    { eapply Rle_trans; [apply Hge | exact Hcap].
      - intros p Hp.
        assert (Hpi : In (Execute.Plant_ID p) (Execute.plnt plant_df))
          by (apply SetupFacts.In_plnt; exists p; auto).
        destruct (FeasibleFacts.feasible_binary_x _ _ _ _ _ _ _ Hm Hf _ Hpi); lra.
      - intros p Hp H.
        apply (FeasibleFacts.feasible_must_use _ _ _ _ _ _ _ Hm Hf p Hp H). }
    rewrite INR_IZR_INZ in Hcount. apply le_IZR in Hcount. lia. }
  split; [exact Hinf |].
  intros r Hsound. eexists.
  destruct (FloatFacts.run_float_reaches _ _ _ _ _ _ _ _ mdl k Hrun)
    as [_ [Hrun' _]].
  apply (RunFacts.answers_continuation _ r mdl k _ _ Hrun').
  apply RunFacts.run_not_optimal; [exact Hm |].
  intros Hs. apply (Hinf (Gurobi.X r)). apply (Hsound Hs).
Qed.

Lemma too_many_must_use_plants_witness :
  exists mdl k,
    Execute.run_network_optimization_float Examples.rounds_above_one 0
      Execute.main_cost_per_mile Execute.main_min_cost
      Execute.main_open_map_in_cell Examples.two_plants Examples.near_B true
    = Execute.Optimize mdl k
    /\ (forall sol, ~ Gurobi.feasible mdl sol)
    /\ (forall r, Gurobi.sound_answer mdl r ->
          exists msg,
            k r = ([Execute.Print (Execute.Text msg)], Execute.SysExit 1)).
Proof.
  apply (too_many_must_use_plants_is_infeasible Examples.rounds_above_one 0
           Execute.main_cost_per_mile
           Execute.main_min_cost Execute.main_open_map_in_cell
           Examples.two_plants Examples.near_B true).
  - exact MustUseFacts.unique_ids_two_plants.
  - exact MustUseFacts.no_domain_error_two_plants.
  - simpl. lia.
Defined.

(** ** Each customer is served from a nearest open plant *)

Module NearestFacts.
Import Py Gurobi Execute ListFacts SetupFacts ModelFacts FeasibleFacts
       OutputFacts CoverageFacts FeasibilityFacts.

Lemma Rsum_map_minus {A : Type} (f g : A -> R) (l : list A) :
  Rsum (map (fun a => f a - g a) l) = Rsum (map f l) - Rsum (map g l).
Proof.
  induction l as [| a l IH]; simpl; [lra | rewrite IH; lra].
Qed.

Lemma Rsum_map_indicator {A : Type} (g : A -> R) (f : A -> bool) (l : list A) :
  Rsum (map (fun a => g a * (if f a then 1 else 0)) l)
  = Rsum (map g (filter f l)).
Proof.
  induction l as [| a l IH]; simpl; [reflexivity |].
  destruct (f a); simpl; rewrite IH; lra.
Qed.

(** The values of a reassigned solution. *)
Lemma reassign_y (sol : solution) (i i' j a b : Z) :
  i <> i' -> sol (y_var i j) = 1 -> sol (y_var i' j) = 0 ->
  reassign sol i i' j (y_var a b)
  = sol (y_var a b)
    + (if ((a =? i')%Z && (b =? j)%Z)%bool then 1 else 0)
    - (if ((a =? i)%Z && (b =? j)%Z)%bool then 1 else 0).
Proof.
  intros Hne H1 H0. unfold reassign.
  destruct (Z.eqb_spec a i'), (Z.eqb_spec b j), (Z.eqb_spec a i);
    subst; simpl; try lra; try congruence.
Qed.

Lemma row_pairs_of_key (plant_df : list Plant) (cust_df : list Customer)
    (p : Plant) (c : Customer) :
  unique_ids plant_df cust_df -> In p plant_df -> In c cust_df ->
  filter (fun a => ((Plant_ID (fst a) =? Plant_ID p)%Z
                    && (Customer_ID (snd a) =? Customer_ID c)%Z)%bool)
         (row_pairs plant_df cust_df)
  = [(p, c)].
Proof.
  intros [Hnp Hnc] Hp Hc.
  rewrite (filter_ext _
             (fun a => ((Customer_ID (snd a) =? Customer_ID c)%Z
                        && (Plant_ID (fst a) =? Plant_ID p)%Z)%bool))
    by (intros a; apply andb_comm).
  rewrite <- (filter_filter
                (fun a => (Plant_ID (fst a) =? Plant_ID p)%Z)
                (fun a => (Customer_ID (snd a) =? Customer_ID c)%Z)).
  rewrite (row_pairs_of_customer plant_df cust_df c Hnc Hc).
  rewrite filter_map_comm. simpl.
  rewrite (filter_key_single Plant_ID plant_df p Hnp Hp). reflexivity.
Qed.

Section Nearest.
Variable max_plants : Z.
Variables cost_per_mile min_cost : R.
Variables (plant_df : list Plant) (cust_df : list Customer).
Variable mdl : Model.
Variable sol : solution.
Hypothesis Hids : unique_ids plant_df cust_df.
Hypothesis Hbuild :
  build_model max_plants cost_per_mile min_cost plant_df cust_df = Ok mdl.
Hypothesis Hfeas : feasible mdl sol.

Variables (p p' : Plant) (c : Customer).
Hypothesis Hp : In p plant_df.
Hypothesis Hp' : In p' plant_df.
Hypothesis Hc : In c cust_df.
Hypothesis Hserved : served sol (p, c) = true.
Hypothesis Hopen : In (Plant_ID p') (open_plants (x_keys (plnt plant_df)) sol).
Hypothesis Hdiff : Plant_ID p <> Plant_ID p'.

Let ps := plnt plant_df.
Let cs := cust cust_df.
Let moved := reassign sol (Plant_ID p) (Plant_ID p') (Customer_ID c).

Lemma In_ids :
  In (Plant_ID p) ps /\ In (Plant_ID p') ps /\ In (Customer_ID c) cs.
Proof.
  repeat split.
  - apply In_plnt. exists p. auto.
  - apply In_plnt. exists p'. auto.
  - apply In_cust. exists c. auto.
Qed.

Lemma served_value : sol (y_var (Plant_ID p) (Customer_ID c)) = 1.
Proof.
  unfold served in Hserved. simpl in Hserved.
  apply Rltb_half_true in Hserved.
  destruct (binary_pair _ _ _ _ _ _ _ Hbuild Hfeas p c Hp Hc); lra.
Qed.

Lemma other_value : sol (y_var (Plant_ID p') (Customer_ID c)) = 0.
Proof.
  destruct (binary_pair _ _ _ _ _ _ _ Hbuild Hfeas p' c Hp' Hc) as [E | E];
    [exact E | exfalso].
  pose proof (one_serving_plant _ _ _ _ _ _ _ Hids Hbuild Hfeas c Hc) as Hone.
  destruct (filter (fun q => served sol (q, c)) plant_df) as [| q [| q' l]] eqn:EL;
    simpl in Hone; try discriminate Hone.
  assert (H1 : In p [q]).
  { rewrite <- EL. apply filter_In. split; [exact Hp | exact Hserved]. }
  assert (H2 : In p' [q]).
  { rewrite <- EL. apply filter_In. split; [exact Hp' |].
    unfold served. simpl. apply Rltb_half_true. lra. }
  destruct H1 as [<- | []]. destruct H2 as [E' | []].
  apply Hdiff. rewrite E'. reflexivity.
Qed.

Lemma open_value : sol (x_var (Plant_ID p')) = 1.
Proof.
  unfold open_plants, x_keys in Hopen. apply filter_In in Hopen.
  destruct Hopen as [Hi Hx]. apply Rltb_half_true in Hx.
  destruct (feasible_binary_x _ _ _ _ _ _ _ Hbuild Hfeas _ Hi); lra.
Qed.

Lemma moved_y (a b : Z) :
  moved (y_var a b)
  = sol (y_var a b)
    + (if ((a =? Plant_ID p')%Z && (b =? Customer_ID c)%Z)%bool then 1 else 0)
    - (if ((a =? Plant_ID p)%Z && (b =? Customer_ID c)%Z)%bool then 1 else 0).
Proof. apply reassign_y; [exact Hdiff | exact served_value | exact other_value]. Qed.

(** Moving the customer to the other open plant keeps the solution
    feasible. *)
Lemma moved_feasible : feasible mdl moved.
Proof.
  destruct In_ids as [Hi [Hi' Hj]].
  destruct (build_model_inv _ _ _ _ _ _ Hbuild) as [_ [Hv [Hcs _]]].
  fold ps cs in Hv, Hcs.
  split.
  - intros v Hin. rewrite Hv in Hin. apply in_app_or in Hin.
    destruct Hin as [Hin | Hin].
    + apply in_map_iff in Hin. destruct Hin as [a [<- Ha]].
      apply (feasible_binary_x _ _ _ _ _ _ _ Hbuild Hfeas a Ha).
    + apply in_map_iff in Hin. destruct Hin as [[a b] [<- Hk]].
      apply In_y_keys in Hk. destruct Hk as [Ha Hb]. simpl.
      unfold binary, moved, reassign.
      destruct ((a =? Plant_ID p')%Z && (b =? Customer_ID c)%Z)%bool; [auto |].
      destruct ((a =? Plant_ID p)%Z && (b =? Customer_ID c)%Z)%bool; [auto |].
      apply (feasible_binary_y _ _ _ _ _ _ _ Hbuild Hfeas a b Ha Hb).
  - intros k Hin. rewrite Hcs in Hin.
    apply in_app_or in Hin. destruct Hin as [Hin | Hin].
    { unfold cust_coverage in Hin. apply in_map_iff in Hin.
      destruct Hin as [j [<- Hjin]]. unfold holds. simpl.
      rewrite (y_sum_star_eq ps cs j (NoDup_cust cust_df) Hjin).
      rewrite getValue_quicksum_ones, getValue_of_const.
      rewrite (Rsum_map_ext _
                 (fun a => (sol (y_var a j)
                            + (if ((a =? Plant_ID p')%Z
                                   && (j =? Customer_ID c)%Z)%bool then 1 else 0))
                           - (if ((a =? Plant_ID p)%Z
                                  && (j =? Customer_ID c)%Z)%bool then 1 else 0)))
        by (intros a _; apply moved_y).
      rewrite Rsum_map_minus, Rsum_map_plus.
      pose proof (feasible_coverage _ _ _ _ _ _ _ Hbuild Hfeas j Hjin) as Hcov.
      fold ps in Hcov. rewrite Hcov.
      destruct (Z.eqb_spec j (Customer_ID c)) as [-> | Hne].
      - rewrite (Rsum_map_ext _ (fun a => if (a =? Plant_ID p')%Z then 1 else 0))
          by (intros a _; rewrite andb_true_r; reflexivity).
        rewrite (Rsum_map_ext
                   (fun a => if ((a =? Plant_ID p)%Z && true)%bool then 1 else 0)
                   (fun a => if (a =? Plant_ID p)%Z then 1 else 0))
          by (intros a _; rewrite andb_true_r; reflexivity).
        rewrite (Rsum_single_one _ ps (NoDup_plnt plant_df) Hi').
        rewrite (Rsum_single_one _ ps (NoDup_plnt plant_df) Hi). lra.
      - rewrite (Rsum_map_ext _ (fun _ => 0))
          by (intros a _; rewrite andb_false_r; reflexivity).
        rewrite (Rsum_map_ext
                   (fun a => if ((a =? Plant_ID p)%Z && false)%bool then 1 else 0)
                   (fun _ => 0))
          by (intros a _; rewrite andb_false_r; reflexivity).
        rewrite Rsum_map_zero. lra. }
    apply in_app_or in Hin. destruct Hin as [Hin | Hin].
    { destruct Hin as [<- | []]. unfold holds, max_num_plants, x_sum. simpl.
      rewrite getValue_quicksum_ones, getValue_of_const.
      apply (feasible_cap _ _ _ _ _ _ _ Hbuild Hfeas). }
    apply in_app_or in Hin. destruct Hin as [Hin | Hin].
    { unfold rel_x_y in Hin. apply in_map_iff in Hin.
      destruct Hin as [[a b] [<- Hk]]. apply In_ij_set in Hk.
      destruct Hk as [Ha Hb]. unfold holds. simpl. rewrite !getValue_of_var.
      change (moved (x_var a)) with (sol (x_var a)).
      pose proof (feasible_linking _ _ _ _ _ _ _ Hbuild Hfeas a b Ha Hb) as Hl.
      unfold moved, reassign.
      destruct (Z.eqb_spec a (Plant_ID p')) as [-> | Ea];
        destruct (Z.eqb_spec b (Customer_ID c)) as [-> | Eb]; simpl.
      - rewrite open_value. lra.
      - rewrite andb_false_r. exact Hl.
      - destruct (a =? Plant_ID p)%Z; simpl; [| exact Hl].
        destruct (feasible_binary_x _ _ _ _ _ _ _ Hbuild Hfeas a Ha); lra.
      - rewrite andb_false_r. exact Hl. }
    apply in_app_or in Hin. destruct Hin as [Hin | Hin].
    { unfold must_use, must_use_plants in Hin. rewrite map_map in Hin.
      apply in_map_iff in Hin. destruct Hin as [q [<- Hq]].
      apply filter_In in Hq. destruct Hq as [Hq Hm].
      unfold holds. simpl. rewrite getValue_of_var, getValue_of_const.
      apply (feasible_must_use _ _ _ _ _ _ _ Hbuild Hfeas q Hq Hm). }
    { unfold cant_use, unavailable_plants in Hin. rewrite map_map in Hin.
      apply in_map_iff in Hin. destruct Hin as [q [<- Hq]].
      apply filter_In in Hq. destruct Hq as [Hq Hn].
      apply negb_true_iff in Hn.
      unfold holds. simpl. rewrite getValue_of_var, getValue_of_const.
      apply (feasible_cant_use _ _ _ _ _ _ _ Hbuild Hfeas q Hq Hn). }
Qed.

(** What the move changes in the objective. *)
Lemma moved_objective :
  getValue (Objective mdl) moved
  = getValue (Objective mdl) sol
    + row_distance p' c * Demand c - row_distance p c * Demand c.
Proof.
  rewrite !(ObjectiveFacts.objective_value _ _ _ _ _ Hids mdl _ Hbuild).
  rewrite (Rsum_map_ext _
             (fun a =>
                (row_distance (fst a) (snd a) * Demand (snd a)
                 * sol (y_var (Plant_ID (fst a)) (Customer_ID (snd a)))
                 + row_distance (fst a) (snd a) * Demand (snd a)
                   * (if ((Plant_ID (fst a) =? Plant_ID p')%Z
                          && (Customer_ID (snd a) =? Customer_ID c)%Z)%bool
                      then 1 else 0))
                - row_distance (fst a) (snd a) * Demand (snd a)
                  * (if ((Plant_ID (fst a) =? Plant_ID p)%Z
                         && (Customer_ID (snd a) =? Customer_ID c)%Z)%bool
                     then 1 else 0)))
    by (intros a _; rewrite moved_y; ring).
  rewrite Rsum_map_minus, Rsum_map_plus.
  rewrite (Rsum_map_indicator
             (fun a => row_distance (fst a) (snd a) * Demand (snd a))
             (fun a => ((Plant_ID (fst a) =? Plant_ID p')%Z
                        && (Customer_ID (snd a) =? Customer_ID c)%Z)%bool)).
  rewrite (Rsum_map_indicator
             (fun a => row_distance (fst a) (snd a) * Demand (snd a))
             (fun a => ((Plant_ID (fst a) =? Plant_ID p)%Z
                        && (Customer_ID (snd a) =? Customer_ID c)%Z)%bool)).
  rewrite (row_pairs_of_key plant_df cust_df p' c Hids Hp' Hc).
  rewrite (row_pairs_of_key plant_df cust_df p c Hids Hp Hc).
  simpl. lra.
Qed.

End Nearest.

End NearestFacts.

(** X11: in an optimal solution every customer is served from a nearest
    open plant: if the pair [(p, c)] is served and plant [p'] is open, the
    demand-weighted distance from [p] is at most the one from [p'], and
    for a positive demand the distance itself is. *)
Theorem optimal_solution_serves_from_a_nearest_open_plant :
  forall (max_plants : Z) (cost_per_mile min_cost : R)
         (plant_df : list Execute.Plant) (cust_df : list Execute.Customer)
         (r : Gurobi.SolverResult) (p p' : Execute.Plant) (c : Execute.Customer),
    Execute.unique_ids plant_df cust_df ->
    Execute.reports_optimal max_plants cost_per_mile min_cost plant_df cust_df r ->
    In p plant_df -> In p' plant_df -> In c cust_df ->
    Execute.served (Gurobi.X r) (p, c) = true ->
    In (Execute.Plant_ID p')
       (Execute.open_plants (Execute.x_keys (Execute.plnt plant_df)) (Gurobi.X r)) ->
    Execute.Demand c * Execute.row_distance p c
    <= Execute.Demand c * Execute.row_distance p' c
    /\ (0 < Execute.Demand c ->
        Execute.row_distance p c <= Execute.row_distance p' c).
Proof.
  intros max_plants cost_per_mile min_cost plant_df cust_df r p p' c
         Hids [_ [mdl [Hm [Hf Hmin]]]] Hp Hp' Hc Hserved Hopen.
  assert (Hw : Execute.Demand c * Execute.row_distance p c
               <= Execute.Demand c * Execute.row_distance p' c).
  { destruct (Z.eq_dec (Execute.Plant_ID p) (Execute.Plant_ID p')) as [E | Hdiff].
    - rewrite (ModelFacts.key_injective Execute.Plant_ID plant_df p p'
                 (proj1 Hids) Hp Hp' E). lra.
    - pose proof (NearestFacts.moved_feasible _ _ _ _ _ _ _ Hids Hm Hf
                    p p' c Hp Hp' Hc Hserved Hopen Hdiff) as Hmf.
      pose proof (Hmin _ Hmf) as Hle.
      rewrite (NearestFacts.moved_objective _ _ _ _ _ _ _ Hids Hm Hf
                 p p' c Hp Hp' Hc Hserved Hdiff) in Hle.
      lra. }
  split; [exact Hw |].
  intros Hpos. apply (Rmult_le_reg_l (Execute.Demand c)); assumption.
Qed.

Lemma nearest_open_plant_witness :
  Execute.Demand Examples.customer_W
  * Execute.row_distance Examples.plant_B Examples.customer_W
  <= Execute.Demand Examples.customer_W
     * Execute.row_distance Examples.plant_M Examples.customer_W
  /\ (0 < Execute.Demand Examples.customer_W ->
      Execute.row_distance Examples.plant_B Examples.customer_W
      <= Execute.row_distance Examples.plant_M Examples.customer_W).
Proof.
  apply (optimal_solution_serves_from_a_nearest_open_plant
           Execute.main_max_plants Execute.main_cost_per_mile
           Execute.main_min_cost Examples.two_plants Examples.near_B
           Examples.answer_serve_W Examples.plant_B Examples.plant_M
           Examples.customer_W).
  - exact MustUseFacts.unique_ids_two_plants.
  - exact (MustUseFacts.reports_optimal_two_plants _ _).
  - simpl. auto.
  - simpl. auto.
  - simpl. auto.
  - exact OutputFacts.Rltb_half_one.
  - apply filter_In. split; [simpl; auto | exact OutputFacts.Rltb_half_one].
Defined.

(** X12: after an optimal solve the objective value is the sum, over the
    rows of the joined table [adf] (one per served pair), of demand times
    distance. *)
Theorem objective_is_sum_over_served_rows :
  forall (max_plants : Z) (cost_per_mile min_cost : R)
         (plant_df : list Execute.Plant) (cust_df : list Execute.Customer)
         (r : Gurobi.SolverResult),
    Execute.unique_ids plant_df cust_df ->
    Execute.reports_optimal max_plants cost_per_mile min_cost plant_df cust_df r ->
    exists mdl,
      Execute.build_model max_plants cost_per_mile min_cost plant_df cust_df
      = Execute.Ok mdl
      /\ Gurobi.objVal mdl r
         = Py.Rsum
             (map (fun a => Execute.adf_Distance a * Execute.adf_Demand a)
                  (Execute.adf
                     (Execute.assigned_list
                        (Execute.y_keys (Execute.plnt plant_df)
                           (Execute.cust cust_df))
                        (Gurobi.X r))
                     cust_df
                     (Execute.setup_dist cost_per_mile min_cost plant_df cust_df))).
Proof.
  intros max_plants cost_per_mile min_cost plant_df cust_df r Hids
         [_ [mdl [Hm [Hf _]]]].
  exists mdl. split; [exact Hm |].
  unfold Gurobi.objVal.
  rewrite (ObjectiveFacts.objective_value _ _ _ _ _ Hids mdl _ Hm).
  rewrite (OutputFacts.adf_served plant_df cust_df (Gurobi.X r) Hids), map_map.
  unfold Execute.served_pairs, Execute.served. simpl.
  rewrite (OutputFacts.sum_filter_binary
             (fun pc => Gurobi.X r (Gurobi.y_var (Execute.Plant_ID (fst pc))
                                      (Execute.Customer_ID (snd pc))))
             (fun pc => Execute.row_distance (fst pc) (snd pc)
                        * Execute.Demand (snd pc))).
  - reflexivity.
  - intros [p c] Hpc. apply SetupFacts.In_row_pairs in Hpc. destruct Hpc.
    apply (CoverageFacts.binary_pair _ _ _ _ _ _ _ Hm Hf); assumption.
Qed.

Lemma objective_is_sum_over_served_rows_witness :
  exists mdl,
    Execute.build_model Execute.main_max_plants Execute.main_cost_per_mile
      Execute.main_min_cost Examples.two_plants Examples.near_B
    = Execute.Ok mdl
    /\ Gurobi.objVal mdl Examples.answer_serve_W
       = Py.Rsum
           (map (fun a => Execute.adf_Distance a * Execute.adf_Demand a)
                (Execute.adf
                   (Execute.assigned_list
                      (Execute.y_keys (Execute.plnt Examples.two_plants)
                         (Execute.cust Examples.near_B))
                      (Gurobi.X Examples.answer_serve_W))
                   Examples.near_B
                   (Execute.setup_dist Execute.main_cost_per_mile
                      Execute.main_min_cost Examples.two_plants Examples.near_B))).
Proof.
  apply (objective_is_sum_over_served_rows Execute.main_max_plants
           Execute.main_cost_per_mile Execute.main_min_cost
           Examples.two_plants Examples.near_B Examples.answer_serve_W).
  - exact MustUseFacts.unique_ids_two_plants.
  - exact (MustUseFacts.reports_optimal_two_plants _ _).
Defined.

(* ===================================================================== *)
(** * Properties of the plots *)
(* ===================================================================== *)

Module PlotFacts.
Import Py Execute Plots ListFacts.

Lemma series_min_le (l : list R) (m : R) :
  series_min l = Some m -> forall a, In a l -> m <= a.
Proof.
  revert m. induction l as [| b l IH]; intros m H a Ha; simpl in *.
  - contradiction.
  - destruct (series_min l) as [m' |] eqn:E.
    + inversion H; subst. destruct Ha as [<- | Ha].
      * apply Rmin_l.
      * eapply Rle_trans; [apply Rmin_r | apply (IH m' eq_refl a Ha)].
    + inversion H; subst. destruct Ha as [<- | Ha]; [lra |].
      destruct l; [contradiction | simpl in E].
      destruct (series_min l); discriminate E.
Qed.

Lemma series_max_ge (l : list R) (m : R) :
  series_max l = Some m -> forall a, In a l -> a <= m.
Proof.
  revert m. induction l as [| b l IH]; intros m H a Ha; simpl in *.
  - contradiction.
  - destruct (series_max l) as [m' |] eqn:E.
    + inversion H; subst. destruct Ha as [<- | Ha].
      * apply Rmax_l.
      * eapply Rle_trans; [apply (IH m' eq_refl a Ha) | apply Rmax_r].
    + inversion H; subst. destruct Ha as [<- | Ha]; [lra |].
      destruct l; [contradiction | simpl in E].
      destruct (series_max l); discriminate E.
Qed.

Lemma series_min_some (l : list R) (a : R) :
  In a l -> exists m, series_min l = Some m.
Proof.
  destruct l as [| b l]; [contradiction | intros _; simpl].
  destruct (series_min l); eexists; reflexivity.
Qed.

Lemma series_max_some (l : list R) (a : R) :
  In a l -> exists m, series_max l = Some m.
Proof.
  destruct l as [| b l]; [contradiction | intros _; simpl].
  destruct (series_max l); eexists; reflexivity.
Qed.

(** The minimum and the maximum of a column stay where the values are. *)
Lemma series_min_bounded (l : list R) (lo : R) (m : R) :
  (forall a, In a l -> lo <= a) -> series_min l = Some m -> lo <= m.
Proof.
  revert m. induction l as [| b l IH]; intros m Hlo H; simpl in *.
  - discriminate H.
  - destruct (series_min l) as [m' |] eqn:E; inversion H; subst.
    + apply Rmin_glb; [apply Hlo; auto | apply IH; auto].
    + apply Hlo. auto.
Qed.

Lemma series_max_bounded (l : list R) (hi : R) (m : R) :
  (forall a, In a l -> a <= hi) -> series_max l = Some m -> m <= hi.
Proof.
  revert m. induction l as [| b l IH]; intros m Hhi H; simpl in *.
  - discriminate H.
  - destruct (series_max l) as [m' |] eqn:E; inversion H; subst.
    + apply Rmax_lub; [apply Hhi; auto | apply IH; auto].
    + apply Hhi. auto.
Qed.

Lemma widen_covers (box : R * R * R * R) (df : list Location) (loc : Location) :
  In loc df -> covers (widen box df) loc.
Proof.
  intros Hin. destruct box as [[[a b] c] d]. unfold widen, covers.
  assert (Hlat : In (lat loc) (map lat df)) by (apply in_map; assumption).
  assert (Hlon : In (lon loc) (map lon df)) by (apply in_map; assumption).
  destruct (series_min_some _ _ Hlat) as [m1 E1].
  destruct (series_max_some _ _ Hlat) as [m2 E2].
  destruct (series_min_some _ _ Hlon) as [m3 E3].
  destruct (series_max_some _ _ Hlon) as [m4 E4].
  rewrite E1, E2, E3, E4. simpl.
  pose proof (series_min_le _ _ E1 _ Hlat).
  pose proof (series_max_ge _ _ E2 _ Hlat).
  pose proof (series_min_le _ _ E3 _ Hlon).
  pose proof (series_max_ge _ _ E4 _ Hlon).
  destruct (Rlt_dec m1 a), (Rgt_dec m2 b), (Rlt_dec m3 c), (Rgt_dec m4 d);
    repeat split; lra.
Qed.

Lemma widen_keeps (box : R * R * R * R) (df : list Location) (loc : Location) :
  covers box loc -> covers (widen box df) loc.
Proof.
  destruct box as [[[a b] c] d]. unfold widen, covers. simpl.
  intros [[H1 H2] [H3 H4]].
  destruct (series_min (map lat df)) as [m1 |],
           (series_max (map lat df)) as [m2 |],
           (series_min (map lon df)) as [m3 |],
           (series_max (map lon df)) as [m4 |]; simpl;
    repeat match goal with
           | |- context [Rlt_dec ?x ?y] => destruct (Rlt_dec x y)
           | |- context [Rgt_dec ?x ?y] => destruct (Rgt_dec x y)
           end;
    repeat split; lra.
Qed.

Lemma widen_inside (box : R * R * R * R) (df : list Location)
    (lat_rng lon_rng : R * R) :
  inside box lat_rng lon_rng ->
  (forall loc, In loc df ->
     fst lat_rng <= lat loc <= snd lat_rng
     /\ fst lon_rng <= lon loc <= snd lon_rng) ->
  inside (widen box df) lat_rng lon_rng.
Proof.
  destruct box as [[[a b] c] d]. unfold widen, inside. simpl.
  intros [H1 [H2 [H3 H4]]] Hall.
  assert (Hlat_lo : forall v, In v (map lat df) -> fst lat_rng <= v).
  { intros v Hv. apply in_map_iff in Hv. destruct Hv as [loc [<- Hl]].
    apply Hall. assumption. }
  assert (Hlat_hi : forall v, In v (map lat df) -> v <= snd lat_rng).
  { intros v Hv. apply in_map_iff in Hv. destruct Hv as [loc [<- Hl]].
    apply Hall. assumption. }
  assert (Hlon_lo : forall v, In v (map lon df) -> fst lon_rng <= v).
  { intros v Hv. apply in_map_iff in Hv. destruct Hv as [loc [<- Hl]].
    apply Hall. assumption. }
  assert (Hlon_hi : forall v, In v (map lon df) -> v <= snd lon_rng).
  { intros v Hv. apply in_map_iff in Hv. destruct Hv as [loc [<- Hl]].
    apply Hall. assumption. }
  destruct (series_min (map lat df)) as [m1 |] eqn:E1,
           (series_max (map lat df)) as [m2 |] eqn:E2,
           (series_min (map lon df)) as [m3 |] eqn:E3,
           (series_max (map lon df)) as [m4 |] eqn:E4; simpl;
    repeat match goal with
           | E : series_min _ = Some _ |- _ =>
               first [ apply (series_min_bounded _ _ _ Hlat_lo) in E
                     | apply (series_min_bounded _ _ _ Hlon_lo) in E ]
           | E : series_max _ = Some _ |- _ =>
               first [ apply (series_max_bounded _ _ _ Hlat_hi) in E
                     | apply (series_max_bounded _ _ _ Hlon_hi) in E ]
           end;
    repeat match goal with
           | |- context [Rlt_dec ?x ?y] => destruct (Rlt_dec x y)
           | |- context [Rgt_dec ?x ?y] => destruct (Rgt_dec x y)
           end;
    repeat split; lra.
Qed.

Lemma fold_widen_keeps (dfs : list (list Location)) (box : R * R * R * R)
    (loc : Location) :
  covers box loc -> covers (fold_left widen dfs box) loc.
Proof.
  revert box. induction dfs as [| df dfs IH]; intros box H; simpl; [exact H |].
  apply IH. apply widen_keeps. exact H.
Qed.

Lemma fold_widen_covers (dfs : list (list Location)) (box : R * R * R * R)
    (df : list Location) (loc : Location) :
  In df dfs -> In loc df -> covers (fold_left widen dfs box) loc.
Proof.
  revert box. induction dfs as [| d dfs IH]; intros box Hdf Hloc; simpl in *.
  - contradiction.
  - destruct Hdf as [-> | Hdf].
    + apply fold_widen_keeps. apply widen_covers. exact Hloc.
    + apply IH; assumption.
Qed.

Lemma fold_widen_inside (dfs : list (list Location)) (box : R * R * R * R)
    (lat_rng lon_rng : R * R) :
  inside box lat_rng lon_rng ->
  (forall df loc, In df dfs -> In loc df ->
     fst lat_rng <= lat loc <= snd lat_rng
     /\ fst lon_rng <= lon loc <= snd lon_rng) ->
  inside (fold_left widen dfs box) lat_rng lon_rng.
Proof.
  revert box. induction dfs as [| d dfs IH]; intros box H Hall; simpl; [exact H |].
  apply IH.
  - apply widen_inside; [exact H |]. intros loc Hl. apply (Hall d); simpl; auto.
  - intros df loc Hdf Hl. apply (Hall df); simpl; auto.
Qed.

End PlotFacts.

Module ScopeFacts.
Import Py Execute Plots ListFacts OutputFacts PlotFacts.
Open Scope string_scope.

Lemma place_eqb_eq (a b : string * R * R) : place_eqb a b = true <-> a = b.
Proof.
  destruct a as [[n1 a1] o1], b as [[n2 a2] o2]. unfold place_eqb. simpl.
  rewrite !andb_true_iff, String.eqb_eq, !Reqb_eq. split.
  - intros [[-> ->] ->]. reflexivity.
  - intros E. inversion E. auto.
Qed.

(** The range is the box the loop ends with. *)
Lemma range_box (df_dict : list (string * list Location)) :
  let box := fold_left widen (map snd df_dict) (90, -90, 180, -180) in
  get_lat_lon_range df_dict
  = ((fst (fst (fst box)), snd (fst (fst box))), (snd (fst box), snd box)).
Proof.
  cbv zeta. unfold get_lat_lon_range.
  destruct (fold_left widen (map snd df_dict) (90, -90, 180, -180))
    as [[[a b] c] d].
  reflexivity.
Qed.

Lemma within_inside (lat_range lon_range lat_rng lon_rng : R * R) :
  within lat_range lon_range lat_rng lon_rng = true
  <-> inside (fst lat_range, snd lat_range, fst lon_range, snd lon_range)
             lat_rng lon_rng.
Proof.
  unfold within, inside. simpl.
  destruct (Rge_dec (fst lat_range) (fst lat_rng)),
           (Rle_dec (snd lat_range) (snd lat_rng)),
           (Rge_dec (fst lon_range) (fst lon_rng)),
           (Rle_dec (snd lon_range) (snd lon_rng)); simpl;
    split; try discriminate; try (intros _; repeat split; lra);
    try reflexivity; intros [H1 [H2 [H3 H4]]]; exfalso; lra.
Qed.

(** Which test of [get_scope] gave the scope. *)
Lemma get_scope_cases (lat_range lon_range : R * R) :
  (get_scope lat_range lon_range = "usa"
   /\ within lat_range lon_range us_lat_rng us_lon_rng = true)
  \/ (get_scope lat_range lon_range = "north america"
      /\ within lat_range lon_range us_lat_rng us_lon_rng = false
      /\ within lat_range lon_range na_lat_rng na_lon_rng = true)
  \/ (get_scope lat_range lon_range = "europe"
      /\ within lat_range lon_range na_lat_rng na_lon_rng = false
      /\ within lat_range lon_range eu_lat_rng eu_lon_rng = true)
  \/ (get_scope lat_range lon_range = "south america"
      /\ within lat_range lon_range eu_lat_rng eu_lon_rng = false
      /\ within lat_range lon_range sa_lat_rng sa_lon_rng = true)
  \/ (get_scope lat_range lon_range = "world"
      /\ within lat_range lon_range us_lat_rng us_lon_rng = false
      /\ within lat_range lon_range na_lat_rng na_lon_rng = false
      /\ within lat_range lon_range eu_lat_rng eu_lon_rng = false
      /\ within lat_range lon_range sa_lat_rng sa_lon_rng = false).
Proof.
  unfold get_scope.
  destruct (within lat_range lon_range us_lat_rng us_lon_rng); [tauto |].
  destruct (within lat_range lon_range na_lat_rng na_lon_rng); [tauto |].
  destruct (within lat_range lon_range eu_lat_rng eu_lon_rng); [tauto |].
  destruct (within lat_range lon_range sa_lat_rng sa_lon_rng); tauto.
Qed.

(** A range within a region keeps every place of the dictionary in it. *)
Lemma within_region (df_dict : list (string * list Location))
    (lat_rng lon_rng : R * R) (key : string) (df : list Location)
    (loc : Location) :
  within (fst (get_lat_lon_range df_dict)) (snd (get_lat_lon_range df_dict))
         lat_rng lon_rng = true ->
  In (key, df) df_dict -> In loc df -> in_region lat_rng lon_rng loc.
Proof.
  intros Hw Hdf Hloc. apply within_inside in Hw.
  pose proof (range_box df_dict) as Hb. cbv zeta in Hb. rewrite Hb in Hw.
  simpl in Hw.
  assert (Hc : covers (fold_left widen (map snd df_dict) (90, -90, 180, -180)) loc).
  { apply (fold_widen_covers _ _ df); [| exact Hloc].
    apply in_map_iff. exists (key, df). auto. }
  destruct (fold_left widen (map snd df_dict) (90, -90, 180, -180))
    as [[[a b] c] d].
  unfold inside in Hw. unfold covers in Hc. unfold in_region. simpl in *.
  repeat split; lra.
Qed.

(** A dictionary whose places all lie in a region that holds the initial
    bounds has its range within the region. *)
Lemma region_within (df_dict : list (string * list Location))
    (lat_rng lon_rng : R * R) :
  fst lat_rng <= 90 -> -90 <= snd lat_rng ->
  fst lon_rng <= 180 -> -180 <= snd lon_rng ->
  (forall key df loc, In (key, df) df_dict -> In loc df ->
     in_region lat_rng lon_rng loc) ->
  within (fst (get_lat_lon_range df_dict)) (snd (get_lat_lon_range df_dict))
         lat_rng lon_rng = true.
Proof.
  intros H1 H2 H3 H4 Hall. apply within_inside.
  pose proof (range_box df_dict) as Hb. cbv zeta in Hb. rewrite Hb. simpl.
  assert (Hi : inside (fold_left widen (map snd df_dict) (90, -90, 180, -180))
                      lat_rng lon_rng).
  { apply fold_widen_inside.
    - unfold inside. simpl. repeat split; lra.
    - intros df loc Hdf Hloc. apply in_map_iff in Hdf.
      destruct Hdf as [[key df'] [E Hdf]]. simpl in E. subst df'.
      apply (Hall key df loc Hdf Hloc). }
  destruct (fold_left widen (map snd df_dict) (90, -90, 180, -180))
    as [[[a b] c] d].
  exact Hi.
Qed.

Lemma create_location_dataframe_eq (data : list Lane) :
  create_location_dataframe data
  = [("Plant",
      map (fun t => plant_marker (fst (fst t)) (snd (fst t)) (snd t))
          (unique place_eqb
             (map (fun r => (Origin r, Origin_Lat r, Origin_Lon r)) data)));
     ("Customer",
      map (fun t => customer_marker (fst (fst t)) (snd (fst t)) (snd t))
          (unique place_eqb
             (map (fun r => (Destination r, Dest_Lat r, Dest_Lon r)) data)))].
Proof. reflexivity. Qed.

Lemma In_plant_markers (data : list Lane) (loc : Location) :
  In loc (map (fun t => plant_marker (fst (fst t)) (snd (fst t)) (snd t))
              (unique place_eqb
                 (map (fun r => (Origin r, Origin_Lat r, Origin_Lon r)) data)))
  <-> exists row, In row data
        /\ loc = plant_marker (Origin row) (Origin_Lat row) (Origin_Lon row).
Proof.
  rewrite in_map_iff. split.
  - intros [t [E Ht]]. apply -> (In_unique place_eqb place_eqb_eq) in Ht.
    apply in_map_iff in Ht. destruct Ht as [row [Er Hr]]. subst t.
    exists row. simpl in E. auto.
  - intros [row [Hr E]]. exists (Origin row, Origin_Lat row, Origin_Lon row).
    split; [symmetry; exact E |].
    apply <- (In_unique place_eqb place_eqb_eq). apply in_map_iff. exists row. auto.
Qed.

Lemma In_customer_markers (data : list Lane) (loc : Location) :
  In loc (map (fun t => customer_marker (fst (fst t)) (snd (fst t)) (snd t))
              (unique place_eqb
                 (map (fun r => (Destination r, Dest_Lat r, Dest_Lon r)) data)))
  <-> exists row, In row data
        /\ loc = customer_marker (Destination row) (Dest_Lat row) (Dest_Lon row).
Proof.
  rewrite in_map_iff. split.
  - intros [t [E Ht]]. apply -> (In_unique place_eqb place_eqb_eq) in Ht.
    apply in_map_iff in Ht. destruct Ht as [row [Er Hr]]. subst t.
    exists row. simpl in E. auto.
  - intros [row [Hr E]]. exists (Destination row, Dest_Lat row, Dest_Lon row).
    split; [symmetry; exact E |].
    apply <- (In_unique place_eqb place_eqb_eq). apply in_map_iff. exists row. auto.
Qed.

Lemma NoDup_markers (mk : string -> R -> R -> Location)
    (l : list (string * R * R)) :
  (forall n a o n' a' o', mk n a o = mk n' a' o' -> (n, a, o) = (n', a', o')) ->
  NoDup l ->
  NoDup (map (fun t => mk (fst (fst t)) (snd (fst t)) (snd t)) l).
Proof.
  intros Hinj Hnd. apply Injective_map_NoDup; [| exact Hnd].
  intros [[n a] o] [[n' a'] o'] E. simpl in E. apply Hinj. exact E.
Qed.

Lemma drawn_plot_network (data : list Lane) (add_path auto_open_map : bool)
    (title : string) (open_map_in_cell : bool) (loc : Location) :
  In loc (drawn (plot_network data add_path auto_open_map title open_map_in_cell))
  <-> exists key df, In (key, df) (create_location_dataframe data) /\ In loc df.
Proof.
  unfold drawn, plot_network, set_locations_map.
  cbn [location_traces]. rewrite in_flat_map. split.
  - intros [e [He Hl]]. apply in_map_iff in He. destruct He as [[k d] [E He]].
    subst e. exists k, d. auto.
  - intros [k [d [He Hl]]]. exists (k, d). split; [| exact Hl].
    apply in_map_iff. exists (k, d). auto.
Qed.

End ScopeFacts.

(** X13: the range returned by [get_lat_lon_range] holds every place of
    every frame of the dictionary: the latitude of a place lies between
    [min_lat] and [max_lat] and its longitude between [min_lon] and
    [max_lon]. *)
Theorem lat_lon_range_holds_every_place :
  forall (df_dict : list (string * list Plots.Location)) (key : string)
         (df : list Plots.Location) (loc : Plots.Location),
    In (key, df) df_dict -> In loc df ->
    fst (fst (Plots.get_lat_lon_range df_dict)) <= Plots.lat loc
      <= snd (fst (Plots.get_lat_lon_range df_dict))
    /\ fst (snd (Plots.get_lat_lon_range df_dict)) <= Plots.lon loc
         <= snd (snd (Plots.get_lat_lon_range df_dict)).
Proof.
  intros df_dict key df loc Hdf Hloc.
  pose proof (ScopeFacts.range_box df_dict) as Hb. cbv zeta in Hb. rewrite Hb.
  assert (Hc : Plots.covers
                 (fold_left Plots.widen (map snd df_dict) (90, -90, 180, -180))
                 loc).
  { apply (PlotFacts.fold_widen_covers _ _ df); [| exact Hloc].
    apply in_map_iff. exists (key, df). auto. }
  exact Hc.
Qed.

Lemma lat_lon_range_holds_every_place_witness :
  let df_dict :=
    [("Plant"%string, [Plots.plant_marker "Plant A" 40 (-75)]);
     ("Customer"%string, [Plots.customer_marker "Customer X" 41 (-74)])] in
  let loc := Plots.customer_marker "Customer X" 41 (-74) in
  fst (fst (Plots.get_lat_lon_range df_dict)) <= Plots.lat loc
    <= snd (fst (Plots.get_lat_lon_range df_dict))
  /\ fst (snd (Plots.get_lat_lon_range df_dict)) <= Plots.lon loc
       <= snd (snd (Plots.get_lat_lon_range df_dict)).
Proof.
  cbv zeta.
  apply (lat_lon_range_holds_every_place _ "Customer"%string
           [Plots.customer_marker "Customer X" 41 (-74)]).
  - simpl. auto.
  - simpl. auto.
Defined.

(** X14: the scope [plot_network] gives the map fits the places it draws.
    When the scope is 'usa', 'north america', 'europe' or 'south america',
    every marker of the figure lies in the latitude and longitude ranges
    [get_scope] lists for that region; and when every marker lies in the
    ranges of the USA, which is also the case of a table without rows, the
    scope is 'usa'. *)
Theorem scope_holds_every_marker :
  forall (data : list Execute.Lane) (add_path auto_open_map : bool)
         (title : string) (open_map_in_cell : bool),
    let fig :=
      Plots.plot_network data add_path auto_open_map title open_map_in_cell in
    (Plots.geo_scope fig = "usa"%string ->
     forall loc, In loc (Plots.drawn fig) ->
       Plots.in_region Plots.us_lat_rng Plots.us_lon_rng loc)
    /\ (Plots.geo_scope fig = "north america"%string ->
        forall loc, In loc (Plots.drawn fig) ->
          Plots.in_region Plots.na_lat_rng Plots.na_lon_rng loc)
    /\ (Plots.geo_scope fig = "europe"%string ->
        forall loc, In loc (Plots.drawn fig) ->
          Plots.in_region Plots.eu_lat_rng Plots.eu_lon_rng loc)
    /\ (Plots.geo_scope fig = "south america"%string ->
        forall loc, In loc (Plots.drawn fig) ->
          Plots.in_region Plots.sa_lat_rng Plots.sa_lon_rng loc)
    /\ ((forall loc, In loc (Plots.drawn fig) ->
           Plots.in_region Plots.us_lat_rng Plots.us_lon_rng loc) ->
        Plots.geo_scope fig = "usa"%string).
Proof.
  intros data add_path auto_open_map title open_map_in_cell fig.
  set (df_dict := Plots.create_location_dataframe data).
  set (rng := Plots.get_lat_lon_range df_dict).
  assert (Hscope : Plots.geo_scope fig = Plots.get_scope (fst rng) (snd rng))
    by reflexivity.
  assert (Hdrawn : forall loc, In loc (Plots.drawn fig) <->
            exists key df, In (key, df) df_dict /\ In loc df)
    by (intros loc; apply ScopeFacts.drawn_plot_network).
  assert (Hsound : forall lat_rng lon_rng,
            Plots.within (fst rng) (snd rng) lat_rng lon_rng = true ->
            forall loc, In loc (Plots.drawn fig) ->
              Plots.in_region lat_rng lon_rng loc).
  { intros lat_rng lon_rng Hw loc Hl. apply Hdrawn in Hl.
    destruct Hl as [key [df [Hdf Hl]]].
    apply (ScopeFacts.within_region df_dict lat_rng lon_rng key df loc Hw Hdf Hl). }
  rewrite Hscope.
  pose proof (ScopeFacts.get_scope_cases (fst rng) (snd rng)) as Hc.
  split; [| split; [| split; [| split]]].
  - intros E. apply Hsound.
    destruct Hc as [[_ H] | [[E' _] | [[E' _] | [[E' _] | [E' _]]]]];
      [exact H | | | |]; rewrite E' in E; discriminate E.
  - intros E. apply Hsound.
    destruct Hc as [[E' _] | [[_ [_ H]] | [[E' _] | [[E' _] | [E' _]]]]];
      [| exact H | | |]; rewrite E' in E; discriminate E.
  - intros E. apply Hsound.
    destruct Hc as [[E' _] | [[E' _] | [[_ [_ H]] | [[E' _] | [E' _]]]]];
      [| | exact H | |]; rewrite E' in E; discriminate E.
  - intros E. apply Hsound.
    destruct Hc as [[E' _] | [[E' _] | [[E' _] | [[_ [_ H]] | [E' _]]]]];
      [| | | exact H |]; rewrite E' in E; discriminate E.
  - intros Hall.
    assert (Hw : Plots.within (fst rng) (snd rng)
                   Plots.us_lat_rng Plots.us_lon_rng = true).
    { apply ScopeFacts.region_within;
        try (unfold Plots.us_lat_rng, Plots.us_lon_rng; simpl; lra).
      intros key df loc Hdf Hl. apply Hall. apply Hdrawn.
      exists key, df. auto. }
    unfold Plots.get_scope. rewrite Hw. reflexivity.
Qed.

Lemma scope_holds_every_marker_witness :
  let fig :=
    Plots.plot_network
      [Execute.lane_of (Examples.plant_A, Examples.customer_X)]
      true false "Solution Map" false in
  Plots.geo_scope fig = "usa"%string
  /\ forall loc, In loc (Plots.drawn fig) ->
       Plots.in_region Plots.us_lat_rng Plots.us_lon_rng loc.
Proof.
  cbv zeta.
  pose proof (scope_holds_every_marker
                [Execute.lane_of (Examples.plant_A, Examples.customer_X)]
                true false "Solution Map" false) as H.
  cbv zeta in H. destruct H as [Husa [_ [_ [_ Hall]]]].
  assert (E : Plots.geo_scope
                (Plots.plot_network
                   [Execute.lane_of (Examples.plant_A, Examples.customer_X)]
                   true false "Solution Map" false) = "usa"%string).
  { apply Hall. intros loc Hl. unfold Plots.drawn in Hl. simpl in Hl.
    unfold Plots.in_region, Plots.us_lat_rng, Plots.us_lon_rng.
    destruct Hl as [<- | [<- | []]]; simpl; lra. }
  split; [exact E | exact (Husa E)].
Defined.

(** X15: [create_location_dataframe] returns the two frames 'Plant' and
    'Customer'; no marker is repeated in a frame, the plant markers are
    the blue triangles of the distinct (Origin, Origin Lat, Origin Lon) of
    the rows and the customer markers the orange circles of the distinct
    (Destination, Dest Lat, Dest Lon). *)
Theorem location_frames_hold_the_distinct_places :
  forall (data : list Execute.Lane),
  exists origin_df dest_df,
    Plots.create_location_dataframe data
    = [("Plant"%string, origin_df); ("Customer"%string, dest_df)]
    /\ NoDup origin_df /\ NoDup dest_df
    /\ (forall loc, In loc origin_df <->
          exists row, In row data
            /\ loc = Plots.mkLocation (Execute.Origin_Lat row)
                       (Execute.Origin_Lon row) (Execute.Origin row) 20
                       "blue" "triangle-up" (Execute.Origin row))
    /\ (forall loc, In loc dest_df <->
          exists row, In row data
            /\ loc = Plots.mkLocation (Execute.Dest_Lat row)
                       (Execute.Dest_Lon row) (Execute.Destination row) 8
                       "orange" "circle" (Execute.Destination row)).
Proof.
  intros data. eexists. eexists.
  split; [apply ScopeFacts.create_location_dataframe_eq |].
  split; [| split; [| split]].
  - apply ScopeFacts.NoDup_markers.
    + intros n a o n' a' o' E. inversion E. reflexivity.
    + apply (ListFacts.NoDup_unique Plots.place_eqb ScopeFacts.place_eqb_eq).
  - apply ScopeFacts.NoDup_markers.
    + intros n a o n' a' o' E. inversion E. reflexivity.
    + apply (ListFacts.NoDup_unique Plots.place_eqb ScopeFacts.place_eqb_eq).
  - intros loc. apply ScopeFacts.In_plant_markers.
  - intros loc. apply ScopeFacts.In_customer_markers.
Qed.

(** ** The solution map *)

Module SolutionMapFacts.
Import Py Gurobi Execute Plots ListFacts SetupFacts ModelFacts FeasibleFacts
       OutputFacts CoverageFacts ScopeFacts.
Open Scope string_scope.

Lemma Rsum_ones {A : Type} (l : list A) :
  Rsum (map (fun _ => 1) l) = INR (List.length l).
Proof.
  induction l as [| a l IH]; [reflexivity |].
  simpl map. simpl Rsum. rewrite IH. simpl List.length. rewrite S_INR. lra.
Qed.

Section SolutionMap.
Variable max_plants : Z.
Variables cost_per_mile min_cost : R.
Variables (plant_df : list Plant) (cust_df : list Customer).
Variable mdl : Model.
Variable sol : solution.
Hypothesis Hids : unique_ids plant_df cust_df.
Hypothesis Hbuild :
  build_model max_plants cost_per_mile min_cost plant_df cust_df = Ok mdl.
Hypothesis Hfeas : feasible mdl sol.

(** As many served pairs as customers. *)
Lemma served_count :
  List.length (served_pairs plant_df cust_df sol) = List.length cust_df.
Proof.
  apply INR_eq. unfold served_pairs.
  change (served sol)
    with (fun pc : Plant * Customer =>
            Rltb 0.5 (sol (y_var (Plant_ID (fst pc)) (Customer_ID (snd pc))))).
  rewrite (count_binary
             (fun pc => sol (y_var (Plant_ID (fst pc)) (Customer_ID (snd pc))))).
  - unfold row_pairs. rewrite Rsum_flat_map.
    rewrite (Rsum_map_ext _
               (fun p => Rsum (map (fun c => sol (y_var (Plant_ID p) (Customer_ID c)))
                                   cust_df))).
    + rewrite (Rsum_swap (fun p c => sol (y_var (Plant_ID p) (Customer_ID c)))).
      rewrite (Rsum_map_ext _ (fun _ => 1)); [apply Rsum_ones |].
      intros c Hc.
      apply (coverage_of_customer max_plants cost_per_mile min_cost plant_df
               cust_df mdl sol Hids Hbuild Hfeas c Hc).
    + intros p _. rewrite map_map. reflexivity.
  - intros [p c] Hpc. apply In_row_pairs in Hpc. destruct Hpc.
    apply (binary_pair max_plants cost_per_mile min_cost plant_df cust_df mdl
             sol Hbuild Hfeas); assumption.
Qed.

(** A plant that serves a customer is open. *)
Lemma served_from_open (p : Plant) (c : Customer) :
  In (p, c) (served_pairs plant_df cust_df sol) ->
  In p plant_df /\ In c cust_df /\ sol (x_var (Plant_ID p)) = 1.
Proof.
  intros H. apply In_served_pairs in H. simpl in H.
  destruct H as [Hp [Hc Hs]]. split; [exact Hp | split; [exact Hc |]].
  unfold served in Hs. simpl in Hs. apply Rltb_half_true in Hs.
  assert (Hi : In (Plant_ID p) (plnt plant_df))
    by (apply In_plnt; exists p; auto).
  assert (Hj : In (Customer_ID c) (cust cust_df))
    by (apply In_cust; exists c; auto).
  pose proof (feasible_linking _ _ _ _ _ _ _ Hbuild Hfeas _ _ Hi Hj) as Hl.
  destruct (feasible_binary_x _ _ _ _ _ _ _ Hbuild Hfeas _ Hi) as [E | E];
    [lra | exact E].
Qed.

End SolutionMap.

End SolutionMapFacts.

(** X16: after an optimal solve of tables with unique identifiers and at
    least one customer, the run ends by drawing the lane table as the
    figure 'Solution Map', written to 'Solution Map.html' and opened or
    shown as the two flags say.  The figure has one path for each
    customer; every customer is drawn as a customer marker, and every
    marker is either a customer of the table or a plant of the table that
    the solution opens. *)
Theorem solution_map_draws_every_customer_and_open_plants_only :
  forall (math_domain_error : R -> R -> R -> R -> bool)
         (max_plants : Z) (cost_per_mile min_cost : R) (open_map_in_cell : bool)
         (plant_df : list Execute.Plant) (cust_df : list Execute.Customer)
         (auto_open_map : bool) (r : Gurobi.SolverResult),
    Execute.unique_ids plant_df cust_df ->
    cust_df <> [] ->
    Execute.no_domain_error math_domain_error plant_df cust_df ->
    Execute.reports_optimal max_plants cost_per_mile min_cost plant_df cust_df r ->
    exists mdl evs e fig,
      Execute.answers
        (Execute.run_network_optimization_float math_domain_error max_plants
           cost_per_mile min_cost open_map_in_cell plant_df cust_df
           auto_open_map)
        r mdl evs Execute.Returned
      /\ last evs (Execute.Print Execute.rule) = e
      /\ Plots.figure_of e = Some fig
      /\ Plots.layout_title fig = "Solution Map"%string
      /\ Plots.html_file fig = "Solution Map.html"%string
      /\ Plots.html_auto_open fig = auto_open_map
      /\ Plots.shown_in_cell fig = open_map_in_cell
      /\ List.length (Plots.path_traces fig) = List.length cust_df
      /\ (forall c, In c cust_df ->
            In (Plots.customer_marker (Execute.Customer_Name c)
                  (Execute.Customer_Latitude c) (Execute.Customer_Longitude c))
               (Plots.drawn fig))
      /\ (forall loc, In loc (Plots.drawn fig) ->
            (exists p, In p plant_df
               /\ Gurobi.X r (Gurobi.x_var (Execute.Plant_ID p)) = 1
               /\ loc = Plots.plant_marker (Execute.Plant_Name p)
                          (Execute.Plant_Latitude p) (Execute.Plant_Longitude p))
            \/ (exists c, In c cust_df
                  /\ loc = Plots.customer_marker (Execute.Customer_Name c)
                             (Execute.Customer_Latitude c)
                             (Execute.Customer_Longitude c))).
Proof.
  intros math_domain_error max_plants cost_per_mile min_cost open_map_in_cell
         plant_df cust_df auto_open_map r Hids Hne Hno [Hs [mdl [Hm [Hf _]]]].
  rewrite (FloatFacts.run_float_eq math_domain_error plant_df cust_df
             cost_per_mile min_cost max_plants open_map_in_cell auto_open_map
             Hno).
  destruct (RunFacts.run_optimal max_plants cost_per_mile min_cost
              open_map_in_cell plant_df cust_df auto_open_map mdl r _ Hm Hs
              (CoverageFacts.lanes_built _ _ _ _ _ _ _ Hids Hm Hf Hne))
    as [cities Hrun].
  cbv zeta in Hrun.
  set (pairs := Execute.served_pairs plant_df cust_df (Gurobi.X r)) in *.
  exists mdl. eexists. eexists. eexists.
  split; [exact Hrun |].
  split; [reflexivity |].
  split; [reflexivity |].
  split; [reflexivity |].
  split; [reflexivity |].
  split; [reflexivity |].
  split; [reflexivity |].
  split.
  { cbn [Plots.plot_network Plots.path_traces]. rewrite !length_map.
    apply (SolutionMapFacts.served_count max_plants cost_per_mile min_cost
             plant_df cust_df mdl (Gurobi.X r) Hids Hm Hf). }
  split.
  - intros c Hc. apply ScopeFacts.drawn_plot_network.
    rewrite ScopeFacts.create_location_dataframe_eq.
    eexists. eexists. split; [right; left; reflexivity |].
    apply ScopeFacts.In_customer_markers.
    destruct (CoverageFacts.served_by_some_plant max_plants cost_per_mile
                min_cost plant_df cust_df mdl (Gurobi.X r) Hids Hm Hf c Hc)
      as [p Hp].
    exists (Execute.lane_of (p, c)). split; [| reflexivity].
    apply in_map. exact Hp.
  - intros loc Hl. apply ScopeFacts.drawn_plot_network in Hl.
    rewrite ScopeFacts.create_location_dataframe_eq in Hl.
    destruct Hl as [key [df [[E | [E | []]] Hl]]]; inversion E; subst key df.
    + left. apply ScopeFacts.In_plant_markers in Hl.
      destruct Hl as [row [Hrow ->]]. apply in_map_iff in Hrow.
      destruct Hrow as [[p c] [<- Hpc]].
      destruct (SolutionMapFacts.served_from_open max_plants cost_per_mile
                  min_cost plant_df cust_df mdl (Gurobi.X r) Hm Hf p c Hpc)
        as [Hp [_ Hx]].
      exists p. split; [exact Hp | split; [exact Hx | reflexivity]].
    + right. apply ScopeFacts.In_customer_markers in Hl.
      destruct Hl as [row [Hrow ->]]. apply in_map_iff in Hrow.
      destruct Hrow as [[p c] [<- Hpc]].
      destruct (SolutionMapFacts.served_from_open max_plants cost_per_mile
                  min_cost plant_df cust_df mdl (Gurobi.X r) Hm Hf p c Hpc)
        as [_ [Hc _]].
      exists c. split; [exact Hc | reflexivity].
Qed.

Lemma solution_map_witness :
  exists mdl evs e fig,
    Execute.answers
      (Execute.run_network_optimization_float Examples.rounds_above_one
         Execute.main_max_plants
         Execute.main_cost_per_mile Execute.main_min_cost
         Execute.main_open_map_in_cell Examples.one_plant
         Examples.two_customers true)
      Examples.answer_all_from_A mdl evs Execute.Returned
    /\ last evs (Execute.Print Execute.rule) = e
    /\ Plots.figure_of e = Some fig
    /\ Plots.layout_title fig = "Solution Map"%string
    /\ Plots.html_file fig = "Solution Map.html"%string
    /\ Plots.html_auto_open fig = true
    /\ Plots.shown_in_cell fig = Execute.main_open_map_in_cell
    /\ List.length (Plots.path_traces fig) = List.length Examples.two_customers
    /\ (forall c, In c Examples.two_customers ->
          In (Plots.customer_marker (Execute.Customer_Name c)
                (Execute.Customer_Latitude c) (Execute.Customer_Longitude c))
             (Plots.drawn fig))
    /\ (forall loc, In loc (Plots.drawn fig) ->
          (exists p, In p Examples.one_plant
             /\ Gurobi.X Examples.answer_all_from_A
                  (Gurobi.x_var (Execute.Plant_ID p)) = 1
             /\ loc = Plots.plant_marker (Execute.Plant_Name p)
                        (Execute.Plant_Latitude p) (Execute.Plant_Longitude p))
          \/ (exists c, In c Examples.two_customers
                /\ loc = Plots.customer_marker (Execute.Customer_Name c)
                           (Execute.Customer_Latitude c)
                           (Execute.Customer_Longitude c))).
Proof.
  apply (solution_map_draws_every_customer_and_open_plants_only
           Examples.rounds_above_one
           Execute.main_max_plants Execute.main_cost_per_mile
           Execute.main_min_cost Execute.main_open_map_in_cell
           Examples.one_plant Examples.two_customers true
           Examples.answer_all_from_A).
  - exact ExampleFacts.unique_ids_example.
  - discriminate.
  - exact ExampleFacts.no_domain_error_example.
  - exact (ExampleFacts.reports_optimal_example _ _).
Defined.

(* ===================================================================== *)
(** * Runs that end before the solver *)
(* ===================================================================== *)

Module RepeatedFacts.
Import Py Gurobi Execute ListFacts SetupFacts ModelFacts RunFacts FloatFacts.

Lemma mapM_raise_in {A B : Type} (f : A -> res B) (e : exn) (l : list A) :
  (forall a e', In a l -> f a = Raise e' -> e' = e) ->
  (exists a, In a l /\ f a = Raise e) ->
  mapM f l = Raise e.
Proof.
  induction l as [| a l IH]; intros Honly [b [Hb Hfb]]; simpl in *.
  - contradiction.
  - destruct (f a) as [v | e'] eqn:E; simpl.
    + destruct Hb as [-> | Hb]; [congruence |].
      rewrite IH; [reflexivity | | exists b; auto].
      intros a' e' Ha' Hfa'. apply (Honly a' e' (or_intror Ha') Hfa').
    + rewrite (Honly a e' (or_introl eq_refl) E). reflexivity.
Qed.

(** Two rows of a table with the same key are both selected by the key. *)
Lemma filter_two {A : Type} (f : A -> bool) (l1 l2 l3 : list A) (a b : A) :
  f a = true -> f b = true ->
  exists x y rows, filter f (l1 ++ a :: l2 ++ b :: l3) = x :: y :: rows.
Proof.
  intros Ha Hb. rewrite filter_app. simpl. rewrite Ha.
  rewrite filter_app. simpl. rewrite Hb.
  destruct (filter f l1) as [| x [| y rows]]; simpl.
  - destruct (filter f l2) as [| y rows]; simpl; eexists; eexists; eexists;
      reflexivity.
  - eexists. eexists. eexists. reflexivity.
  - eexists. eexists. eexists. reflexivity.
Qed.

(** The rows of the distance table under a key, when the plant ids are
    unique: one for each customer row with the customer id. *)
Lemma row_pairs_of_plant_key (plant_df : list Plant) (cust_df : list Customer)
    (p : Plant) (j : Z) :
  NoDup (map Plant_ID plant_df) -> In p plant_df ->
  filter (fun a => (Plant_ID (fst a) =? Plant_ID p)%Z
                   && (Customer_ID (snd a) =? j)%Z)
         (row_pairs plant_df cust_df)
  = map (fun c => (p, c)) (filter (fun c => (Customer_ID c =? j)%Z) cust_df).
Proof.
  intros Hnd Hp. unfold row_pairs.
  induction plant_df as [| q l IH]; [contradiction |].
  simpl in Hnd. inversion Hnd as [| ? ? Hq Hl]; subst.
  simpl. rewrite filter_app, filter_map_comm. simpl.
  destruct Hp as [-> | Hp].
  - rewrite Z.eqb_refl. simpl.
    rewrite (filter_none _ (flat_map (fun p0 => map (fun c => (p0, c)) cust_df) l)).
    + rewrite app_nil_r. reflexivity.
    + intros [q c] Hqc. apply in_flat_map in Hqc. destruct Hqc as [q' [Hq' Hc]].
      apply in_map_iff in Hc. destruct Hc as [c' [E _]]. inversion E; subst.
      simpl. destruct (Z.eqb_spec (Plant_ID q) (Plant_ID p)) as [E' | _];
        [| reflexivity].
      exfalso. apply Hq. rewrite <- E'. apply in_map. assumption.
  - destruct (Z.eqb_spec (Plant_ID q) (Plant_ID p)) as [E | _].
    + exfalso. apply Hq. rewrite E. apply in_map. assumption.
    + simpl. rewrite (filter_none (fun _ => false)) by reflexivity.
      simpl. apply IH; assumption.
Qed.

(** The same rows when the customer ids are unique: one for each plant
    row with the plant id. *)
Lemma row_pairs_of_customer_key (plant_df : list Plant) (cust_df : list Customer)
    (i : Z) (c : Customer) :
  NoDup (map Customer_ID cust_df) -> In c cust_df ->
  filter (fun a => (Plant_ID (fst a) =? i)%Z
                   && (Customer_ID (snd a) =? Customer_ID c)%Z)
         (row_pairs plant_df cust_df)
  = map (fun p => (p, c)) (filter (fun p => (Plant_ID p =? i)%Z) plant_df).
Proof.
  intros Hnd Hc. unfold row_pairs.
  induction plant_df as [| q l IH]; [reflexivity |].
  simpl. rewrite filter_app, IH, filter_map_comm. simpl.
  destruct (Plant_ID q =? i)%Z; simpl.
  - rewrite (filter_key_single Customer_ID cust_df c Hnd Hc). reflexivity.
  - rewrite (filter_none (fun _ => false)) by reflexivity. reflexivity.
Qed.

Section Repeated.
Variable max_plants : Z.
Variables cost_per_mile min_cost : R.
Variables (plant_df : list Plant) (cust_df : list Customer).

Let dist := setup_dist cost_per_mile min_cost plant_df cust_df.

Lemma dist_rows (i j : Z) :
  filter (fun r => (fst (dist_index r) =? i)%Z && (snd (dist_index r) =? j)%Z)
         dist
  = map (dist_entry cost_per_mile min_cost)
        (filter (fun a => (Plant_ID (fst a) =? i)%Z
                          && (Customer_ID (snd a) =? j)%Z)
                (row_pairs plant_df cust_df)).
Proof.
  unfold dist. rewrite setup_dist_row_pairs, filter_map_comm. reflexivity.
Qed.

(** A term of the objective that raises ends the construction of the
    model. *)
Lemma build_model_raises (e : exn) :
  (forall k e', In k (ij_set (plnt plant_df) (cust cust_df)) ->
     weighted_term dist cust_df k = Raise e' -> e' = e) ->
  (exists k, In k (ij_set (plnt plant_df) (cust cust_df))
             /\ weighted_term dist cust_df k = Raise e) ->
  build_model max_plants cost_per_mile min_cost plant_df cust_df = Raise e.
Proof.
  intros Honly Hex. unfold build_model, total_weighted_dist. fold dist.
  rewrite (mapM_raise_in _ e _ Honly Hex). reflexivity.
Qed.

(** With unique plant ids, a term raises only [NotImplementedError], and
    it does when two customer rows have its customer id. *)
Lemma weighted_term_repeated_customer (p : Plant) (j : Z) :
  NoDup (map Plant_ID plant_df) -> In p plant_df ->
  match filter (fun c => (Customer_ID c =? j)%Z) cust_df with
  | [] => weighted_term dist cust_df (Plant_ID p, j) = Raise KeyError
  | [c] =>
      weighted_term dist cust_df (Plant_ID p, j)
      = Ok (row_distance p c * Demand c, y_var (Plant_ID p) j)
  | _ :: _ :: _ =>
      weighted_term dist cust_df (Plant_ID p, j) = Raise NotImplementedError
  end.
Proof.
  intros Hnd Hp. unfold weighted_term, dist_loc, dmd_loc, loc. simpl fst. simpl snd.
  rewrite dist_rows, (row_pairs_of_plant_key plant_df cust_df p j Hnd Hp).
  destruct (filter (fun c => (Customer_ID c =? j)%Z) cust_df) as [| a [| b rows]];
    reflexivity.
Qed.

(** With unique customer ids, a term raises only [GurobiError], and it
    does when two plant rows have its plant id. *)
Lemma weighted_term_repeated_plant (i : Z) (c : Customer) :
  NoDup (map Customer_ID cust_df) -> In c cust_df ->
  match filter (fun p => (Plant_ID p =? i)%Z) plant_df with
  | [] => weighted_term dist cust_df (i, Customer_ID c) = Raise KeyError
  | [p] =>
      weighted_term dist cust_df (i, Customer_ID c)
      = Ok (row_distance p c * Demand c, y_var i (Customer_ID c))
  | _ :: _ :: _ =>
      weighted_term dist cust_df (i, Customer_ID c) = Raise GurobiError
  end.
Proof.
  intros Hnd Hc. unfold weighted_term, dist_loc, dmd_loc, loc. simpl fst. simpl snd.
  rewrite dist_rows, (row_pairs_of_customer_key plant_df cust_df i c Hnd Hc).
  rewrite (filter_key_single Customer_ID cust_df c Hnd Hc).
  destruct (filter (fun p => (Plant_ID p =? i)%Z) plant_df) as [| a [| b rows]];
    reflexivity.
Qed.

End Repeated.

End RepeatedFacts.

(** X17: a math domain error at one pair of a plant and a customer ends
    the run in its first statement: [get_distance] raises [ValueError],
    nothing is printed, no model is built and the solver is not called. *)
Theorem domain_error_ends_the_run_before_the_model :
  forall (math_domain_error : R -> R -> R -> R -> bool)
         (max_plants : Z) (cost_per_mile min_cost : R) (open_map_in_cell : bool)
         (plant_df : list Execute.Plant) (cust_df : list Execute.Customer)
         (auto_open_map : bool) (p : Execute.Plant) (c : Execute.Customer),
    In p plant_df -> In c cust_df ->
    math_domain_error (Execute.Plant_Latitude p) (Execute.Plant_Longitude p)
      (Execute.Customer_Latitude c) (Execute.Customer_Longitude c) = true ->
    Execute.get_distance_float math_domain_error plant_df cust_df
    = Execute.Raise Execute.ValueError
    /\ Execute.run_network_optimization_float math_domain_error max_plants
         cost_per_mile min_cost open_map_in_cell plant_df cust_df auto_open_map
       = Execute.Fails Execute.ValueError.
Proof.
  intros math_domain_error max_plants cost_per_mile min_cost open_map_in_cell
         plant_df cust_df auto_open_map p c Hp Hc Hr.
  split.
  - apply (FloatFacts.get_distance_float_raises _ _ _ p c Hp Hc Hr).
  - apply (FloatFacts.run_float_fails _ _ _ _ _ _ _ _ p c Hp Hc Hr).
Qed.

Lemma domain_error_ends_the_run_witness :
  Execute.get_distance_float Examples.rounds_above_one
    Examples.opposite_plant Examples.opposite_customer
  = Execute.Raise Execute.ValueError
  /\ Execute.run_network_optimization_float Examples.rounds_above_one
       Execute.main_max_plants Execute.main_cost_per_mile
       Execute.main_min_cost Execute.main_open_map_in_cell
       Examples.opposite_plant Examples.opposite_customer true
     = Execute.Fails Execute.ValueError.
Proof.
  apply (domain_error_ends_the_run_before_the_model Examples.rounds_above_one
           Execute.main_max_plants Execute.main_cost_per_mile
           Execute.main_min_cost Execute.main_open_map_in_cell
           Examples.opposite_plant Examples.opposite_customer true
           Examples.plant_P Examples.customer_Q).
  - left. reflexivity.
  - left. reflexivity.
  - exact OppositeFacts.rounds_above_one_at_P_Q.
Defined.

(** X18: when two rows of the customer table have the same id, the plant
    ids are unique, there is a plant and no distance raises, the run ends
    with [NotImplementedError] while it builds the objective: the lookups
    under the repeated id return two Series, whose product raises.
    Nothing is printed and the solver is not called. *)
Theorem repeated_customer_id_ends_the_run_before_the_solver :
  forall (math_domain_error : R -> R -> R -> R -> bool)
         (max_plants : Z) (cost_per_mile min_cost : R) (open_map_in_cell : bool)
         (plant_df : list Execute.Plant) (cust_df : list Execute.Customer)
         (auto_open_map : bool)
         (l1 l2 l3 : list Execute.Customer) (c1 c2 : Execute.Customer),
    NoDup (map Execute.Plant_ID plant_df) ->
    plant_df <> [] ->
    cust_df = (l1 ++ c1 :: l2 ++ c2 :: l3)%list ->
    Execute.Customer_ID c1 = Execute.Customer_ID c2 ->
    Execute.no_domain_error math_domain_error plant_df cust_df ->
    Execute.build_model max_plants cost_per_mile min_cost plant_df cust_df
    = Execute.Raise Execute.NotImplementedError
    /\ Execute.run_network_optimization_float math_domain_error max_plants
         cost_per_mile min_cost open_map_in_cell plant_df cust_df auto_open_map
       = Execute.Fails Execute.NotImplementedError.
Proof.
  intros math_domain_error max_plants cost_per_mile min_cost open_map_in_cell
         plant_df cust_df auto_open_map l1 l2 l3 c1 c2 Hnd Hne Hcust Hsame Hno.
  assert (Hb : Execute.build_model max_plants cost_per_mile min_cost
                 plant_df cust_df
               = Execute.Raise Execute.NotImplementedError).
  { apply RepeatedFacts.build_model_raises.
    - intros [i j] e' Hk He. apply SetupFacts.In_ij_set in Hk.
      destruct Hk as [Hi Hj].
      apply SetupFacts.In_plnt in Hi. destruct Hi as [p [Hp <-]].
      apply SetupFacts.In_cust in Hj. destruct Hj as [c [Hc Ej]].
      pose proof (RepeatedFacts.weighted_term_repeated_customer cost_per_mile
                    min_cost plant_df cust_df p j Hnd Hp) as H.
      assert (Hin : In c (filter (fun c => (Execute.Customer_ID c =? j)%Z)
                            cust_df))
        by (apply filter_In; split; [exact Hc | apply Z.eqb_eq; exact Ej]).
      destruct (filter (fun c => (Execute.Customer_ID c =? j)%Z) cust_df)
        as [| a [| b rows]].
      + contradiction.
      + rewrite H in He. discriminate He.
      + rewrite H in He. inversion He. reflexivity.
    - assert (Hex : exists p, In p plant_df).
      { destruct plant_df as [| p l]; [contradiction |].
        exists p. left. reflexivity. }
      destruct Hex as [p Hp].
      exists (Execute.Plant_ID p, Execute.Customer_ID c1). split.
      + apply SetupFacts.In_ij_set. split.
        * apply SetupFacts.In_plnt. exists p. auto.
        * apply SetupFacts.In_cust. exists c1. split; [| reflexivity].
          rewrite Hcust. apply in_or_app. right. left. reflexivity.
      + pose proof (RepeatedFacts.weighted_term_repeated_customer cost_per_mile
                      min_cost plant_df cust_df p (Execute.Customer_ID c1)
                      Hnd Hp) as H.
        destruct (RepeatedFacts.filter_two
                    (fun c => (Execute.Customer_ID c =? Execute.Customer_ID c1)%Z)
                    l1 l2 l3 c1 c2) as [x [y [rows E]]].
        * apply Z.eqb_refl.
        * apply Z.eqb_eq. symmetry. exact Hsame.
        * rewrite <- Hcust in E. rewrite E in H. exact H. }
  split; [exact Hb |].
  rewrite (FloatFacts.run_float_eq math_domain_error plant_df cust_df
             cost_per_mile min_cost max_plants open_map_in_cell auto_open_map
             Hno).
  unfold Execute.run_network_optimization. rewrite Hb. reflexivity.
Qed.

Lemma repeated_customer_id_witness :
  Execute.build_model Execute.main_max_plants Execute.main_cost_per_mile
    Execute.main_min_cost Examples.one_plant
    [Examples.customer_X; Examples.customer_X]
  = Execute.Raise Execute.NotImplementedError
  /\ Execute.run_network_optimization_float Examples.rounds_above_one
       Execute.main_max_plants Execute.main_cost_per_mile
       Execute.main_min_cost Execute.main_open_map_in_cell
       Examples.one_plant [Examples.customer_X; Examples.customer_X] true
     = Execute.Fails Execute.NotImplementedError.
Proof.
  apply (repeated_customer_id_ends_the_run_before_the_solver
           Examples.rounds_above_one Execute.main_max_plants
           Execute.main_cost_per_mile Execute.main_min_cost
           Execute.main_open_map_in_cell Examples.one_plant
           [Examples.customer_X; Examples.customer_X] true
           [] [] [] Examples.customer_X Examples.customer_X).
  - simpl. repeat constructor. simpl. tauto.
  - discriminate.
  - reflexivity.
  - reflexivity.
  - apply OppositeFacts.rounds_above_one_elsewhere.
    intros p [<- | []]. simpl. lra.
Defined.

(** X19: when two rows of the plant table have the same id, the customer
    ids are unique, there is a customer and no distance raises, the run
    ends with [GurobiError] while it builds the objective: the lookup of
    the distance under the repeated id returns a Series, which cannot be
    a coefficient of the sum.  Nothing is printed and the solver is not
    called. *)
Theorem repeated_plant_id_ends_the_run_before_the_solver :
  forall (math_domain_error : R -> R -> R -> R -> bool)
         (max_plants : Z) (cost_per_mile min_cost : R) (open_map_in_cell : bool)
         (plant_df : list Execute.Plant) (cust_df : list Execute.Customer)
         (auto_open_map : bool)
         (l1 l2 l3 : list Execute.Plant) (p1 p2 : Execute.Plant),
    NoDup (map Execute.Customer_ID cust_df) ->
    cust_df <> [] ->
    plant_df = (l1 ++ p1 :: l2 ++ p2 :: l3)%list ->
    Execute.Plant_ID p1 = Execute.Plant_ID p2 ->
    Execute.no_domain_error math_domain_error plant_df cust_df ->
    Execute.build_model max_plants cost_per_mile min_cost plant_df cust_df
    = Execute.Raise Execute.GurobiError
    /\ Execute.run_network_optimization_float math_domain_error max_plants
         cost_per_mile min_cost open_map_in_cell plant_df cust_df auto_open_map
       = Execute.Fails Execute.GurobiError.
Proof.
  intros math_domain_error max_plants cost_per_mile min_cost open_map_in_cell
         plant_df cust_df auto_open_map l1 l2 l3 p1 p2 Hnd Hne Hplant Hsame Hno.
  assert (Hb : Execute.build_model max_plants cost_per_mile min_cost
                 plant_df cust_df
               = Execute.Raise Execute.GurobiError).
  { apply RepeatedFacts.build_model_raises.
    - intros [i j] e' Hk He. apply SetupFacts.In_ij_set in Hk.
      destruct Hk as [Hi Hj].
      apply SetupFacts.In_plnt in Hi. destruct Hi as [p [Hp Ei]].
      apply SetupFacts.In_cust in Hj. destruct Hj as [c [Hc <-]].
      pose proof (RepeatedFacts.weighted_term_repeated_plant cost_per_mile
                    min_cost plant_df cust_df i c Hnd Hc) as H.
      assert (Hin : In p (filter (fun p => (Execute.Plant_ID p =? i)%Z)
                            plant_df))
        by (apply filter_In; split; [exact Hp | apply Z.eqb_eq; exact Ei]).
      destruct (filter (fun p => (Execute.Plant_ID p =? i)%Z) plant_df)
        as [| a [| b rows]].
      + contradiction.
      + rewrite H in He. discriminate He.
      + rewrite H in He. inversion He. reflexivity.
    - assert (Hex : exists c, In c cust_df).
      { destruct cust_df as [| c l]; [contradiction |].
        exists c. left. reflexivity. }
      destruct Hex as [c Hc].
      exists (Execute.Plant_ID p1, Execute.Customer_ID c). split.
      + apply SetupFacts.In_ij_set. split.
        * apply SetupFacts.In_plnt. exists p1. split; [| reflexivity].
          rewrite Hplant. apply in_or_app. right. left. reflexivity.
        * apply SetupFacts.In_cust. exists c. auto.
      + pose proof (RepeatedFacts.weighted_term_repeated_plant cost_per_mile
                      min_cost plant_df cust_df (Execute.Plant_ID p1) c
                      Hnd Hc) as H.
        destruct (RepeatedFacts.filter_two
                    (fun p => (Execute.Plant_ID p =? Execute.Plant_ID p1)%Z)
                    l1 l2 l3 p1 p2) as [x [y [rows E]]].
        * apply Z.eqb_refl.
        * apply Z.eqb_eq. symmetry. exact Hsame.
        * rewrite <- Hplant in E. rewrite E in H. exact H. }
  split; [exact Hb |].
  rewrite (FloatFacts.run_float_eq math_domain_error plant_df cust_df
             cost_per_mile min_cost max_plants open_map_in_cell auto_open_map
             Hno).
  unfold Execute.run_network_optimization. rewrite Hb. reflexivity.
Qed.

Lemma repeated_plant_id_witness :
  Execute.build_model Execute.main_max_plants Execute.main_cost_per_mile
    Execute.main_min_cost [Examples.plant_A; Examples.plant_A]
    Examples.one_customer
  = Execute.Raise Execute.GurobiError
  /\ Execute.run_network_optimization_float Examples.rounds_above_one
       Execute.main_max_plants Execute.main_cost_per_mile
       Execute.main_min_cost Execute.main_open_map_in_cell
       [Examples.plant_A; Examples.plant_A] Examples.one_customer true
     = Execute.Fails Execute.GurobiError.
Proof.
  apply (repeated_plant_id_ends_the_run_before_the_solver
           Examples.rounds_above_one Execute.main_max_plants
           Execute.main_cost_per_mile Execute.main_min_cost
           Execute.main_open_map_in_cell [Examples.plant_A; Examples.plant_A]
           Examples.one_customer true
           [] [] [] Examples.plant_A Examples.plant_A).
  - simpl. repeat constructor. simpl. tauto.
  - discriminate.
  - reflexivity.
  - reflexivity.
  - apply OppositeFacts.rounds_above_one_elsewhere.
    intros p [<- | [<- | []]]; simpl; lra.
Defined.
